(** * Staff AI Manager (OpenRCT2 plugin): analysis-and-decision engine

    A shallow embedding of the plugin's decision core and the properties
    its specification states about it.  Two revisions of the plugin are in
    the repository: v3.0 ("Smart Detection & Event-Based Hiring") and the
    older v2.2 ("Multiplayer Desync Fix").  Unless a definition says
    otherwise it follows v3.0; what exists only in v2.2 (the statistics
    reset) lives in [Module StaffManagerV2].

    Modelling conventions.
    - JavaScript numbers that hold counts, ids, ticks and tile coordinates
      are [Z] (or [nat] where the code uses them as loop indices); numbers
      that may be fractional (ratios, averages, patrol inputs) are exact
      rationals [Q].  IEEE-754 rounding is modelled where a property is
      decided by it: [Module DeterministicRandom64] is the random source
      on binary64 doubles, beside its exact reading
      [Module DeterministicRandom], which the hiring code uses at whole
      ticks.
    - [Infinity] and [-Infinity], which the coverage box uses as
      sentinels, are the two extra constructors of [JSNum].
    - The host application (OpenRCT2's scripting API) is the record
      [Host]; a query that throws is [None], which is how every
      [try { ... } catch (e) {}] of the source treats it.
    - Every plugin singleton ([ParkAnalyzer], [ActionQueue], ...) is a
      record, and its methods are functions that return the new record. *)

From Stdlib Require Import ZArith QArith Qround Lia Lqa List Bool String.
From Stdlib Require PrimFloat FloatOps SpecFloat Uint63.
From stdpp Require Import base option list gmap.
Import ListNotations.

Local Open Scope Z_scope.

(** ** JavaScript helpers *)

(** [v || 0] for a numeric [v] that may be [undefined]. *)
Definition or_zero (v : option Z) : Z :=
  match v with
  | Some t => if t =? 0 then 0 else t
  | None => 0
  end.

(** [Math.floor], [Math.ceil] and [Math.round] on exact rationals.
    [Math.round] rounds half up: [floor (x + 1/2)]. *)
Definition Math_floor (x : Q) : Z := Qfloor x.
Definition Math_ceil (x : Q) : Z := Qceiling x.
Definition Math_round (x : Q) : Z := Qfloor (x + (1 # 2))%Q.

(** Numbers extended with the two infinities. *)
Inductive JSNum : Type :=
| NegInf : JSNum
| Fin : Z -> JSNum
| PosInf : JSNum.

Definition js_min (a b : JSNum) : JSNum :=
  match a, b with
  | NegInf, _ | _, NegInf => NegInf
  | PosInf, c | c, PosInf => c
  | Fin x, Fin y => Fin (Z.min x y)
  end.

Definition js_max (a b : JSNum) : JSNum :=
  match a, b with
  | PosInf, _ | _, PosInf => PosInf
  | NegInf, c | c, NegInf => c
  | Fin x, Fin y => Fin (Z.max x y)
  end.

(** [a + k] for a finite [k]: the infinities absorb it. *)
Definition js_add (a : JSNum) (k : Z) : JSNum :=
  match a with
  | Fin x => Fin (x + k)
  | inf => inf
  end.

(** ** The host: OpenRCT2's scripting API as the plugin sees it *)

(** A tile element, with the fields the plugin reads. *)
Inductive Element : Type :=
| Footpath (isQueue isBroken isBlockedByVehicle : bool)
| Track (ride : option Z)          (* [None]: [typeof element.ride] is not 'number' *)
| EntranceElement
| OtherElement.

Record Ride : Type := {
  ride_id : Z;
  ride_classification : string
}.

Record Guest : Type := {
  guest_happiness : option Z;      (* [Some] iff [typeof guest.happiness === 'number'] *)
  guest_nausea : option Z;
  guest_thoughts : list (option string)  (* the [type] of each thought; [None]: a null thought *)
}.

Record StaffMember : Type := {
  staff_id : option Z;             (* [Some] iff [typeof staff.id === 'number'] *)
  staff_type : string;
  staff_orders : Z
}.

Record Host : Type := {
  date_ticksElapsed : option Z;                  (* [None]: reading [date] throws *)
  network_mode : option string;                  (* [None]: reading [network] throws *)
  map_size : option (nat * nat);                 (* [None]: reading [map.size] throws *)
  map_getTile : nat -> nat -> option (list (option Element));
                                                 (* [None]: no tile, no [elements], or the call throws *)
  map_rides : option (list (option Ride));
  map_guests : option (list (option Guest));     (* [map.getAllEntities('guest')] *)
  map_staff : option (list (option StaffMember)) (* [map.getAllEntities('staff')] *)
}.

(** [var mapWidth = 128, mapHeight = 128;
     try { mapWidth = map.size.x; mapHeight = map.size.y; } catch (e) {}] *)
Definition mapDims (h : Host) : nat * nat :=
  match map_size h with
  | Some wh => wh
  | None => (128%nat, 128%nat)
  end.

(** ** CONFIG

    The options the functions below read. *)

Record Config : Type := {
  handymanAutoHire : bool;
  handymanTargetRatio : Q;
  handymanMinCount : Z;
  handymanMaxCount : Z;
  handymanLitterThreshold : Z;
  handymanDisgustThreshold : Z;
  handymanSweepEnabled : bool;
  handymanMowEnabled : bool;
  handymanWaterEnabled : bool;
  handymanEmptyBinsEnabled : bool;
  mechanicAutoHire : bool;
  mechanicTargetRatio : Q;
  mechanicMinCount : Z;
  mechanicMaxCount : Z;
  securityAutoHire : bool;
  securityTargetRatio : Q;
  securityMinCount : Z;
  securityMaxCount : Z;
  securityCrimeThreshold : Z;
  entertainerAutoHire : bool;
  entertainerTargetRatio : Q;
  entertainerMinCount : Z;
  entertainerMaxCount : Z;
  entertainerHappinessThreshold : Z;
  autoHireEnabled : bool;
  patrolZoneSize : Z;
  patrolZoneOverlap : Z
}.

(** The values the v3.0 source initialises [CONFIG] with. *)
Definition CONFIG : Config := {|
  handymanAutoHire := true;
  handymanTargetRatio := (1 # 100)%Q;
  handymanMinCount := 2;
  handymanMaxCount := 50;
  handymanLitterThreshold := 15;
  handymanDisgustThreshold := 10;
  handymanSweepEnabled := true;
  handymanMowEnabled := false;
  handymanWaterEnabled := true;
  handymanEmptyBinsEnabled := true;
  mechanicAutoHire := true;
  mechanicTargetRatio := (15 # 100)%Q;
  mechanicMinCount := 1;
  mechanicMaxCount := 30;
  securityAutoHire := true;
  securityTargetRatio := (2 # 1000)%Q;
  securityMinCount := 0;
  securityMaxCount := 20;
  securityCrimeThreshold := 3;
  entertainerAutoHire := true;
  entertainerTargetRatio := (1 # 1000)%Q;
  entertainerMinCount := 0;
  entertainerMaxCount := 20;
  entertainerHappinessThreshold := 60;
  autoHireEnabled := true;
  patrolZoneSize := 15;
  patrolZoneOverlap := 2
|}.

Module HANDYMAN_ORDERS.
Definition SWEEPING : Z := 1.
Definition WATERING : Z := 2.
Definition EMPTY_BINS : Z := 4.
Definition MOWING : Z := 8.
End HANDYMAN_ORDERS.

Module MECHANIC_ORDERS.
Definition INSPECT : Z := 1.
Definition FIX : Z := 2.
End MECHANIC_ORDERS.

(** ** DeterministicRandom *)

Module DeterministicRandom.
Section WithSin.

(** [Math.sin] is approximated by the JavaScript engine; the embedding
    takes it as given.  On doubles its values are rationals. *)
Variable Math_sin : Q -> Q.

Definition getSeed (h : Host) : Z := or_zero (date_ticksElapsed h).

Definition random (h : Host) (offset : option Z) : Q :=
    let seed := getSeed h + or_zero offset in
    let x := (Math_sin (inject_Z seed * (129898 # 10000)) * (437585453 # 10000))%Q in
    (x - inject_Z (Math_floor x))%Q.

Definition randomInt (h : Host) (min max : Z) (offset : option Z) : Z :=
    Math_floor (random h offset * inject_Z (max - min + 1))%Q + min.

End WithSin.
End DeterministicRandom.

(** ** Doubles

    [DeterministicRandom] is arithmetic on IEEE-754 binary64 numbers, and
    whether its result stays in range is decided by rounding.  The
    kernel's primitive floats are binary64 with the same round-to-nearest
    arithmetic; what JavaScript adds is below. *)

Module Double.
Import PrimFloat.

(** A whole number as a double; exact up to [2^53] either way. *)
Definition ofZ (z : Z) : float :=
  if z <? 0 then opp (of_uint63 (Uint63.of_Z (- z))) else of_uint63 (Uint63.of_Z z).

Definition isNaN (x : float) : bool := negb (eqb x x).

(** [v || 0] for a number [v] that may be [undefined]: [0], [-0] and
    [NaN] are falsy. *)
Definition orZero (v : option float) : float :=
  match v with
  | Some x => if eqb x 0%float || isNaN x then 0%float else x
  | None => 0%float
  end.

(** [Math.floor].  A finite double is [m * 2^e], negated when [negative];
    with [e >= 0] it is whole already.  Zeros, infinities and [NaN] are
    returned as they are. *)
Definition floor (x : float) : float :=
  match FloatOps.Prim2SF x with
  | SpecFloat.S754_finite negative m e =>
      if 0 <=? e then x
      else
        let q := Z.shiftr (Z.pos m) (- e) in
        if negative then
          if Z.shiftl q (- e) =? Z.pos m then ofZ (- q) else ofZ (- (q + 1))
        else ofZ q
  | _ => x
  end.

End Double.

(** [DeterministicRandom] as the engine computes it, on doubles. *)
Module DeterministicRandom64.
Import PrimFloat.
#[local] Set Warnings "-inexact-float".
Section WithSin.

(** [Math.sin] is approximated by the JavaScript engine; the embedding
    takes it as given. *)
Variable Math_sin : float -> float.

Definition getSeed (h : Host) : float := Double.ofZ (or_zero (date_ticksElapsed h)).

Definition random (h : Host) (offset : option float) : float :=
    let seed := (getSeed h + Double.orZero offset)%float in
    let x := (Math_sin (seed * 12.9898) * 43758.5453)%float in
    (x - Double.floor x)%float.

Definition randomInt (h : Host) (min max : float) (offset : option float) : float :=
    (Double.floor (random h offset * (max - min + 1)) + min)%float.

End WithSin.
End DeterministicRandom64.

(** ** NetworkHelper *)

Module NetworkHelper.

Definition getMode (h : Host) : string :=
    match network_mode h with
    | Some m => m
    | None => "none"%string
    end.

Definition isServer (h : Host) : bool :=
    let mode := getMode h in
    String.eqb mode "none" || String.eqb mode "server".

Definition canModifyGameState (h : Host) : bool := isServer h.

(** The further queries of v2.2. *)
Definition isClient (h : Host) : bool := String.eqb (getMode h) "client".

Definition isMultiplayer (h : Host) : bool :=
  let mode := getMode h in
  String.eqb mode "server" || String.eqb mode "client".

Definition getModeString (h : Host) : string :=
  let mode := getMode h in
  if String.eqb mode "none" then "Single Player"
  else if String.eqb mode "server" then "Multiplayer (Host)"
  else if String.eqb mode "client" then "Multiplayer (Client)"
  else "Unknown".

End NetworkHelper.

(** ** PerformanceMonitor

    [Date.now()] is the wall clock; each method that reads it takes the
    reading, in milliseconds, as [now]. *)

Module PerformanceMonitor.

Record t : Type := {
  frameStartTime : Z;
  frameTimes : list Z
}.

Definition initial : t := {| frameStartTime := 0; frameTimes := [] |}.

Definition startFrame (now : Z) (pm : t) : t :=
  {| frameStartTime := now; frameTimes := frameTimes pm |}.

Definition getElapsedMs (now : Z) (pm : t) : Z := now - frameStartTime pm.

(** [push] the elapsed time, then [shift] once when more than 30 are held. *)
Definition endFrame (now : Z) (pm : t) : t * Z :=
  let elapsed := getElapsedMs now pm in
  let pushed := frameTimes pm ++ [elapsed] in
  ({| frameStartTime := frameStartTime pm;
      frameTimes := (if (30 <? length pushed)%nat then tl pushed else pushed) |},
   elapsed).

Definition getAverageFrameTime (pm : t) : Q :=
  if (length (frameTimes pm) =? 0)%nat then 0%Q
  else (inject_Z (fold_left Z.add (frameTimes pm) 0%Z)
        / inject_Z (Z.of_nat (length (frameTimes pm))))%Q.

(** One timed frame, as [onTick] brackets its roster update: [startFrame]
    at [fst clock], [endFrame] at [snd clock]. *)
Definition frame (pm : t) (clock : Z * Z) : t :=
  fst (endFrame (snd clock) (startFrame (fst clock) pm)).

End PerformanceMonitor.

(** ** SpatialHash

    The source keys its buckets by the string [cx + ',' + cy]; the pair
    [(cx, cy)] carries the same information.  Buckets are kept in
    insertion order, as the property enumeration of a JavaScript object
    keeps them. *)

Module SpatialHash.
Section Payload.
Context {A : Type}.

Record t : Type := {
  cellSize : Z;
  cells : list ((Z * Z) * list (Z * Z * A))
}.

(** [new SpatialHash(cellSize)]: [this.cellSize = cellSize || 16]. *)
Definition new (size : option Z) : t :=
  {| cellSize := (if or_zero size =? 0 then 16 else or_zero size); cells := [] |}.

Definition getKey (sh : t) (x y : Z) : Z * Z :=
  (x / cellSize sh, y / cellSize sh).

Fixpoint push (key : Z * Z) (entry : Z * Z * A)
    (cs : list ((Z * Z) * list (Z * Z * A))) : list ((Z * Z) * list (Z * Z * A)) :=
  match cs with
  | [] => [(key, [entry])]
  | (k, es) :: rest =>
      if decide (k = key) then (k, es ++ [entry]) :: rest
      else (k, es) :: push key entry rest
  end.

Definition add (sh : t) (x y : Z) (value : A) : t :=
  {| cellSize := cellSize sh; cells := push (getKey sh x y) (x, y, value) (cells sh) |}.

Definition clear (sh : t) : t :=
  {| cellSize := cellSize sh; cells := [] |}.

Definition count (sh : t) : nat :=
  fold_left (fun total c => (total + length (snd c))%nat) (cells sh) 0%nat.

(** [get] (v2.2): [this.cells[key] || []]. *)
Fixpoint bucket (key : Z * Z) (cs : list ((Z * Z) * list (Z * Z * A))) : list (Z * Z * A) :=
  match cs with
  | [] => []
  | (k, es) :: rest => if decide (k = key) then es else bucket key rest
  end.

Definition get (sh : t) (x y : Z) : list (Z * Z * A) :=
  bucket (getKey sh x y) (cells sh).

(** A run of [add] calls, one per entry [(x, y, value)], oldest first. *)
Definition addAll (sh : t) (entries : list (Z * Z * A)) : t :=
  fold_left (fun s e => add s (fst (fst e)) (snd (fst e)) (snd e)) entries sh.

End Payload.
Arguments t : clear implicits.
End SpatialHash.

(** ** ParkAnalyzer: the incremental world scan *)

Module ParkAnalyzer.

Record t : Type := {
  litterLocations : SpatialHash.t unit;
  vandalismLocations : SpatialHash.t unit;
  guestDensity : SpatialHash.t Guest;
  pathTiles : list (nat * nat);
  rideLocations : list (nat * nat * Z);
  entranceLocations : list (nat * nat);
  queueLocations : list (nat * nat);
  totalPathTiles : nat;
  totalLitter : nat;
  totalVandalism : nat;
  totalRides : nat;
  totalGuests : nat;
  averageGuestHappiness : Q;
  isAnalyzed : bool;
  analysisProgress : nat;
  analysisTotal : nat;
  (* Not a field of the source: the linear cell indices the scan loop has
     handed to its body since the last [startAnalysis], oldest first. *)
  visited : list nat
}.

Definition initial : t := {|
  litterLocations := SpatialHash.new (Some 8);
  vandalismLocations := SpatialHash.new (Some 8);
  guestDensity := SpatialHash.new (Some 16);
  pathTiles := [];
  rideLocations := [];
  entranceLocations := [];
  queueLocations := [];
  totalPathTiles := 0;
  totalLitter := 0;
  totalVandalism := 0;
  totalRides := 0;
  totalGuests := 0;
  averageGuestHappiness := 0%Q;
  isAnalyzed := false;
  analysisProgress := 0;
  analysisTotal := 0;
  visited := []
|}.

Definition startAnalysis (h : Host) (pa : t) : t := {|
  litterLocations := SpatialHash.clear (litterLocations pa);
  vandalismLocations := SpatialHash.clear (vandalismLocations pa);
  guestDensity := SpatialHash.clear (guestDensity pa);
  pathTiles := [];
  rideLocations := [];
  entranceLocations := [];
  queueLocations := [];
  totalPathTiles := 0;
  totalLitter := 0;
  totalVandalism := 0;
  totalRides := totalRides pa;
  totalGuests := totalGuests pa;
  averageGuestHappiness := averageGuestHappiness pa;
  isAnalyzed := false;
  analysisProgress := 0;
  analysisTotal :=
    match map_size h with
    | Some (w, hgt) => (w * hgt)%nat
    | None => (128 * 128)%nat
    end;
  visited := []
|}.

(** The topology collections one element of a tile contributes to. *)
Definition classify (tileX tileY : nat) (pa : t) (element : option Element) : t :=
  match element with
  | Some (Footpath isQueue _ _) => {|
      litterLocations := litterLocations pa;
      vandalismLocations := vandalismLocations pa;
      guestDensity := guestDensity pa;
      pathTiles := pathTiles pa ++ [(tileX, tileY)];
      rideLocations := rideLocations pa;
      entranceLocations := entranceLocations pa;
      queueLocations :=
        (if isQueue then queueLocations pa ++ [(tileX, tileY)] else queueLocations pa);
      totalPathTiles := S (totalPathTiles pa);
      totalLitter := totalLitter pa;
      totalVandalism := totalVandalism pa;
      totalRides := totalRides pa;
      totalGuests := totalGuests pa;
      averageGuestHappiness := averageGuestHappiness pa;
      isAnalyzed := isAnalyzed pa;
      analysisProgress := analysisProgress pa;
      analysisTotal := analysisTotal pa;
      visited := visited pa |}
  | Some (Track (Some rideId)) => {|
      litterLocations := litterLocations pa;
      vandalismLocations := vandalismLocations pa;
      guestDensity := guestDensity pa;
      pathTiles := pathTiles pa;
      rideLocations := rideLocations pa ++ [(tileX, tileY, rideId)];
      entranceLocations := entranceLocations pa;
      queueLocations := queueLocations pa;
      totalPathTiles := totalPathTiles pa;
      totalLitter := totalLitter pa;
      totalVandalism := totalVandalism pa;
      totalRides := totalRides pa;
      totalGuests := totalGuests pa;
      averageGuestHappiness := averageGuestHappiness pa;
      isAnalyzed := isAnalyzed pa;
      analysisProgress := analysisProgress pa;
      analysisTotal := analysisTotal pa;
      visited := visited pa |}
  | Some EntranceElement => {|
      litterLocations := litterLocations pa;
      vandalismLocations := vandalismLocations pa;
      guestDensity := guestDensity pa;
      pathTiles := pathTiles pa;
      rideLocations := rideLocations pa;
      entranceLocations := entranceLocations pa ++ [(tileX, tileY)];
      queueLocations := queueLocations pa;
      totalPathTiles := totalPathTiles pa;
      totalLitter := totalLitter pa;
      totalVandalism := totalVandalism pa;
      totalRides := totalRides pa;
      totalGuests := totalGuests pa;
      averageGuestHappiness := averageGuestHappiness pa;
      isAnalyzed := isAnalyzed pa;
      analysisProgress := analysisProgress pa;
      analysisTotal := analysisTotal pa;
      visited := visited pa |}
  | _ => pa
  end.

(** The body of the scan loop's [try]: look the tile up and classify each
    of its elements. *)
Definition scanTile (h : Host) (tileX tileY : nat) (pa : t) : t :=
  match map_getTile h tileX tileY with
  | Some elements => fold_left (classify tileX tileY) elements pa
  | None => pa
  end.

(** [this.analysisProgress++], with the index just handled logged. *)
Definition advance (pa : t) : t := {|
  litterLocations := litterLocations pa;
  vandalismLocations := vandalismLocations pa;
  guestDensity := guestDensity pa;
  pathTiles := pathTiles pa;
  rideLocations := rideLocations pa;
  entranceLocations := entranceLocations pa;
  queueLocations := queueLocations pa;
  totalPathTiles := totalPathTiles pa;
  totalLitter := totalLitter pa;
  totalVandalism := totalVandalism pa;
  totalRides := totalRides pa;
  totalGuests := totalGuests pa;
  averageGuestHappiness := averageGuestHappiness pa;
  isAnalyzed := isAnalyzed pa;
  analysisProgress := S (analysisProgress pa);
  analysisTotal := analysisTotal pa;
  visited := visited pa ++ [analysisProgress pa]
|}.

(** [while (this.analysisProgress < this.analysisTotal && processed < 500)];
    [budget] is [500 - processed]. *)
Fixpoint scanLoop (h : Host) (mapWidth : nat) (budget : nat) (pa : t) : t :=
  match budget with
  | O => pa
  | S budget' =>
      if (analysisProgress pa <? analysisTotal pa)%nat then
        let tileX := (analysisProgress pa mod mapWidth)%nat in
        let tileY := (analysisProgress pa / mapWidth)%nat in
        scanLoop h mapWidth budget' (advance (scanTile h tileX tileY pa))
      else pa
  end.

Definition countRides (rides : list (option Ride)) : nat :=
  fold_left (fun total (r : option Ride) =>
               match r with
               | Some ride =>
                   if String.eqb (ride_classification ride) "ride" then S total else total
               | None => total
               end) rides 0%nat.

Definition with_rideStats (pa : t) (analyzed : bool) (rides : nat) : t := {|
  litterLocations := litterLocations pa;
  vandalismLocations := vandalismLocations pa;
  guestDensity := guestDensity pa;
  pathTiles := pathTiles pa;
  rideLocations := rideLocations pa;
  entranceLocations := entranceLocations pa;
  queueLocations := queueLocations pa;
  totalPathTiles := totalPathTiles pa;
  totalLitter := totalLitter pa;
  totalVandalism := totalVandalism pa;
  totalRides := rides;
  totalGuests := totalGuests pa;
  averageGuestHappiness := averageGuestHappiness pa;
  isAnalyzed := analyzed;
  analysisProgress := analysisProgress pa;
  analysisTotal := analysisTotal pa;
  visited := visited pa
|}.

(** [try { var rides = map.rides; this.totalRides = 0; ... } catch (e) {}] *)
Definition updateRideStats (h : Host) (pa : t) : t :=
  match map_rides h with
  | Some rides => with_rideStats pa (isAnalyzed pa) (countRides rides)
  | None => pa
  end.

(** One call of [runAnalysisStep]: the new state and the returned flag. *)
Definition runAnalysisStep (h : Host) (pa : t) : t * bool :=
  if isAnalyzed pa then (pa, true)
  else
    let pa1 := scanLoop h (fst (mapDims h)) 500 pa in
    if (analysisTotal pa1 <=? analysisProgress pa1)%nat then
      (updateRideStats h (with_rideStats pa1 true (totalRides pa1)), true)
    else (pa1, false).

(** [n] successive calls of [runAnalysisStep], as [onTick] makes them. *)
Fixpoint runSteps (h : Host) (n : nat) (pa : t) : t :=
  match n with
  | O => pa
  | S n' => runSteps h n' (fst (runAnalysisStep h pa))
  end.

(** The calls of [runAnalysisStep] that [onTick] makes while the scan
    runs, one per tick, each on the map as that tick finds it: [worlds]
    lists the host as it stands at each call, first call first. *)
Fixpoint runStepsOn (worlds : list Host) (pa : t) : t :=
  match worlds with
  | [] => pa
  | h :: later => runStepsOn later (fst (runAnalysisStep h pa))
  end.

(** One litter entity of [updateLitterAndVandalism]: index it under its
    tile, [Math.floor(item.x / 32)] by [Math.floor(item.y / 32)], and
    count it.  A null entry is skipped. *)
Definition indexLitter (pa : t) (item : option (Z * Z)) : t :=
  match item with
  | None => pa
  | Some (x, y) => {|
      litterLocations := SpatialHash.add (litterLocations pa) (x / 32) (y / 32) tt;
      vandalismLocations := vandalismLocations pa;
      guestDensity := guestDensity pa;
      pathTiles := pathTiles pa;
      rideLocations := rideLocations pa;
      entranceLocations := entranceLocations pa;
      queueLocations := queueLocations pa;
      totalPathTiles := totalPathTiles pa;
      totalLitter := S (totalLitter pa);
      totalVandalism := totalVandalism pa;
      totalRides := totalRides pa;
      totalGuests := totalGuests pa;
      averageGuestHappiness := averageGuestHappiness pa;
      isAnalyzed := isAnalyzed pa;
      analysisProgress := analysisProgress pa;
      analysisTotal := analysisTotal pa;
      visited := visited pa |}
  end.

(** [updateLitterAndVandalism] (v3.0).  [litter] is what
    [map.getAllEntities('litter')] returns, each entity by its [x] and
    [y]; [None] when the query throws. *)
Definition updateLitterAndVandalism (litter : option (list (option (Z * Z)))) (pa : t) : t :=
  let cleared := {|
    litterLocations := SpatialHash.clear (litterLocations pa);
    vandalismLocations := SpatialHash.clear (vandalismLocations pa);
    guestDensity := guestDensity pa;
    pathTiles := pathTiles pa;
    rideLocations := rideLocations pa;
    entranceLocations := entranceLocations pa;
    queueLocations := queueLocations pa;
    totalPathTiles := totalPathTiles pa;
    totalLitter := 0;
    totalVandalism := 0;
    totalRides := totalRides pa;
    totalGuests := totalGuests pa;
    averageGuestHappiness := averageGuestHappiness pa;
    isAnalyzed := isAnalyzed pa;
    analysisProgress := analysisProgress pa;
    analysisTotal := analysisTotal pa;
    visited := visited pa |} in
  match litter with
  | Some items => fold_left indexLitter items cleared
  | None => cleared
  end.

End ParkAnalyzer.

(** ** RideTracker: coverage of a tracked ride *)

Module RideTracker.

Record PathPoint : Type := {
  pp_x : Z;
  pp_y : Z;
  pp_type : string                  (* 'station' or 'path' *)
}.

Record KnownRide : Type := {
  kr_id : Z;
  kr_name : string;
  kr_type : Z;
  kr_trackedAt : Z
}.

Record t : Type := {
  knownRides : gmap Z KnownRide;
  rideEntrances : gmap Z (list (Z * Z * Z));
  rideExits : gmap Z (list (Z * Z * Z));
  ridePaths : gmap Z (list PathPoint);
  newRidesDetected : list Z;
  lastRideCount : nat
}.

Record Coverage : Type := {
  minX : JSNum;
  minY : JSNum;
  maxX : JSNum;
  maxY : JSNum
}.

(** [entrances.concat(exits).concat(paths)], keeping the [x] and [y] the
    loop reads. *)
Definition allPoints (rt : t) (rideId : Z) : list (Z * Z) :=
  let entrances := default [] (rideEntrances rt !! rideId) in
  let exits := default [] (rideExits rt !! rideId) in
  let paths := default [] (ridePaths rt !! rideId) in
  map (fun p : Z * Z * Z => (fst (fst p), snd (fst p))) entrances
  ++ map (fun p : Z * Z * Z => (fst (fst p), snd (fst p))) exits
  ++ map (fun p => (pp_x p, pp_y p)) paths.

Definition extend (coverage : Coverage) (p : Z * Z) : Coverage := {|
  minX := js_min (minX coverage) (Fin (fst p));
  minY := js_min (minY coverage) (Fin (snd p));
  maxX := js_max (maxX coverage) (Fin (fst p));
  maxY := js_max (maxY coverage) (Fin (snd p))
|}.

Definition emptyCoverage : Coverage :=
  {| minX := PosInf; minY := PosInf; maxX := NegInf; maxY := NegInf |}.

Definition getRideCoverage (rt : t) (rideId : Z) : Coverage :=
  let coverage := fold_left extend (allPoints rt rideId) emptyCoverage in
  (* Add padding *)
  {| minX := js_max (Fin 0) (js_add (minX coverage) (-3));
     minY := js_max (Fin 0) (js_add (minY coverage) (-3));
     maxX := js_add (maxX coverage) 3;
     maxY := js_add (maxY coverage) 3 |}.

(** *** Tracking rides: stations, the bounded search, and reporting *)

(** A ride as [RideTracker] reads it from [map.rides]. *)
Record Station : Type := {
  st_entrance : option (Z * Z * option Z);   (* [x], [y] and [z]; [z] may be missing *)
  st_exit : option (Z * Z * option Z);
  st_start : option (Z * Z)
}.

Record RideInfo : Type := {
  info_id : Z;
  info_classification : string;
  info_name : option string;
  info_type : Z;
  info_stations : option (list (option Station))
}.

(** [map.getTile] at whole-number coordinates.  The host record holds the
    tiles of the grid; off the grid there is no tile to look at. *)
Definition hostTile (h : Host) (x y : Z) : option (list (option Element)) :=
  if (x <? 0) || (y <? 0) then None else map_getTile h (Z.to_nat x) (Z.to_nat y).

Definition getGameTick (h : Host) : Z := or_zero (date_ticksElapsed h).

Record SearchItem : Type := {
  si_x : Z;
  si_y : Z;
  si_depth : nat
}.

(** The state of the loop of [findConnectedPaths]: the [visited] keys, the
    [queue], and the path points pushed so far. *)
Record Search : Type := {
  visitedKeys : gset (Z * Z);
  frontier : list SearchItem;
  collected : list PathPoint
}.

Definition maxDepth : nat := 10.

Definition directions : list (Z * Z) := [(0, 1); (0, -1); (1, 0); (-1, 0)].

Definition neighbours (current : SearchItem) : list SearchItem :=
  map (fun d : Z * Z =>
         {| si_x := si_x current + fst d;
            si_y := si_y current + snd d;
            si_depth := S (si_depth current) |}) directions.

Section Search.
(** The tile look-up: [None] when there is no tile or the call throws. *)
Variable getTile : Z -> Z -> option (list (option Element)).

(** Whether the tile has a footpath element (the inner loop stops at the
    first one). *)
Definition hasFootpath (x y : Z) : bool :=
  match getTile x y with
  | Some elements =>
      existsb (fun element : option Element =>
                 match element with Some (Footpath _ _ _) => true | _ => false end) elements
  | None => false
  end.

(** One turn of [while (queue.length > 0)]. *)
Definition searchStep (s : Search) : Search :=
  match frontier s with
  | [] => s
  | current :: rest =>
      let key := (si_x current, si_y current) in
      if bool_decide (key ∈ visitedKeys s) || (maxDepth <? si_depth current)%nat then
        {| visitedKeys := visitedKeys s; frontier := rest; collected := collected s |}
      else if hasFootpath (si_x current) (si_y current) then
        {| visitedKeys := {[key]} ∪ visitedKeys s;
           frontier := rest ++ neighbours current;
           collected := collected s ++
             [{| pp_x := si_x current; pp_y := si_y current; pp_type := "path" |}] |}
      else
        {| visitedKeys := {[key]} ∪ visitedKeys s; frontier := rest; collected := collected s |}
  end.

Fixpoint searchLoop (fuel : nat) (s : Search) : Search :=
  match fuel with
  | O => s
  | S fuel' =>
      match frontier s with
      | [] => s
      | _ => searchLoop fuel' (searchStep s)
      end
  end.

(** Turns that always suffice: the start and four neighbours for each of
    the 221 tiles within 10 steps. *)
Definition searchBudget : nat := 885.

Definition startSearch (startX startY : Z) (paths : list PathPoint) : Search :=
  {| visitedKeys := ∅;
     frontier := [{| si_x := startX; si_y := startY; si_depth := 0 |}];
     collected := paths |}.

(** [findConnectedPaths(startX, startY, rideId)], on the ride's path list. *)
Definition findConnectedPaths (startX startY : Z) (paths : list PathPoint) : list PathPoint :=
  collected (searchLoop searchBudget (startSearch startX startY paths)).

(** What one station adds to the ride's entrances, exits and paths. *)
Definition trackStation
    (lists : list (Z * Z * Z) * list (Z * Z * Z) * list PathPoint)
    (station : option Station) : list (Z * Z * Z) * list (Z * Z * Z) * list PathPoint :=
  match station with
  | None => lists
  | Some st =>
      let '(entrances, exits, paths) := lists in
      let '(entrances1, paths1) :=
        match st_entrance st with
        | Some (x, y, z) => (entrances ++ [(x, y, or_zero z)], findConnectedPaths x y paths)
        | None => (entrances, paths)
        end in
      let '(exits2, paths2) :=
        match st_exit st with
        | Some (x, y, z) => (exits ++ [(x, y, or_zero z)], findConnectedPaths x y paths1)
        | None => (exits, paths1)
        end in
      let paths3 :=
        match st_start st with
        | Some (x, y) => paths2 ++ [{| pp_x := x; pp_y := y; pp_type := "station" |}]
        | None => paths2
        end in
      (entrances1, exits2, paths3)
  end.

Definition findRideEntrancesExits (ride : RideInfo) (rt : t) : t :=
  match info_stations ride with
  | None => rt
  | Some stations =>
      let '(entrances, exits, paths) := fold_left trackStation stations ([], [], []) in
      {| knownRides := knownRides rt;
         rideEntrances := <[info_id ride := entrances]> (rideEntrances rt);
         rideExits := <[info_id ride := exits]> (rideExits rt);
         ridePaths := <[info_id ride := paths]> (ridePaths rt);
         newRidesDetected := newRidesDetected rt;
         lastRideCount := lastRideCount rt |}
  end.

(** [trackRide(ride)] at game tick [tick]. *)
Definition trackRide (tick : Z) (ride : RideInfo) (rt : t) : t :=
  match knownRides rt !! info_id ride with
  | Some _ => rt
  | None =>
      let name :=
        match info_name ride with
        | Some n => if String.eqb n "" then "Unknown Ride"%string else n
        | None => "Unknown Ride"%string
        end in
      let rt1 := {|
        knownRides :=
          <[info_id ride := {| kr_id := info_id ride; kr_name := name;
                               kr_type := info_type ride; kr_trackedAt := tick |}]>
            (knownRides rt);
        rideEntrances := rideEntrances rt;
        rideExits := rideExits rt;
        ridePaths := ridePaths rt;
        newRidesDetected := newRidesDetected rt;
        lastRideCount := lastRideCount rt |} in
      let rt2 := findRideEntrancesExits ride rt1 in
      {| knownRides := knownRides rt2;
         rideEntrances := rideEntrances rt2;
         rideExits := rideExits rt2;
         ridePaths := ridePaths rt2;
         newRidesDetected := newRidesDetected rt2 ++ [info_id ride];
         lastRideCount := lastRideCount rt2 |}
  end.

(** The loop body shared by [scanAllRides] and [checkForNewRides]: track
    the entry if it is a ride (and, inside [trackRide], not yet known). *)
Definition trackIfRide (tick : Z) (rt : t) (entry : option RideInfo) : t :=
  match entry with
  | Some ride =>
      if String.eqb (info_classification ride) "ride" then trackRide tick ride rt else rt
  | None => rt
  end.

Definition with_lastRideCount (rt : t) (count : nat) : t :=
  {| knownRides := knownRides rt;
     rideEntrances := rideEntrances rt;
     rideExits := rideExits rt;
     ridePaths := ridePaths rt;
     newRidesDetected := newRidesDetected rt;
     lastRideCount := count |}.

(** [scanAllRides()]; [rides] is [map.rides], [None] when reading it
    throws. *)
Definition scanAllRides (tick : Z) (rides : option (list (option RideInfo))) (rt : t) : t :=
  match rides with
  | Some rs => with_lastRideCount (fold_left (trackIfRide tick) rs rt) (length rs)
  | None => rt
  end.

Definition checkForNewRides (tick : Z) (rides : option (list (option RideInfo))) (rt : t)
    : t * bool :=
  match rides with
  | Some rs =>
      if negb (length rs =? lastRideCount rt)%nat then
        let rt' := with_lastRideCount (fold_left (trackIfRide tick) rs rt) (length rs) in
        (rt', (0 <? length (newRidesDetected rt'))%nat)
      else (rt, false)
  | None => (rt, false)
  end.

End Search.

Definition getNewRides (rt : t) : t * list Z :=
  ({| knownRides := knownRides rt;
      rideEntrances := rideEntrances rt;
      rideExits := rideExits rt;
      ridePaths := ridePaths rt;
      newRidesDetected := [];
      lastRideCount := lastRideCount rt |},
   newRidesDetected rt).

Definition initial : t :=
  {| knownRides := ∅; rideEntrances := ∅; rideExits := ∅; ridePaths := ∅;
     newRidesDetected := []; lastRideCount := 0 |}.

End RideTracker.

(** ** CrimeDetector *)

Module CrimeDetector.

Record Crime : Type := {
  crime_x : nat;
  crime_y : nat;
  crime_type : string;
  crime_tick : Z
}.

Record t : Type := {
  vandalismCount : Z;
  recentCrimes : list Crime;
  crimeHotspots : SpatialHash.t string;
  lastCheck : Z
}.

Definition initial : t := {|
  vandalismCount := 0;
  recentCrimes := [];
  crimeHotspots := SpatialHash.new (Some 16);
  lastCheck := 0
|}.

Definition getGameTick (h : Host) : Z := or_zero (date_ticksElapsed h).

(** One element of a sampled path tile: a footpath element that is broken
    or blocked is a vandalism event. *)
Definition inspect (h : Host) (pathTile : nat * nat) (cd : t) (element : option Element) : t :=
  match element with
  | Some (Footpath _ isBroken isBlockedByVehicle) =>
      if isBroken || isBlockedByVehicle then {|
        vandalismCount := vandalismCount cd + 1;
        recentCrimes := recentCrimes cd ++
          [{| crime_x := fst pathTile; crime_y := snd pathTile;
              crime_type := "vandalism"; crime_tick := getGameTick h |}];
        crimeHotspots :=
          SpatialHash.add (crimeHotspots cd) (Z.of_nat (fst pathTile))
            (Z.of_nat (snd pathTile)) "vandalism"%string;
        lastCheck := lastCheck cd |}
      else cd
  | _ => cd
  end.

Definition sample (h : Host) (cd : t) (pathTile : nat * nat) : t :=
  match map_getTile h (fst pathTile) (snd pathTile) with
  | Some elements => fold_left (inspect h pathTile) elements cd
  | None => cd
  end.

(** [update]: reset, then sample the first 300 discovered path tiles.  The
    outer [try] reads [map.size] first, so nothing is sampled when that
    read throws. *)
Definition update (h : Host) (pa : ParkAnalyzer.t) (cd : t) : t :=
  let cleared := {|
    vandalismCount := 0;
    recentCrimes := [];
    crimeHotspots := SpatialHash.clear (crimeHotspots cd);
    lastCheck := lastCheck cd |} in
  match map_size h with
  | Some _ => fold_left (sample h) (firstn 300 (ParkAnalyzer.pathTiles pa)) cleared
  | None => cleared
  end.

Definition getCrimeLevel (cd : t) : Z := vandalismCount cd.

Definition needsMoreSecurity (cfg : Config) (cd : t) : bool :=
  vandalismCount cd >=? securityCrimeThreshold cfg.

End CrimeDetector.

(** ** GuestFeedbackAnalyzer *)

Module GuestFeedbackAnalyzer.

Record Summary : Type := {
  sum_disgust : Z;
  sum_litter : Z;
  sum_happiness : Z;
  sum_unhappy : Z;
  sum_total : Z
}.

Record t : Type := {
  disgustCount : Z;
  litterComplaints : Z;
  averageHappiness : Q;
  happinessPercent : Z;
  unhappyGuestCount : Z;
  totalGuests : Z;
  feedbackSummary : option Summary   (* [None]: the initial [{}] *)
}.

Definition initial : t := {|
  disgustCount := 0;
  litterComplaints := 0;
  averageHappiness := 128%Q;
  happinessPercent := 50;
  unhappyGuestCount := 0;
  totalGuests := 0;
  feedbackSummary := None
|}.

(** The locals and counters the guest loop of [update] accumulates. *)
Record Tally : Type := {
  totalHappiness : Z;
  happyCount : Z;
  t_disgust : Z;
  t_litter : Z;
  t_unhappy : Z
}.

Definition isDisgust (thoughtType : string) : bool :=
  String.eqb thoughtType "disgusting" || String.eqb thoughtType "bad_litter"
  || String.eqb thoughtType "path_disgusting" || String.eqb thoughtType "vandalism".

Definition isLitter (thoughtType : string) : bool :=
  String.eqb thoughtType "bad_litter" || String.eqb thoughtType "litter".

Definition tallyThought (acc : Tally) (thought : option string) : Tally :=
  match thought with
  | Some thoughtType => {|
      totalHappiness := totalHappiness acc;
      happyCount := happyCount acc;
      t_disgust := (if isDisgust thoughtType then t_disgust acc + 1 else t_disgust acc);
      t_litter := (if isLitter thoughtType then t_litter acc + 1 else t_litter acc);
      t_unhappy := t_unhappy acc |}
  | None => acc
  end.

Definition tallyHappiness (acc : Tally) (g : Guest) : Tally :=
  match guest_happiness g with
  | Some happiness => {|
      totalHappiness := totalHappiness acc + happiness;
      happyCount := happyCount acc + 1;
      t_disgust := t_disgust acc;
      t_litter := t_litter acc;
      (* below 60% = 153 on the 0-255 scale *)
      t_unhappy := (if happiness <? 153 then t_unhappy acc + 1 else t_unhappy acc) |}
  | None => acc
  end.

Definition tallyNausea (acc : Tally) (g : Guest) : Tally :=
  match guest_nausea g with
  | Some nausea =>
      if 150 <? nausea then {|
        totalHappiness := totalHappiness acc;
        happyCount := happyCount acc;
        t_disgust := t_disgust acc + 1;
        t_litter := t_litter acc;
        t_unhappy := t_unhappy acc |}
      else acc
  | None => acc
  end.

Definition tallyGuest (acc : Tally) (guest : option Guest) : Tally :=
  match guest with
  | None => acc
  | Some g =>
      tallyNausea (fold_left tallyThought (guest_thoughts g) (tallyHappiness acc g)) g
  end.

Definition update (h : Host) (gfa : t) : t :=
  match map_guests h with
  | None =>
      (* the query threw: only the resets before the [try] happened *)
      {| disgustCount := 0;
         litterComplaints := 0;
         averageHappiness := averageHappiness gfa;
         happinessPercent := happinessPercent gfa;
         unhappyGuestCount := 0;
         totalGuests := totalGuests gfa;
         feedbackSummary := feedbackSummary gfa |}
  | Some guests =>
      let acc := fold_left tallyGuest guests
                   {| totalHappiness := 0; happyCount := 0;
                      t_disgust := 0; t_litter := 0; t_unhappy := 0 |} in
      let average :=
        if 0 <? happyCount acc
        then (inject_Z (totalHappiness acc) / inject_Z (happyCount acc))%Q
        else averageHappiness gfa in
      let percent :=
        if 0 <? happyCount acc
        then Math_round ((average / 255) * 100)%Q
        else happinessPercent gfa in
      {| disgustCount := t_disgust acc;
         litterComplaints := t_litter acc;
         averageHappiness := average;
         happinessPercent := percent;
         unhappyGuestCount := t_unhappy acc;
         totalGuests := Z.of_nat (length guests);
         feedbackSummary := Some {|
           sum_disgust := t_disgust acc;
           sum_litter := t_litter acc;
           sum_happiness := percent;
           sum_unhappy := t_unhappy acc;
           sum_total := Z.of_nat (length guests) |} |}
  end.

Definition needsMoreHandymen (cfg : Config) (pa : ParkAnalyzer.t) (gfa : t) : bool :=
  (disgustCount gfa >=? handymanDisgustThreshold cfg)
  || (litterComplaints gfa >=? handymanLitterThreshold cfg)
  || (Z.of_nat (ParkAnalyzer.totalLitter pa) >? handymanLitterThreshold cfg * 2).

Definition needsMoreEntertainers (cfg : Config) (gfa : t) : bool :=
  happinessPercent gfa <? entertainerHappinessThreshold cfg.

End GuestFeedbackAnalyzer.

(** ** ActionQueue: the rate-limited, authority-gated effect channel *)

(** The three shapes of [args] the plugin hands to [context.executeAction]. *)
Inductive ActionArgs : Type :=
| StaffHireArgs (autoPosition : bool) (staffType entertainerType staffOrders : Z)
| PatrolAreaArgs (id x1 y1 x2 y2 mode : Z)
| SetOrdersArgs (id : option Z) (staffOrders : Z).

(** The closures the plugin registers as result callbacks. *)
Inductive Callback : Type :=
| OnStaffHired
| OnPatrolAreaSet
| OnOrdersChanged.

Record PendingAction : Type := {
  action : string;
  args : ActionArgs;
  callback : option Callback
}.

(** What one [context.executeAction] call did: [Some error] when the
    gateway invoked the callback with [result.error = error], [None] when
    it threw (the [catch] swallows it) or never called back. *)
Definition Outcome : Type := option Z.

Module ActionQueue.

Record t : Type := {
  queue : list PendingAction;
  maxPerTick : nat
}.

Definition initial : t := {| queue := []; maxPerTick := 3 |}.

Definition add (aq : t) (actionName : string) (a : ActionArgs) (cb : option Callback) : t :=
  {| queue := queue aq ++ [{| action := actionName; args := a; callback := cb |}];
     maxPerTick := maxPerTick aq |}.

Section Gateway.

(** The game behind [context.executeAction]. *)
Variable Game : Type.
Variable executeAction : string -> ActionArgs -> Game -> Game * Outcome.

(** [while (this.queue.length > 0 && processed < this.maxPerTick)]: returns
    what is left of the queue, the game, and the dispatches made, in order. *)
Fixpoint drain (limit processed : nat) (q : list PendingAction) (g : Game)
    : list PendingAction * Game * list (PendingAction * Outcome) :=
  match q with
  | [] => ([], g, [])
  | item :: rest =>
      if (processed <? limit)%nat then
        let '(g1, outcome) := executeAction (action item) (args item) g in
        let '(q', g', dispatched) := drain limit (S processed) rest g1 in
        (q', g', (item, outcome) :: dispatched)
      else (q, g, [])
  end.

Definition process (h : Host) (aq : t) (g : Game)
    : t * Game * list (PendingAction * Outcome) :=
  if negb (NetworkHelper.canModifyGameState h) then
    ({| queue := []; maxPerTick := maxPerTick aq |}, g, [])
  else
    let '(q', g', dispatched) := drain (maxPerTick aq) 0 (queue aq) g in
    ({| queue := q'; maxPerTick := maxPerTick aq |}, g', dispatched).

End Gateway.
End ActionQueue.

(** ** ActionQueue (v2.2): the same queue with a re-entrancy flag *)

Module ActionQueueV2.

Record t : Type := {
  queue : list PendingAction;
  processing : bool;
  maxPerTick : nat
}.

Definition initial : t := {| queue := []; processing := false; maxPerTick := 3 |}.

Definition add (aq : t) (actionName : string) (a : ActionArgs) (cb : option Callback) : t :=
  {| queue := queue aq ++ [{| action := actionName; args := a; callback := cb |}];
     processing := processing aq;
     maxPerTick := maxPerTick aq |}.

Section Gateway.
Variable Game : Type.
Variable executeAction : string -> ActionArgs -> Game -> Game * Outcome.

Definition process (h : Host) (aq : t) (g : Game)
    : t * Game * list (PendingAction * Outcome) :=
  if processing aq || (length (queue aq) =? 0)%nat then (aq, g, [])
  else if negb (NetworkHelper.canModifyGameState h) then
    (* Clear queue on clients *)
    ({| queue := []; processing := processing aq; maxPerTick := maxPerTick aq |}, g, [])
  else
    let '(q', g', dispatched) :=
      ActionQueue.drain Game executeAction (maxPerTick aq) 0 (queue aq) g in
    ({| queue := q'; processing := false; maxPerTick := maxPerTick aq |}, g', dispatched).

End Gateway.
End ActionQueueV2.

(** ** StaffManager (v3.0): roster, hiring policy, patrol areas *)

Module StaffManager.

Record SmartHires : Type := {
  sh_handymen : Z;
  sh_mechanics : Z;
  sh_security : Z;
  sh_entertainers : Z
}.

Record Statistics : Type := {
  totalStaff : Z;
  handymenCount : Z;
  mechanicsCount : Z;
  securityCount : Z;
  entertainersCount : Z;
  staffHired : Z;
  ordersChanged : Z;
  patrolZonesSet : Z;
  patrolZonesFailed : Z;
  dispatchesMade : Z;
  lastFrameTime : Q;
  avgFrameTime : Q;
  autoReanalyzeCount : Z;
  autoGenZonesCount : Z;
  crimeDetected : Z;
  disgustComplaints : Z;
  newRidesDetected : Z;
  smartHires : SmartHires
}.

(** The manager's state, less the [last...] tick stamps that only the
    interval checks of [onTick] read. *)
Record t : Type := {
  allStaff : list StaffMember;
  handymen : list StaffMember;
  mechanics : list StaffMember;
  security : list StaffMember;
  entertainers : list StaffMember;
  tickCounter : Z;
  zonesNeedRegeneration : bool;
  lastStaffCount : nat;
  statistics : Statistics
}.

(** The four counters the result callbacks bump; every other field of
    [Statistics] is carried over. *)
Definition with_counters (s : Statistics) (hired orders zonesSet zonesFailed : Z)
    : Statistics := {|
  totalStaff := totalStaff s;
  handymenCount := handymenCount s;
  mechanicsCount := mechanicsCount s;
  securityCount := securityCount s;
  entertainersCount := entertainersCount s;
  staffHired := hired;
  ordersChanged := orders;
  patrolZonesSet := zonesSet;
  patrolZonesFailed := zonesFailed;
  dispatchesMade := dispatchesMade s;
  lastFrameTime := lastFrameTime s;
  avgFrameTime := avgFrameTime s;
  autoReanalyzeCount := autoReanalyzeCount s;
  autoGenZonesCount := autoGenZonesCount s;
  crimeDetected := crimeDetected s;
  disgustComplaints := disgustComplaints s;
  newRidesDetected := newRidesDetected s;
  smartHires := smartHires s
|}.

Definition with_statistics (sm : t) (regen : bool) (s : Statistics) : t := {|
  allStaff := allStaff sm;
  handymen := handymen sm;
  mechanics := mechanics sm;
  security := security sm;
  entertainers := entertainers sm;
  tickCounter := tickCounter sm;
  zonesNeedRegeneration := regen;
  lastStaffCount := lastStaffCount sm;
  statistics := s
|}.

(** The body of a result callback, run with [result.error = error]. *)
Definition runCallback (sm : t) (cb : Callback) (error : Z) : t :=
  let s := statistics sm in
  match cb with
  | OnStaffHired =>
      if error =? 0 then
        with_statistics sm true
          (with_counters s (staffHired s + 1) (ordersChanged s)
             (patrolZonesSet s) (patrolZonesFailed s))
      else sm
  | OnPatrolAreaSet =>
      if error =? 0 then
        with_statistics sm (zonesNeedRegeneration sm)
          (with_counters s (staffHired s) (ordersChanged s)
             (patrolZonesSet s + 1) (patrolZonesFailed s))
      else
        with_statistics sm (zonesNeedRegeneration sm)
          (with_counters s (staffHired s) (ordersChanged s)
             (patrolZonesSet s) (patrolZonesFailed s + 1))
  | OnOrdersChanged =>
      if error =? 0 then
        with_statistics sm (zonesNeedRegeneration sm)
          (with_counters s (staffHired s) (ordersChanged s + 1)
             (patrolZonesSet s) (patrolZonesFailed s))
      else sm
  end.

(** [try { return date.ticksElapsed || 0; } catch (e) { return this.tickCounter; }] *)
Definition getGameTick (h : Host) (sm : t) : Z :=
  match date_ticksElapsed h with
  | Some tick => or_zero (Some tick)
  | None => tickCounter sm
  end.

Definition ofType (ty : string) (staff : list StaffMember) : list StaffMember :=
  List.filter (fun member => String.eqb (staff_type member) ty) staff.

Definition present (staff : list (option StaffMember)) : list StaffMember :=
  flat_map (fun member : option StaffMember =>
              match member with Some m => [m] | None => [] end) staff.

Definition updateStaffLists (h : Host) (sm : t) : t :=
  match map_staff h with
  | None => {|
      allStaff := []; handymen := []; mechanics := []; security := []; entertainers := [];
      tickCounter := tickCounter sm;
      zonesNeedRegeneration := zonesNeedRegeneration sm;
      lastStaffCount := lastStaffCount sm;
      statistics := statistics sm |}
  | Some staff =>
      let all := present staff in
      let s := statistics sm in
      let changed := negb (length all =? lastStaffCount sm)%nat in
      {| allStaff := all;
         handymen := ofType "handyman" all;
         mechanics := ofType "mechanic" all;
         security := ofType "security" all;
         entertainers := ofType "entertainer" all;
         tickCounter := tickCounter sm;
         zonesNeedRegeneration := (if changed then true else zonesNeedRegeneration sm);
         lastStaffCount := (if changed then length all else lastStaffCount sm);
         statistics := {|
           totalStaff := Z.of_nat (length all);
           handymenCount := Z.of_nat (length (ofType "handyman" all));
           mechanicsCount := Z.of_nat (length (ofType "mechanic" all));
           securityCount := Z.of_nat (length (ofType "security" all));
           entertainersCount := Z.of_nat (length (ofType "entertainer" all));
           staffHired := staffHired s;
           ordersChanged := ordersChanged s;
           patrolZonesSet := patrolZonesSet s;
           patrolZonesFailed := patrolZonesFailed s;
           dispatchesMade := dispatchesMade s;
           lastFrameTime := lastFrameTime s;
           avgFrameTime := avgFrameTime s;
           autoReanalyzeCount := autoReanalyzeCount s;
           autoGenZonesCount := autoGenZonesCount s;
           crimeDetected := crimeDetected s;
           disgustComplaints := disgustComplaints s;
           newRidesDetected := newRidesDetected s;
           smartHires := smartHires s |} |}
  end.

(** The hire target of the ratio-based trigger, as [checkAutoHire] writes
    it for each role:
    [Math.max(min, Math.min(max, Math.ceil(metric * ratio)))]. *)
Definition hireTarget (minCount maxCount : Z) (metric : Z) (ratio : Q) : Z :=
  Z.max minCount (Z.min maxCount (Math_ceil (inject_Z metric * ratio)%Q)).

(** The configured minimum, maximum and ratio of a role, by the name
    [hireStaff] knows it under. *)
Definition roleMin (cfg : Config) (staffType : string) : Z :=
  if String.eqb staffType "handyman" then handymanMinCount cfg
  else if String.eqb staffType "mechanic" then mechanicMinCount cfg
  else if String.eqb staffType "security" then securityMinCount cfg
  else entertainerMinCount cfg.

Definition roleMax (cfg : Config) (staffType : string) : Z :=
  if String.eqb staffType "handyman" then handymanMaxCount cfg
  else if String.eqb staffType "mechanic" then mechanicMaxCount cfg
  else if String.eqb staffType "security" then securityMaxCount cfg
  else entertainerMaxCount cfg.

Definition roleRatio (cfg : Config) (staffType : string) : Q :=
  if String.eqb staffType "handyman" then handymanTargetRatio cfg
  else if String.eqb staffType "mechanic" then mechanicTargetRatio cfg
  else if String.eqb staffType "security" then securityTargetRatio cfg
  else entertainerTargetRatio cfg.

Definition roleAutoHire (cfg : Config) (staffType : string) : bool :=
  if String.eqb staffType "handyman" then handymanAutoHire cfg
  else if String.eqb staffType "mechanic" then mechanicAutoHire cfg
  else if String.eqb staffType "security" then securityAutoHire cfg
  else entertainerAutoHire cfg.

Definition roleTarget (cfg : Config) (staffType : string) (metric : Z) : Z :=
  hireTarget (roleMin cfg staffType) (roleMax cfg staffType) metric (roleRatio cfg staffType).

Definition roster (sm : t) (staffType : string) : list StaffMember :=
  if String.eqb staffType "handyman" then handymen sm
  else if String.eqb staffType "mechanic" then mechanics sm
  else if String.eqb staffType "security" then security sm
  else entertainers sm.

Definition handymanOrders (cfg : Config) : Z :=
  let o0 := 0 in
  let o1 := if handymanSweepEnabled cfg then Z.lor o0 HANDYMAN_ORDERS.SWEEPING else o0 in
  let o2 := if handymanWaterEnabled cfg then Z.lor o1 HANDYMAN_ORDERS.WATERING else o1 in
  let o3 := if handymanEmptyBinsEnabled cfg then Z.lor o2 HANDYMAN_ORDERS.EMPTY_BINS else o2 in
  if handymanMowEnabled cfg then Z.lor o3 HANDYMAN_ORDERS.MOWING else o3.

Section WithSin.
Variable Math_sin : Q -> Q.

Definition hireStaff (cfg : Config) (h : Host) (sm : t) (aq : ActionQueue.t)
    (staffType : string) : ActionQueue.t :=
  if negb (NetworkHelper.canModifyGameState h) then aq
  else
    let staffTypeNum :=
      if String.eqb staffType "handyman" then 0
      else if String.eqb staffType "mechanic" then 1
      else if String.eqb staffType "security" then 2
      else if String.eqb staffType "entertainer" then 3
      else 0 in
    let orders :=
      if String.eqb staffType "handyman" then handymanOrders cfg
      else if String.eqb staffType "mechanic"
           then Z.lor MECHANIC_ORDERS.INSPECT MECHANIC_ORDERS.FIX
      else 0 in
    let entertainerType :=
      if String.eqb staffType "entertainer"
      then DeterministicRandom.randomInt Math_sin h 0 6 (Some (getGameTick h sm))
      else 0 in
    ActionQueue.add aq "staffhire"
      (StaffHireArgs true staffTypeNum entertainerType orders) (Some OnStaffHired).

(** One role's branch of [checkAutoHire]: request one hire when the role
    is below its target. *)
Definition autoHireRole (cfg : Config) (h : Host) (sm : t) (metric : Z)
    (aq : ActionQueue.t) (staffType : string) : ActionQueue.t :=
  if roleAutoHire cfg staffType then
    if Z.of_nat (length (roster sm staffType)) <? roleTarget cfg staffType metric
    then hireStaff cfg h sm aq staffType
    else aq
  else aq.

Definition checkAutoHire (cfg : Config) (h : Host) (pa : ParkAnalyzer.t) (sm : t)
    (aq : ActionQueue.t) : ActionQueue.t :=
  if negb (autoHireEnabled cfg) then aq
  else if negb (NetworkHelper.canModifyGameState h) then aq
  else
    let guestCount : option Z :=
      if 0 <? totalStaff (statistics sm)
      then Some (Z.of_nat (ParkAnalyzer.totalGuests pa))
      else option_map (fun guests : list (option Guest) => Z.of_nat (length guests))
             (map_guests h) in
    match guestCount with
    | None => aq                      (* the guest query threw: caught, nothing hired *)
    | Some guests =>
        let aq1 := autoHireRole cfg h sm guests aq "handyman" in
        let aq2 := autoHireRole cfg h sm (Z.of_nat (ParkAnalyzer.totalRides pa)) aq1 "mechanic" in
        let aq3 := autoHireRole cfg h sm guests aq2 "security" in
        autoHireRole cfg h sm guests aq3 "entertainer"
    end.

(** *** Smart hiring *)

(** The singletons [checkSmartHiring] reads and writes. *)
Record Plugin : Type := {
  manager : t;
  rideTracker : RideTracker.t;
  crimeDetector : CrimeDetector.t;
  feedback : GuestFeedbackAnalyzer.t;
  actions : ActionQueue.t
}.

(** The statistics [checkSmartHiring] writes; every other field is carried
    over. *)
Definition with_smart (s : Statistics) (crime disgust newRides : Z) (hires : SmartHires)
    : Statistics := {|
  totalStaff := totalStaff s;
  handymenCount := handymenCount s;
  mechanicsCount := mechanicsCount s;
  securityCount := securityCount s;
  entertainersCount := entertainersCount s;
  staffHired := staffHired s;
  ordersChanged := ordersChanged s;
  patrolZonesSet := patrolZonesSet s;
  patrolZonesFailed := patrolZonesFailed s;
  dispatchesMade := dispatchesMade s;
  lastFrameTime := lastFrameTime s;
  avgFrameTime := avgFrameTime s;
  autoReanalyzeCount := autoReanalyzeCount s;
  autoGenZonesCount := autoGenZonesCount s;
  crimeDetected := crime;
  disgustComplaints := disgust;
  newRidesDetected := newRides;
  smartHires := hires
|}.

(** [this.statistics.smartHires.<role>s++] *)
Definition bumpSmart (hires : SmartHires) (staffType : string) : SmartHires :=
  if String.eqb staffType "handyman" then
    {| sh_handymen := sh_handymen hires + 1; sh_mechanics := sh_mechanics hires;
       sh_security := sh_security hires; sh_entertainers := sh_entertainers hires |}
  else if String.eqb staffType "mechanic" then
    {| sh_handymen := sh_handymen hires; sh_mechanics := sh_mechanics hires + 1;
       sh_security := sh_security hires; sh_entertainers := sh_entertainers hires |}
  else if String.eqb staffType "security" then
    {| sh_handymen := sh_handymen hires; sh_mechanics := sh_mechanics hires;
       sh_security := sh_security hires + 1; sh_entertainers := sh_entertainers hires |}
  else
    {| sh_handymen := sh_handymen hires; sh_mechanics := sh_mechanics hires;
       sh_security := sh_security hires; sh_entertainers := sh_entertainers hires + 1 |}.

(** [this.hireStaff(role); this.statistics.smartHires.<role>s++;] *)
Definition smartHire (cfg : Config) (h : Host) (acc : t * ActionQueue.t) (staffType : string)
    : t * ActionQueue.t :=
  let sm := fst acc in
  let s := statistics sm in
  (with_statistics sm (zonesNeedRegeneration sm)
     (with_smart s (crimeDetected s) (disgustComplaints s) (newRidesDetected s)
        (bumpSmart (smartHires s) staffType)),
   hireStaff cfg h sm (snd acc) staffType).

(** [if (CONFIG.<role>AutoHire && needed) { if (roster.length < max) { hire } }];
    in the loop over new rides the two tests are one condition and
    [needed] is [true]. *)
Definition smartHireIf (cfg : Config) (h : Host) (needed : bool) (acc : t * ActionQueue.t)
    (staffType : string) : t * ActionQueue.t :=
  if roleAutoHire cfg staffType && needed then
    if Z.of_nat (length (roster (fst acc) staffType)) <? roleMax cfg staffType
    then smartHire cfg h acc staffType
    else acc
  else acc.

(** One turn of the loop over the new rides. *)
Definition hireForNewRide (cfg : Config) (h : Host) (acc : t * ActionQueue.t) (rideId : Z)
    : t * ActionQueue.t :=
  let sm := fst acc in
  let s := statistics sm in
  let counted :=
    with_statistics sm (zonesNeedRegeneration sm)
      (with_smart s (crimeDetected s) (disgustComplaints s) (newRidesDetected s + 1)
         (smartHires s)) in
  smartHireIf cfg h true (counted, snd acc) "mechanic".

(** [checkSmartHiring()].  [smartHiringEnabled] and [mechanicPerNewRide]
    are the two [CONFIG] flags only this method reads; [rides] is
    [map.rides] as the ride tracker reads it. *)
Definition checkSmartHiring (smartHiringEnabled mechanicPerNewRide : bool) (cfg : Config)
    (h : Host) (rides : option (list (option RideTracker.RideInfo))) (pa : ParkAnalyzer.t)
    (p : Plugin) : Plugin :=
  if negb smartHiringEnabled || negb (autoHireEnabled cfg) then p
  else if negb (NetworkHelper.canModifyGameState h) then p
  else
    (* 1. Check for new rides -> hire mechanics *)
    let checked :=
      if mechanicPerNewRide
      then RideTracker.checkForNewRides (RideTracker.hostTile h) (RideTracker.getGameTick h)
             rides (rideTracker p)
      else (rideTracker p, false) in
    let rt1 := if snd checked then fst (RideTracker.getNewRides (fst checked)) else fst checked in
    let acc1 :=
      if snd checked then
        let acc := fold_left (hireForNewRide cfg h)
                     (snd (RideTracker.getNewRides (fst checked))) (manager p, actions p) in
        (with_statistics (fst acc) true (statistics (fst acc)), snd acc)
      else (manager p, actions p) in
    (* 2. Check crime level -> hire security *)
    let cd2 := CrimeDetector.update h pa (crimeDetector p) in
    let s1 := statistics (fst acc1) in
    let sm2 :=
      with_statistics (fst acc1) (zonesNeedRegeneration (fst acc1))
        (with_smart s1 (CrimeDetector.getCrimeLevel cd2) (disgustComplaints s1)
           (newRidesDetected s1) (smartHires s1)) in
    let acc2 :=
      smartHireIf cfg h (CrimeDetector.needsMoreSecurity cfg cd2) (sm2, snd acc1) "security" in
    (* 3. Check guest disgust/litter feedback -> hire handymen *)
    let gfa3 := GuestFeedbackAnalyzer.update h (feedback p) in
    let s2 := statistics (fst acc2) in
    let sm3 :=
      with_statistics (fst acc2) (zonesNeedRegeneration (fst acc2))
        (with_smart s2 (crimeDetected s2) (GuestFeedbackAnalyzer.disgustCount gfa3)
           (newRidesDetected s2) (smartHires s2)) in
    let acc3 :=
      smartHireIf cfg h (GuestFeedbackAnalyzer.needsMoreHandymen cfg pa gfa3)
        (sm3, snd acc2) "handyman" in
    (* 4. Check happiness -> hire entertainers *)
    let acc4 :=
      smartHireIf cfg h (GuestFeedbackAnalyzer.needsMoreEntertainers cfg gfa3) acc3
        "entertainer" in
    {| manager := fst acc4;
       rideTracker := rt1;
       crimeDetector := cd2;
       feedback := gfa3;
       actions := snd acc4 |}.

End WithSin.

(** [setStaffPatrolArea(staffId, x1, y1, x2, y2, mode)].  [staffId] is
    [Some] iff [typeof staffId === 'number']. *)
Definition setStaffPatrolArea (h : Host) (aq : ActionQueue.t) (staffId : option Z)
    (x1 y1 x2 y2 : Q) (mode : Z) : ActionQueue.t :=
  if negb (NetworkHelper.canModifyGameState h) then aq
  else
    match staffId with
    | None => aq
    | Some id =>
        if id <? 0 then aq
        else
          let mapWidth := Z.of_nat (fst (mapDims h)) in
          let mapHeight := Z.of_nat (snd (mapDims h)) in
          let x1' := Z.max 0 (Z.min (Math_floor x1) (mapWidth - 1)) in
          let y1' := Z.max 0 (Z.min (Math_floor y1) (mapHeight - 1)) in
          let x2' := Z.max x1' (Z.min (Math_floor x2) (mapWidth - 1)) in
          let y2' := Z.max y1' (Z.min (Math_floor y2) (mapHeight - 1)) in
          ActionQueue.add aq "staffsetpatrolarea"
            (PatrolAreaArgs id (x1' * 32) (y1' * 32) (x2' * 32) (y2' * 32) mode)
            (Some OnPatrolAreaSet)
    end.

(** [setStaffOrders(staffId, orders)] (v2.2). *)
Definition setStaffOrders (h : Host) (aq : ActionQueue.t) (staffId : option Z) (orders : Z)
    : ActionQueue.t :=
  if negb (NetworkHelper.canModifyGameState h) then aq
  else ActionQueue.add aq "staffsetorders" (SetOrdersArgs staffId orders)
         (Some OnOrdersChanged).

(** [processHandymen] (v3.0): refresh the litter index, then queue an
    order change for every handyman whose orders differ from the
    configured ones.  [handymanEnabled] is [CONFIG.handymanEnabled]. *)
Definition processHandymen (cfg : Config) (handymanEnabled : bool)
    (litter : option (list (option (Z * Z)))) (pa : ParkAnalyzer.t) (sm : t)
    (aq : ActionQueue.t) : ParkAnalyzer.t * ActionQueue.t :=
  if negb handymanEnabled || (length (handymen sm) =? 0)%nat then (pa, aq)
  else
    (ParkAnalyzer.updateLitterAndVandalism litter pa,
     fold_left (fun q handyman =>
                  if staff_orders handyman =? handymanOrders cfg then q
                  else ActionQueue.add q "staffsetorders"
                         (SetOrdersArgs (staff_id handyman) (handymanOrders cfg))
                         (Some OnOrdersChanged))
       (handymen sm) aq).

(** [Math.ceil(a / b)] for whole numbers [a] and [b]. *)
Definition ceilDiv (a b : Z) : Z := Math_ceil (inject_Z a / inject_Z b)%Q.

(** The loop of [generateHandymanPatrolZones], from index [i] on.  A
    handyman whose id is not a number is skipped but still counted. *)
Fixpoint assignGridZones (h : Host) (zoneSize overlap zonesX totalZones : Z)
    (i : Z) (staff : list StaffMember) (aq : ActionQueue.t) : ActionQueue.t :=
  match staff with
  | [] => aq
  | handyman :: rest =>
      let aq' :=
        match staff_id handyman with
        | None => aq
        | Some id =>
            let mapWidth := Z.of_nat (fst (mapDims h)) in
            let mapHeight := Z.of_nat (snd (mapDims h)) in
            let zoneIndex := i mod totalZones in
            let zx := zoneIndex mod zonesX in
            let zy := zoneIndex / zonesX in
            setStaffPatrolArea h aq (Some id)
              (inject_Z (zx * zoneSize)) (inject_Z (zy * zoneSize))
              (inject_Z (Z.min ((zx + 1) * zoneSize + overlap) (mapWidth - 1)))
              (inject_Z (Z.min ((zy + 1) * zoneSize + overlap) (mapHeight - 1))) 0
        end in
      assignGridZones h zoneSize overlap zonesX totalZones (i + 1) rest aq'
  end.

(** [generateHandymanPatrolZones].  The model follows JavaScript for a
    positive [CONFIG.patrolZoneSize]; with 0 JavaScript divides by zero
    and goes on with [Infinity] and [NaN]. *)
Definition generateHandymanPatrolZones (cfg : Config) (h : Host) (sm : t)
    (aq : ActionQueue.t) : ActionQueue.t :=
  if (length (handymen sm) =? 0)%nat then aq
  else
    let mapWidth := Z.of_nat (fst (mapDims h)) in
    let mapHeight := Z.of_nat (snd (mapDims h)) in
    let zoneSize := patrolZoneSize cfg in
    let zonesX := ceilDiv mapWidth zoneSize in
    let totalZones := zonesX * ceilDiv mapHeight zoneSize in
    assignGridZones h zoneSize (patrolZoneOverlap cfg) zonesX totalZones 0 (handymen sm) aq.

End StaffManager.

(** ** StaffManager (v2.2): the statistics reset *)

Module StaffManagerV2.

Record Statistics : Type := {
  totalStaff : Z;
  handymenCount : Z;
  mechanicsCount : Z;
  securityCount : Z;
  entertainersCount : Z;
  staffHired : Z;
  staffFired : Z;
  ordersChanged : Z;
  patrolZonesSet : Z;
  patrolZonesFailed : Z;
  dispatchesMade : Z;
  litterCleaned : Z;
  ridesFixed : Z;
  ridesInspected : Z;
  vandalsStopped : Z;
  lastFrameTime : Q;
  avgFrameTime : Q;
  autoReanalyzeCount : Z;
  autoGenZonesCount : Z
}.

Definition resetStatistics (statistics : Statistics) : Statistics :=
  let preserved_autoReanalyzeCount := autoReanalyzeCount statistics in
  let preserved_autoGenZonesCount := autoGenZonesCount statistics in
  {| totalStaff := 0;
     handymenCount := 0;
     mechanicsCount := 0;
     securityCount := 0;
     entertainersCount := 0;
     staffHired := 0;
     staffFired := 0;
     ordersChanged := 0;
     patrolZonesSet := 0;
     patrolZonesFailed := 0;
     dispatchesMade := 0;
     litterCleaned := 0;
     ridesFixed := 0;
     ridesInspected := 0;
     vandalsStopped := 0;
     lastFrameTime := 0%Q;
     avgFrameTime := 0%Q;
     autoReanalyzeCount := preserved_autoReanalyzeCount;
     autoGenZonesCount := preserved_autoGenZonesCount |}.

End StaffManagerV2.

(** * Auxiliary definitions and scenarios *)

(** The part of the analyzer the scan loop's control flow depends on. *)
Definition control (pa : ParkAnalyzer.t) : nat * nat * bool * list nat :=
  (ParkAnalyzer.analysisProgress pa, ParkAnalyzer.analysisTotal pa,
   ParkAnalyzer.isAnalyzed pa, ParkAnalyzer.visited pa).

(** The coverage box as the specification words it: the bounding box of
    the recorded points, padded by the margin 3 and clamped to the world
    [[0, W-1] x [0, H-1]]; the sentinel box when there are no points. *)
Definition specCoverage (W H : Z) (points : list (Z * Z)) : RideTracker.Coverage :=
  match points with
  | [] => RideTracker.emptyCoverage
  | p :: ps =>
      let lox := fold_left Z.min (map fst ps) (fst p) in
      let loy := fold_left Z.min (map snd ps) (snd p) in
      let hix := fold_left Z.max (map fst ps) (fst p) in
      let hiy := fold_left Z.max (map snd ps) (snd p) in
      {| RideTracker.minX := Fin (Z.max 0 (lox - 3));
         RideTracker.minY := Fin (Z.max 0 (loy - 3));
         RideTracker.maxX := Fin (Z.min (W - 1) (hix + 3));
         RideTracker.maxY := Fin (Z.min (H - 1) (hiy + 3)) |}
  end.

(** A tracker that knows one ride, number 1, whose entrance is the far
    corner tile of a 128 by 128 world and whose exit is next to it. *)
Definition cornerRideTracker : RideTracker.t := {|
  RideTracker.knownRides :=
    {[ 1 := {| RideTracker.kr_id := 1; RideTracker.kr_name := "Corner Ride";
               RideTracker.kr_type := 0; RideTracker.kr_trackedAt := 0 |} ]};
  RideTracker.rideEntrances := {[ 1 := [(127, 127, 0)] ]};
  RideTracker.rideExits := {[ 1 := [(125, 126, 0)] ]};
  RideTracker.ridePaths := {[ 1 := [] ]};
  RideTracker.newRidesDetected := [];
  RideTracker.lastRideCount := 1
|}.

(** A guest list from which [GuestFeedbackAnalyzer.update] learns no
    happiness: every entry is null or has no numeric [happiness]. *)
Definition noHappiness (guests : list (option Guest)) : bool :=
  forallb (fun guest : option Guest =>
             match guest with
             | Some g => match guest_happiness g with Some _ => false | None => true end
             | None => true
             end) guests.

(** A host whose guest query throws or yields such a list. *)
Definition noHappinessData (h : Host) : bool :=
  match map_guests h with
  | Some guests => noHappiness guests
  | None => true
  end.

Definition withVandalismCount (cd : CrimeDetector.t) (count : Z) : CrimeDetector.t := {|
  CrimeDetector.vandalismCount := count;
  CrimeDetector.recentCrimes := CrimeDetector.recentCrimes cd;
  CrimeDetector.crimeHotspots := CrimeDetector.crimeHotspots cd;
  CrimeDetector.lastCheck := CrimeDetector.lastCheck cd
|}.

Definition withHappinessPercent (gfa : GuestFeedbackAnalyzer.t) (percent : Z)
    : GuestFeedbackAnalyzer.t := {|
  GuestFeedbackAnalyzer.disgustCount := GuestFeedbackAnalyzer.disgustCount gfa;
  GuestFeedbackAnalyzer.litterComplaints := GuestFeedbackAnalyzer.litterComplaints gfa;
  GuestFeedbackAnalyzer.averageHappiness := GuestFeedbackAnalyzer.averageHappiness gfa;
  GuestFeedbackAnalyzer.happinessPercent := percent;
  GuestFeedbackAnalyzer.unhappyGuestCount := GuestFeedbackAnalyzer.unhappyGuestCount gfa;
  GuestFeedbackAnalyzer.totalGuests := GuestFeedbackAnalyzer.totalGuests gfa;
  GuestFeedbackAnalyzer.feedbackSummary := GuestFeedbackAnalyzer.feedbackSummary gfa
|}.

(** A small park for concrete runs: single player, tick 4200, 3 by 2
    tiles.  Tile (0,0) holds the park entrance; (1,0) a queue path; (2,0) a
    broken path; (0,1) and (1,1) track of ride 7; (2,1) cannot be read. *)
Definition parkTile (x y : nat) : option (list (option Element)) :=
  match x, y with
  | 0%nat, 0%nat => Some [Some EntranceElement]
  | 1%nat, 0%nat => Some [Some (Footpath true false false)]
  | 2%nat, 0%nat => Some [Some OtherElement; Some (Footpath false true false)]
  | 0%nat, 1%nat => Some [Some (Track (Some 7))]
  | 1%nat, 1%nat => Some [None; Some (Track (Some 7)); Some (Track None)]
  | _, _ => None
  end.

Definition guestOf (happiness : option Z) : Guest :=
  {| guest_happiness := happiness; guest_nausea := Some 10; guest_thoughts := [] |}.

Definition smallPark (guests : option (list (option Guest))) : Host := {|
  date_ticksElapsed := Some 4200;
  network_mode := Some "none"%string;
  map_size := Some (3%nat, 2%nat);
  map_getTile := parkTile;
  map_rides := Some [Some {| ride_id := 7; ride_classification := "ride" |};
                     Some {| ride_id := 8; ride_classification := "stall" |}];
  map_guests := guests;
  map_staff := Some []
|}.

(** The same park as a multiplayer client sees it, a few guests in. *)
Definition smallParkClient : Host := {|
  date_ticksElapsed := Some 4200;
  network_mode := Some "client"%string;
  map_size := Some (3%nat, 2%nat);
  map_getTile := parkTile;
  map_rides := None;
  map_guests := Some [Some (guestOf (Some 200))];
  map_staff := None
|}.

(** A stand-in for the engine's [Math.sin], for concrete runs only: a
    rational function with values in [[-1, 1]]. *)
Definition sinStandIn (x : Q) : Q := ((2 * x) / (1 + x * x))%Q.

(** The shape [add] keeps: bucket keys are pairwise different, no bucket
    is empty, and every entry sits in the bucket of its own cell. *)
Definition wellFormed {A : Type} (sh : SpatialHash.t A) : Prop :=
  NoDup (map fst (SpatialHash.cells sh))
  /\ forall k es, In (k, es) (SpatialHash.cells sh) ->
       es <> [] /\ forall e, In e es -> SpatialHash.getKey sh (fst (fst e)) (snd (fst e)) = k.

(** Tests on tile elements, and whether a tile of the host holds an
    element that passes one. *)
Definition isFootpath (e : Element) : bool :=
  match e with Footpath _ _ _ => true | _ => false end.

Definition isQueuePath (e : Element) : bool :=
  match e with Footpath isQueue _ _ => isQueue | _ => false end.

Definition isEntrance (e : Element) : bool :=
  match e with EntranceElement => true | _ => false end.

Definition isTrackOf (rideId : Z) (e : Element) : bool :=
  match e with Track (Some r) => r =? rideId | _ => false end.

Definition holds (test : Element -> bool) (element : option Element) : bool :=
  match element with Some e => test e | None => false end.

Definition tileHas (h : Host) (test : Element -> bool) (x y : nat) : bool :=
  match map_getTile h x y with
  | Some elements => existsb (holds test) elements
  | None => false
  end.

(** [n] successive calls of [ActionQueue.process], one per tick, with
    nothing added in between: the final queue and game, and everything
    dispatched, in order. *)
Fixpoint processTicks {Game : Type}
    (executeAction : string -> ActionArgs -> Game -> Game * Outcome)
    (h : Host) (n : nat) (aq : ActionQueue.t) (g : Game)
    : ActionQueue.t * Game * list (PendingAction * Outcome) :=
  match n with
  | O => (aq, g, [])
  | S n' =>
      let '(aq1, g1, d1) := ActionQueue.process Game executeAction h aq g in
      let '(aq2, g2, d2) := processTicks executeAction h n' aq1 g1 in
      (aq2, g2, d1 ++ d2)
  end.

(** A v3.0 queue seen as a v2.2 queue that is not being processed. *)
Definition asV2 (aq : ActionQueue.t) : ActionQueueV2.t := {|
  ActionQueueV2.queue := ActionQueue.queue aq;
  ActionQueueV2.processing := false;
  ActionQueueV2.maxPerTick := ActionQueue.maxPerTick aq
|}.

(** The gateway reporting back: the callback of a dispatched effect runs
    with the error code of its outcome; an effect without a callback, or
    whose dispatch threw, changes nothing. *)
Definition applyOutcome (sm : StaffManager.t) (d : PendingAction * Outcome) : StaffManager.t :=
  match callback (fst d), snd d with
  | Some cb, Some error => StaffManager.runCallback sm cb error
  | _, _ => sm
  end.

Definition applyOutcomes (sm : StaffManager.t) (ds : list (PendingAction * Outcome))
    : StaffManager.t :=
  fold_left applyOutcome ds sm.

(** How many of the dispatches called back [cb] with an error code that
    passes [test]. *)
Definition callbacksWith (cb : Callback) (test : Z -> bool)
    (ds : list (PendingAction * Outcome)) : Z :=
  Z.of_nat (length (List.filter
    (fun d : PendingAction * Outcome =>
       match callback (fst d), snd d with
       | Some cb', Some error =>
           match cb, cb' with
           | OnStaffHired, OnStaffHired
           | OnPatrolAreaSet, OnPatrolAreaSet
           | OnOrdersChanged, OnOrdersChanged => test error
           | _, _ => false
           end
       | _, _ => false
       end) ds)).

(** The roster and the statistics no callback touches. *)
Definition untouched (sm : StaffManager.t) :=
  let s := StaffManager.statistics sm in
  (StaffManager.allStaff sm, StaffManager.handymen sm, StaffManager.mechanics sm,
   StaffManager.security sm, StaffManager.entertainers sm,
   StaffManager.tickCounter sm, StaffManager.lastStaffCount sm,
   (StaffManager.totalStaff s, StaffManager.handymenCount s, StaffManager.mechanicsCount s,
    StaffManager.securityCount s, StaffManager.entertainersCount s,
    StaffManager.dispatchesMade s),
   (StaffManager.lastFrameTime s, StaffManager.avgFrameTime s,
    StaffManager.autoReanalyzeCount s, StaffManager.autoGenZonesCount s,
    StaffManager.crimeDetected s, StaffManager.disgustComplaints s,
    StaffManager.newRidesDetected s, StaffManager.smartHires s)).

(** The four roles, by the name and by the number [hireStaff] gives them. *)
Definition roles : list string :=
  ["handyman"; "mechanic"; "security"; "entertainer"]%string.

Definition staffTypeNumber (staffType : string) : Z :=
  if String.eqb staffType "handyman" then 0
  else if String.eqb staffType "mechanic" then 1
  else if String.eqb staffType "security" then 2
  else if String.eqb staffType "entertainer" then 3
  else 0.

Definition knownRole (member : StaffMember) : bool :=
  existsb (String.eqb (staff_type member)) roles.

(** The hire requests for staff type number [ty] among queued effects. *)
Definition isHireOf (ty : Z) (item : PendingAction) : bool :=
  String.eqb (action item) "staffhire"
  && match args item with
     | StaffHireArgs _ staffType _ _ => staffType =? ty
     | _ => false
     end.

Definition hiresOf (ty : Z) (items : list PendingAction) : nat :=
  length (List.filter (isHireOf ty) items).

(** [items] is one hire request for [staffType] if [cond] holds, and
    nothing otherwise. *)
Definition oneHireIf (cond : bool) (staffType : string) (items : list PendingAction) : Prop :=
  if cond then
    exists entertainerType orders : Z,
      items = [{| action := "staffhire";
                  args := StaffHireArgs true (staffTypeNumber staffType) entertainerType orders;
                  callback := Some OnStaffHired |}]
  else items = [].

(** The guest count [checkAutoHire] works with: the analyzer's figure once
    staff exist, else a fresh query, which may throw. *)
Definition autoHireGuestCount (h : Host) (pa : ParkAnalyzer.t) (sm : StaffManager.t)
    : option Z :=
  if 0 <? StaffManager.totalStaff (StaffManager.statistics sm)
  then Some (Z.of_nat (ParkAnalyzer.totalGuests pa))
  else option_map (fun guests : list (option Guest) => Z.of_nat (length guests))
         (map_guests h).

(** The driver metric of a role: discovered rides for mechanics, guests
    for the others. *)
Definition driverMetric (pa : ParkAnalyzer.t) (guests : Z) (staffType : string) : Z :=
  if String.eqb staffType "mechanic" then Z.of_nat (ParkAnalyzer.totalRides pa) else guests.

(** Whether [checkAutoHire] requests a hire for the role. *)
Definition autoHireDue (cfg : Config) (h : Host) (pa : ParkAnalyzer.t) (sm : StaffManager.t)
    (staffType : string) : bool :=
  match autoHireGuestCount h pa sm with
  | Some guests =>
      autoHireEnabled cfg && NetworkHelper.canModifyGameState h
      && StaffManager.roleAutoHire cfg staffType
      && (Z.of_nat (length (StaffManager.roster sm staffType))
          <? StaffManager.roleTarget cfg staffType (driverMetric pa guests staffType))
  | None => false
  end.

(** A footpath element [CrimeDetector.update] counts as vandalism. *)
Definition isVandalised (e : Element) : bool :=
  match e with Footpath _ isBroken isBlockedByVehicle => isBroken || isBlockedByVehicle
  | _ => false end.

(** How many elements of the host's tile at [tile] are vandalised. *)
Definition vandalisedAt (h : Host) (tile : nat * nat) : nat :=
  match map_getTile h (fst tile) (snd tile) with
  | Some elements => length (List.filter (holds isVandalised) elements)
  | None => 0%nat
  end.

(** The crime record and the hotspot entry [update] files for a tile. *)
Definition crimeAt (h : Host) (tile : nat * nat) : CrimeDetector.Crime :=
  {| CrimeDetector.crime_x := fst tile; CrimeDetector.crime_y := snd tile;
     CrimeDetector.crime_type := "vandalism";
     CrimeDetector.crime_tick := CrimeDetector.getGameTick h |}.

Definition hotspotEntry (tile : nat * nat) : Z * Z * string :=
  (Z.of_nat (fst tile), Z.of_nat (snd tile), "vandalism"%string).

(** Every numeric guest happiness is on the game's 0-255 scale. *)
Definition happinessInRange (guests : list (option Guest)) : bool :=
  forallb (fun guest : option Guest =>
             match guest with
             | Some g =>
                 match guest_happiness g with
                 | Some happiness => (0 <=? happiness) && (happiness <=? 255)
                 | None => true
                 end
             | None => true
             end) guests.

(** The entries of a list of possibly null entities that are not null. *)
Definition nonNull {A : Type} (items : list (option A)) : list A :=
  flat_map (fun item : option A => match item with Some a => [a] | None => [] end) items.

(** The order change [processHandymen] queues for a handyman. *)
Definition orderChange (cfg : Config) (handyman : StaffMember) : PendingAction :=
  {| action := "staffsetorders";
     args := SetOrdersArgs (staff_id handyman) (StaffManager.handymanOrders cfg);
     callback := Some OnOrdersChanged |}.

Definition hasConfiguredOrders (cfg : Config) (handyman : StaffMember) : bool :=
  staff_orders handyman =? StaffManager.handymanOrders cfg.

(** A staff id [setStaffPatrolArea] accepts: a number, not negative. *)
Definition validId (member : StaffMember) : bool :=
  match staff_id member with Some id => 0 <=? id | None => false end.

(** The effect [setStaffPatrolArea] queues for an accepted id: the
    requested rectangle, floored and clamped, in fine coordinates. *)
Definition patrolEffect (h : Host) (id : Z) (x1 y1 x2 y2 : Q) (mode : Z) : PendingAction :=
  let mapWidth := Z.of_nat (fst (mapDims h)) in
  let mapHeight := Z.of_nat (snd (mapDims h)) in
  let x1' := Z.max 0 (Z.min (Math_floor x1) (mapWidth - 1)) in
  let y1' := Z.max 0 (Z.min (Math_floor y1) (mapHeight - 1)) in
  let x2' := Z.max x1' (Z.min (Math_floor x2) (mapWidth - 1)) in
  let y2' := Z.max y1' (Z.min (Math_floor y2) (mapHeight - 1)) in
  {| action := "staffsetpatrolarea";
     args := PatrolAreaArgs id (x1' * 32) (y1' * 32) (x2' * 32) (y2' * 32) mode;
     callback := Some OnPatrolAreaSet |}.

(** The grid zone [generateHandymanPatrolZones] gives the handyman at
    position [i] of the roster. *)
Definition gridZoneEffect (cfg : Config) (h : Host) (i : Z) (id : Z) : PendingAction :=
  let mapWidth := Z.of_nat (fst (mapDims h)) in
  let mapHeight := Z.of_nat (snd (mapDims h)) in
  let zoneSize := patrolZoneSize cfg in
  let zonesX := StaffManager.ceilDiv mapWidth zoneSize in
  let totalZones := zonesX * StaffManager.ceilDiv mapHeight zoneSize in
  let zoneIndex := i mod totalZones in
  let zx := zoneIndex mod zonesX in
  let zy := zoneIndex / zonesX in
  patrolEffect h id
    (inject_Z (zx * zoneSize)) (inject_Z (zy * zoneSize))
    (inject_Z (Z.min ((zx + 1) * zoneSize + patrolZoneOverlap cfg) (mapWidth - 1)))
    (inject_Z (Z.min ((zy + 1) * zoneSize + patrolZoneOverlap cfg) (mapHeight - 1))) 0.

(** Vocabulary for the bounded search of [findConnectedPaths]. *)
Definition manhattan (a b : Z * Z) : Z :=
  Z.abs (fst a - fst b) + Z.abs (snd a - snd b).

Definition offsets : list Z := map (fun n => Z.of_nat n - 10) (seq 0 21).

(** The 221 steps of at most 10 moves in total. *)
Definition diamond : list (Z * Z) :=
  List.filter (fun o : Z * Z => Z.abs (fst o) + Z.abs (snd o) <=? 10)
    (list_prod offsets offsets).

Definition around (c : Z * Z) : list (Z * Z) :=
  map (fun o : Z * Z => (fst c + fst o, snd c + snd o)) diamond.

Definition cellOf (i : RideTracker.SearchItem) : Z * Z :=
  (RideTracker.si_x i, RideTracker.si_y i).

Definition itemAt (c : Z * Z) (depth : nat) : RideTracker.SearchItem :=
  {| RideTracker.si_x := fst c; RideTracker.si_y := snd c; RideTracker.si_depth := depth |}.

Definition pathPointAt (c : Z * Z) : RideTracker.PathPoint :=
  {| RideTracker.pp_x := fst c; RideTracker.pp_y := snd c; RideTracker.pp_type := "path" |}.

Definition pointCell (p : RideTracker.PathPoint) : Z * Z :=
  (RideTracker.pp_x p, RideTracker.pp_y p).

Definition footpathAt (getTile : Z -> Z -> option (list (option Element))) (c : Z * Z) : bool :=
  RideTracker.hasFootpath getTile (fst c) (snd c).

(** [steps] is a walk from [from], each move to a side-neighbour and each
    tile left behind a footpath tile. *)
Fixpoint footpathWalk (getTile : Z -> Z -> option (list (option Element)))
    (from : Z * Z) (steps : list (Z * Z)) : bool :=
  match steps with
  | [] => true
  | c :: rest =>
      footpathAt getTile from && (manhattan from c =? 1) && footpathWalk getTile c rest
  end.

(** Every visited key and every queued item lies within its depth of the
    start. *)
Definition searchBounded (c0 : Z * Z) (s : RideTracker.Search) : Prop :=
  (forall k, k ∈ RideTracker.visitedKeys s -> manhattan k c0 <= 10)
  /\ (forall i, In i (RideTracker.frontier s) ->
        manhattan (cellOf i) c0 <= Z.of_nat (RideTracker.si_depth i)).

(** What has been pushed since the start: path points of visited footpath
    tiles, each tile once, each reached by a walk over footpath tiles; a
    queued item is reached by such a walk of as many steps as its depth. *)
Definition searchSound (getTile : Z -> Z -> option (list (option Element)))
    (c0 : Z * Z) (paths : list RideTracker.PathPoint) (s : RideTracker.Search) : Prop :=
  (forall i, In i (RideTracker.frontier s) ->
     exists steps,
       footpathWalk getTile c0 steps = true
       /\ length steps = RideTracker.si_depth i
       /\ List.last steps c0 = cellOf i)
  /\ exists found,
    RideTracker.collected s = paths ++ found
    /\ NoDup (map pointCell found)
    /\ forall p, In p found ->
         RideTracker.pp_type p = "path"%string
         /\ footpathAt getTile (pointCell p) = true
         /\ pointCell p ∈ RideTracker.visitedKeys s
         /\ exists steps,
              footpathWalk getTile c0 steps = true
              /\ (length steps <= 10)%nat
              /\ List.last steps c0 = pointCell p.

(** The queue holds at most two depths, the lower first; [vd] is the
    depth at which each key was visited.  Neighbours of a visited footpath
    tile are visited no deeper than one more, or are still queued. *)
Definition searchLevels (getTile : Z -> Z -> option (list (option Element)))
    (c0 : Z * Z) (s : RideTracker.Search) : Prop :=
  exists (vd : Z * Z -> nat) (d : nat) (A B : list RideTracker.SearchItem),
    RideTracker.frontier s = A ++ B
    /\ Forall (fun i => RideTracker.si_depth i = d) A
    /\ Forall (fun i => RideTracker.si_depth i = S d) B
    /\ (forall c, c ∈ RideTracker.visitedKeys s -> (vd c <= d)%nat)
    /\ (forall c c', c ∈ RideTracker.visitedKeys s -> footpathAt getTile c = true ->
          (vd c < 10)%nat -> manhattan c c' = 1 ->
          (c' ∈ RideTracker.visitedKeys s /\ (vd c' <= S (vd c))%nat)
          \/ In (itemAt c' (S (vd c))) (RideTracker.frontier s))
    /\ ((c0 ∈ RideTracker.visitedKeys s /\ vd c0 = 0%nat)
        \/ In (itemAt c0 0) (RideTracker.frontier s))
    /\ (forall c, c ∈ RideTracker.visitedKeys s -> footpathAt getTile c = true ->
          In (pathPointAt c) (RideTracker.collected s)).

(** Calls on the tracker, each with the world it sees, and the ids handed
    out by [getNewRides] so far. *)
Inductive TrackerCall : Type :=
| CallScan (getTile : Z -> Z -> option (list (option Element))) (tick : Z)
    (rides : option (list (option RideTracker.RideInfo)))
| CallCheck (getTile : Z -> Z -> option (list (option Element))) (tick : Z)
    (rides : option (list (option RideTracker.RideInfo)))
| CallGetNew.

Definition trackerCall (st : RideTracker.t * list Z) (c : TrackerCall) : RideTracker.t * list Z :=
  match c with
  | CallScan getTile tick rides => (RideTracker.scanAllRides getTile tick rides (fst st), snd st)
  | CallCheck getTile tick rides =>
      (fst (RideTracker.checkForNewRides getTile tick rides (fst st)), snd st)
  | CallGetNew => (fst (RideTracker.getNewRides (fst st)), snd st ++ snd (RideTracker.getNewRides (fst st)))
  end.

(** The rides of a list that [scanAllRides] tracks. *)
Definition isTrackable (entry : option RideTracker.RideInfo) : bool :=
  match entry with
  | Some ride => String.eqb (RideTracker.info_classification ride) "ride"
  | None => false
  end.

(** What the tracker holds about one ride id. *)
Definition rideRecord (rt : RideTracker.t) (id : Z)
    : option RideTracker.KnownRide * option (list (Z * Z * Z)) * option (list (Z * Z * Z))
      * option (list RideTracker.PathPoint) :=
  (RideTracker.knownRides rt !! id, RideTracker.rideEntrances rt !! id,
   RideTracker.rideExits rt !! id, RideTracker.ridePaths rt !! id).

(** Every id handed out or waiting to be handed out, and the property
    that these are the tracked rides, each once. *)
Definition announced (st : RideTracker.t * list Z) : list Z :=
  snd st ++ RideTracker.newRidesDetected (fst st).

Definition reportedOnce (st : RideTracker.t * list Z) : Prop :=
  NoDup (announced st)
  /\ forall id, In id (announced st) <-> is_Some (RideTracker.knownRides (fst st) !! id).

(** What the stations of a ride provide: entrances and exits with their
    height, the tiles of both (the doors), and the station starts. *)
Definition perStation {A : Type} (f : RideTracker.Station -> list A)
    (stations : list (option RideTracker.Station)) : list A :=
  flat_map (fun station : option RideTracker.Station =>
              match station with Some st => f st | None => [] end) stations.

Definition entranceOf (st : RideTracker.Station) : list (Z * Z * Z) :=
  match RideTracker.st_entrance st with
  | Some (x, y, z) => [(x, y, or_zero z)]
  | None => []
  end.

Definition exitOf (st : RideTracker.Station) : list (Z * Z * Z) :=
  match RideTracker.st_exit st with
  | Some (x, y, z) => [(x, y, or_zero z)]
  | None => []
  end.

Definition doorsOf (st : RideTracker.Station) : list (Z * Z) :=
  map (fun e : Z * Z * Z => fst e) (entranceOf st ++ exitOf st).

Definition startsOf (st : RideTracker.Station) : list (Z * Z) :=
  match RideTracker.st_start st with
  | Some c => [c]
  | None => []
  end.

Definition stationPointAt (c : Z * Z) : RideTracker.PathPoint :=
  {| RideTracker.pp_x := fst c; RideTracker.pp_y := snd c; RideTracker.pp_type := "station" |}.

(** Every point of [paths] is a station start or a footpath tile within
    10 tiles of a door; every start is there, and so is every door that is
    a footpath tile. *)
Definition pathsExplained (getTile : Z -> Z -> option (list (option Element)))
    (isDoor isStart : Z * Z -> Prop) (paths : list RideTracker.PathPoint) : Prop :=
  (forall p, In p paths ->
     (RideTracker.pp_type p = "station"%string /\ isStart (pointCell p))
     \/ (RideTracker.pp_type p = "path"%string
         /\ footpathAt getTile (pointCell p) = true
         /\ exists door, isDoor door /\ manhattan (pointCell p) door <= 10))
  /\ (forall c, isStart c -> In (stationPointAt c) paths)
  /\ (forall d, isDoor d -> footpathAt getTile d = true -> In (pathPointAt d) paths).

(** Vocabulary for [checkSmartHiring]: the staff lists it only reads, the
    smart-hire counter of a role, and whether a role's guarded hire is
    due. *)
Definition rosterState (sm : StaffManager.t)
    : list StaffMember * list StaffMember * list StaffMember * list StaffMember
      * list StaffMember * Z * nat :=
  (StaffManager.allStaff sm, StaffManager.handymen sm, StaffManager.mechanics sm,
   StaffManager.security sm, StaffManager.entertainers sm, StaffManager.tickCounter sm,
   StaffManager.lastStaffCount sm).

Definition smartCount (sm : StaffManager.t) (staffType : string) : Z :=
  let hires := StaffManager.smartHires (StaffManager.statistics sm) in
  if String.eqb staffType "handyman" then StaffManager.sh_handymen hires
  else if String.eqb staffType "mechanic" then StaffManager.sh_mechanics hires
  else if String.eqb staffType "security" then StaffManager.sh_security hires
  else StaffManager.sh_entertainers hires.

Definition smartHireDue (cfg : Config) (sm : StaffManager.t) (needed : bool)
    (staffType : string) : bool :=
  StaffManager.roleAutoHire cfg staffType && needed
  && (Z.of_nat (length (StaffManager.roster sm staffType)) <? StaffManager.roleMax cfg staffType).

(** From [before] to [after], [added] was appended to the queue, all of it
    hire requests, each counted in the smart-hire counter of its role; the
    staff lists are as they were. *)
Definition smartStep (before after : StaffManager.t * ActionQueue.t)
    (added : list PendingAction) : Prop :=
  ActionQueue.queue (snd after) = ActionQueue.queue (snd before) ++ added
  /\ ActionQueue.maxPerTick (snd after) = ActionQueue.maxPerTick (snd before)
  /\ rosterState (fst after) = rosterState (fst before)
  /\ (forall ty, In ty roles ->
        smartCount (fst after) ty
        = smartCount (fst before) ty + Z.of_nat (hiresOf (staffTypeNumber ty) added))
  /\ length added
     = (hiresOf 0 added + hiresOf 1 added + hiresOf 2 added + hiresOf 3 added)%nat.

(** The statistics and flag the hiring steps carry along. *)
Definition sideStats (sm : StaffManager.t) : Z * Z * Z * bool :=
  (StaffManager.crimeDetected (StaffManager.statistics sm),
   StaffManager.disgustComplaints (StaffManager.statistics sm),
   StaffManager.newRidesDetected (StaffManager.statistics sm),
   StaffManager.zonesNeedRegeneration sm).

(** Scenarios for the further properties: three recorded frames, the
    small park with a crew, the manager and the plugin as the source
    initialises them, and the park's one ride as the tracker reads it. *)
Definition threeFrames : PerformanceMonitor.t :=
  {| PerformanceMonitor.frameStartTime := 0; PerformanceMonitor.frameTimes := [3; 5; 4] |}.

Definition parkCrew : list (option StaffMember) :=
  [Some {| staff_id := Some 0; staff_type := "handyman"; staff_orders := 3 |};
   None;
   Some {| staff_id := Some 1; staff_type := "mechanic"; staff_orders := 3 |};
   Some {| staff_id := Some 2; staff_type := "handyman"; staff_orders := 0 |}].

Definition crewedPark : Host := {|
  date_ticksElapsed := Some 4200;
  network_mode := Some "none"%string;
  map_size := Some (3%nat, 2%nat);
  map_getTile := parkTile;
  map_rides := Some [Some {| ride_id := 7; ride_classification := "ride" |}];
  map_guests := Some [];
  map_staff := Some parkCrew
|}.

Definition freshManager : StaffManager.t := {|
  StaffManager.allStaff := [];
  StaffManager.handymen := [];
  StaffManager.mechanics := [];
  StaffManager.security := [];
  StaffManager.entertainers := [];
  StaffManager.tickCounter := 0;
  StaffManager.zonesNeedRegeneration := true;
  StaffManager.lastStaffCount := 0;
  StaffManager.statistics := {|
    StaffManager.totalStaff := 0;
    StaffManager.handymenCount := 0;
    StaffManager.mechanicsCount := 0;
    StaffManager.securityCount := 0;
    StaffManager.entertainersCount := 0;
    StaffManager.staffHired := 0;
    StaffManager.ordersChanged := 0;
    StaffManager.patrolZonesSet := 0;
    StaffManager.patrolZonesFailed := 0;
    StaffManager.dispatchesMade := 0;
    StaffManager.lastFrameTime := 0%Q;
    StaffManager.avgFrameTime := 0%Q;
    StaffManager.autoReanalyzeCount := 0;
    StaffManager.autoGenZonesCount := 0;
    StaffManager.crimeDetected := 0;
    StaffManager.disgustComplaints := 0;
    StaffManager.newRidesDetected := 0;
    StaffManager.smartHires :=
      {| StaffManager.sh_handymen := 0; StaffManager.sh_mechanics := 0;
         StaffManager.sh_security := 0; StaffManager.sh_entertainers := 0 |}
  |}
|}.

Definition crewedManager : StaffManager.t := StaffManager.updateStaffLists crewedPark freshManager.

Definition carousel : RideTracker.RideInfo := {|
  RideTracker.info_id := 7;
  RideTracker.info_classification := "ride";
  RideTracker.info_name := Some "Carousel"%string;
  RideTracker.info_type := 3;
  RideTracker.info_stations :=
    Some [Some {| RideTracker.st_entrance := Some (1, 0, None);
                  RideTracker.st_exit := None;
                  RideTracker.st_start := Some (0, 1) |}]
|}.

Definition parkRides : option (list (option RideTracker.RideInfo)) := Some [Some carousel].

Definition freshPlugin : StaffManager.Plugin := {|
  StaffManager.manager := freshManager;
  StaffManager.rideTracker := RideTracker.initial;
  StaffManager.crimeDetector := CrimeDetector.initial;
  StaffManager.feedback := GuestFeedbackAnalyzer.initial;
  StaffManager.actions := ActionQueue.initial
|}.

(** A gateway that accepts every action and counts them. *)
Definition countingGateway (name : string) (a : ActionArgs) (count : nat) : nat * Outcome :=
  (S count, Some 0).

Definition twoHires : ActionQueue.t :=
  ActionQueue.add
    (ActionQueue.add ActionQueue.initial "staffhire" (StaffHireArgs true 0 0 3)
       (Some OnStaffHired))
    "staffhire" (StaffHireArgs true 1 0 3) (Some OnStaffHired).

(** The scan over a world that changes between calls.  Cell [(x, y)] of
    a world [W] wide has row-major index [y * W + x]; each call handles
    500 indices, so that cell is looked at by call number
    [(y * W + x) / 500], in the world as it stands at that call. *)
Definition worldAtScan (worlds : list Host) (W x y : nat) : option Host :=
  nth_error worlds ((y * W + x) / 500).

(** Whether tile [(x, y)] held an element passing [test] at the call that
    looked at it ([false] when no call has reached it). *)
Definition heldWhenScanned (worlds : list Host) (W : nat) (test : Element -> bool)
    (x y : nat) : bool :=
  match worldAtScan worlds W x y with
  | Some h => tileHas h test x y
  | None => false
  end.

(** Tile [(x, y)] is one of the first [progress] cells of the row-major
    scan, and held an element passing [test] in the world of the call
    that handled its index. *)
Definition scannedLive (worlds : list Host) (W progress : nat) (test : Element -> bool)
    (x y : nat) : Prop :=
  exists (p : nat) (h : Host),
    (p < progress)%nat /\ x = (p mod W)%nat /\ y = (p / W)%nat
    /\ nth_error worlds (p / 500) = Some h
    /\ tileHas h test x y = true.

(** What the scan has recorded agrees with [scannedLive] up to its
    progress. *)
Definition recordsLive (worlds : list Host) (W : nat) (pa : ParkAnalyzer.t) : Prop :=
  forall x y,
    (In (x, y) (ParkAnalyzer.pathTiles pa)
     <-> scannedLive worlds W (ParkAnalyzer.analysisProgress pa) isFootpath x y)
    /\ (In (x, y) (ParkAnalyzer.queueLocations pa)
        <-> scannedLive worlds W (ParkAnalyzer.analysisProgress pa) isQueuePath x y)
    /\ (In (x, y) (ParkAnalyzer.entranceLocations pa)
        <-> scannedLive worlds W (ParkAnalyzer.analysisProgress pa) isEntrance x y)
    /\ (forall r, In (x, y, r) (ParkAnalyzer.rideLocations pa)
                  <-> scannedLive worlds W (ParkAnalyzer.analysisProgress pa) (isTrackOf r) x y).

(** The small park a tick later, with the footpath at (1, 0) removed and
    one laid at (0, 1). *)
Definition parkTileLater (x y : nat) : option (list (option Element)) :=
  match x, y with
  | 0%nat, 0%nat => Some [Some EntranceElement]
  | 1%nat, 0%nat => Some []
  | 2%nat, 0%nat => Some [Some OtherElement; Some (Footpath false true false)]
  | 0%nat, 1%nat => Some [Some (Track (Some 7)); Some (Footpath false false false)]
  | 1%nat, 1%nat => Some [None; Some (Track (Some 7)); Some (Track None)]
  | _, _ => None
  end.

Definition smallParkLater : Host := {|
  date_ticksElapsed := Some 4201;
  network_mode := Some "none"%string;
  map_size := Some (3%nat, 2%nat);
  map_getTile := parkTileLater;
  map_rides := Some [Some {| ride_id := 7; ride_classification := "ride" |};
                     Some {| ride_id := 8; ride_classification := "stall" |}];
  map_guests := None;
  map_staff := Some []
|}.



(** * Properties *)

(** ** The effect queue *)

Section DrainFacts.
Variable Game : Type.
Variable executeAction : string -> ActionArgs -> Game -> Game * Outcome.

(** The loop dispatches a prefix of the queue, in order, and stops once
    [processed] has reached the limit. *)
Lemma drain_prefix (limit : nat) (q : list PendingAction) :
  forall (processed : nat) (g : Game),
    let '(q', _, dispatched) := ActionQueue.drain Game executeAction limit processed q g in
    q = map fst dispatched ++ q'
    /\ (length dispatched <= limit - processed)%nat.
Proof.
  induction q as [| item rest IH]; intros processed g; simpl.
  - split; [reflexivity | lia].
  - destruct (Nat.ltb_spec processed limit) as [Hlt | Hge].
    + destruct (executeAction (action item) (args item) g) as [g1 outcome].
      specialize (IH (S processed) g1).
      destruct (ActionQueue.drain Game executeAction limit (S processed) rest g1)
        as [[q' g'] dispatched].
      destruct IH as [Hq Hlen]. simpl. split; [now rewrite Hq | lia].
    + simpl. split; [reflexivity | lia].
Qed.

End DrainFacts.

(** C1. One call of [ActionQueue.process] dispatches at most [maxPerTick]
    queued effects, and [maxPerTick] is 3 from the start and never changed
    by [add] or [process]; what it dispatches is the front of the queue, in
    order.  When the authority check [NetworkHelper.canModifyGameState] is
    false it dispatches nothing, leaves the game alone, and the queue is
    empty afterwards. *)
Theorem ActionQueue_process_bounded :
  forall (Game : Type) (executeAction : string -> ActionArgs -> Game -> Game * Outcome)
         (h : Host) (aq : ActionQueue.t) (g : Game),
    let '(aq', g', dispatched) := ActionQueue.process Game executeAction h aq g in
    (length dispatched <= ActionQueue.maxPerTick aq)%nat
    /\ ActionQueue.maxPerTick aq' = ActionQueue.maxPerTick aq
    /\ ActionQueue.maxPerTick ActionQueue.initial = 3%nat
    /\ (forall name a cb,
          ActionQueue.maxPerTick (ActionQueue.add aq name a cb) = ActionQueue.maxPerTick aq)
    /\ (if NetworkHelper.canModifyGameState h
        then ActionQueue.queue aq = map fst dispatched ++ ActionQueue.queue aq'
        else dispatched = [] /\ ActionQueue.queue aq' = [] /\ g' = g).
Proof.
  intros Game executeAction h aq g. unfold ActionQueue.process.
  destruct (NetworkHelper.canModifyGameState h); simpl.
  - pose proof (drain_prefix Game executeAction (ActionQueue.maxPerTick aq)
                  (ActionQueue.queue aq) 0%nat g) as Hd.
    destruct (ActionQueue.drain Game executeAction (ActionQueue.maxPerTick aq) 0
                (ActionQueue.queue aq) g) as [[q' g'] dispatched].
    destruct Hd as [Hq Hlen]. simpl.
    repeat split; try reflexivity; [lia | exact Hq].
  - repeat split; try reflexivity. lia.
Qed.

(** ** The deterministic random source *)

(** The fractional part [x - Math.floor(x)] lies in [[0, 1)]. *)
Lemma frac_range (x : Q) :
  (0 <= x - inject_Z (Math_floor x))%Q /\ (x - inject_Z (Math_floor x) < 1)%Q.
Proof.
  unfold Math_floor.
  pose proof (Qfloor_le x) as Hlo.
  pose proof (Qlt_floor x) as Hhi.
  rewrite inject_Z_plus in Hhi. change (inject_Z 1) with 1%Q in Hhi.
  split; lra.
Qed.

(** Scaling a fraction of [[0, 1)] by a positive integer [n] and taking
    the floor gives one of [0 .. n - 1]. *)
Lemma floor_scale_range (r : Q) (n : Z) :
  (0 <= r)%Q -> (r < 1)%Q -> 1 <= n ->
  0 <= Math_floor (r * inject_Z n)%Q <= n - 1.
Proof.
  intros Hr0 Hr1 Hn. unfold Math_floor.
  assert (Hnq : (inject_Z 0 < inject_Z n)%Q) by (rewrite <- Zlt_Qlt; lia).
  change (inject_Z 0) with 0%Q in Hnq.
  split.
  - change 0 with (Qfloor 0). apply Qfloor_resp_le.
    apply Qmult_le_0_compat; [exact Hr0 | now apply Qlt_le_weak].
  - assert (Hlt : (inject_Z (Qfloor (r * inject_Z n)) < inject_Z n)%Q).
    { eapply Qle_lt_trans; [apply Qfloor_le |].
      pose proof (Qmult_lt_compat_r r 1 (inject_Z n) Hnq Hr1). lra. }
    rewrite <- Zlt_Qlt in Hlt. lia.
Qed.

(** The formula of [randomInt] read in exact arithmetic.  It reads
    nothing of its instance but the tick seed: two independent instances
    whose hosts give the same seed compute the same value for the same
    [min], [max] and whole [offset], and for integers [min <= max] that
    value lies in [[min, max]].  This is what the formula is written to
    do; it says nothing of rounding, which
    [randomInt_leaves_range_on_doubles] below is about. *)
Theorem randomInt_deterministic_in_range :
  forall (Math_sin : Q -> Q) (h1 h2 : Host) (min max : Z) (offset : option Z),
    DeterministicRandom.getSeed h1 = DeterministicRandom.getSeed h2 ->
    min <= max ->
    DeterministicRandom.randomInt Math_sin h1 min max offset
      = DeterministicRandom.randomInt Math_sin h2 min max offset
    /\ min <= DeterministicRandom.randomInt Math_sin h1 min max offset <= max.
Proof.
  intros Math_sin h1 h2 min max offset Hseed Hle. split.
  - unfold DeterministicRandom.randomInt, DeterministicRandom.random.
    now rewrite Hseed.
  - unfold DeterministicRandom.randomInt, DeterministicRandom.random.
    set (x := (Math_sin _ * _)%Q).
    destruct (frac_range x) as [H0 H1].
    pose proof (floor_scale_range _ (max - min + 1) H0 H1 ltac:(lia)). lia.
Qed.

Section RandomOnDoubles.
Import PrimFloat.
#[local] Set Warnings "-inexact-float".


(** The same source overflows: [max - min + 1] is [Infinity] for
    [min = -1e308] and [max = 1e308], and at tick 0 without offset, where
    the sine of 0 is 0, [random] returns 0 and [0 * Infinity] is [NaN]. *)
Lemma randomInt_overflows_on_doubles (Math_sin : float -> float) (h : Host) :
  date_ticksElapsed h = Some 0 ->
  Math_sin 0%float = 0%float ->
  Double.isNaN (DeterministicRandom64.randomInt Math_sin h (-1e308)%float 1e308%float None)
  = true.
Proof.
  intros Htick Hsin.
  unfold DeterministicRandom64.randomInt, DeterministicRandom64.random,
    DeterministicRandom64.getSeed.
  rewrite Htick. cbv zeta.
  replace (Double.ofZ (or_zero (Some 0%Z)) + Double.orZero None)%float
    with 0%float by (vm_compute; reflexivity).
  replace (0 * 12.9898)%float with 0%float by (vm_compute; reflexivity).
  rewrite Hsin. vm_compute. reflexivity.
Qed.

End RandomOnDoubles.

(** ** The incremental world scan *)

Section ScanFacts.
Local Open Scope nat_scope.
Import ParkAnalyzer.

Lemma control_inv (pa : ParkAnalyzer.t) (p T : nat) (a : bool) (v : list nat) :
  control pa = (p, T, a, v) ->
  analysisProgress pa = p /\ analysisTotal pa = T /\ isAnalyzed pa = a /\ visited pa = v.
Proof. unfold control. intros H. inversion H. repeat split. Qed.

Lemma classify_control (x y : nat) (pa : ParkAnalyzer.t) (e : option Element) :
  control (classify x y pa e) = control pa.
Proof.
  destruct e as [[isQueue ? ? | [r |] | |] |]; reflexivity.
Qed.

Lemma scanTile_control (h : Host) (x y : nat) (pa : ParkAnalyzer.t) :
  control (scanTile h x y pa) = control pa.
Proof.
  unfold scanTile. destruct (map_getTile h x y) as [elements |]; [| reflexivity].
  revert pa. induction elements as [| e es IH]; intros pa; simpl; [reflexivity |].
  rewrite IH. apply classify_control.
Qed.

Lemma updateRideStats_control (h : Host) (pa : ParkAnalyzer.t) :
  control (updateRideStats h pa) = control pa.
Proof. unfold updateRideStats. destruct (map_rides h); reflexivity. Qed.

(** The loop visits the indices from the current progress on, one by one,
    until it reaches the total or has used its budget. *)
Lemma scanLoop_control (h : Host) (w : nat) (budget : nat) :
  forall pa : ParkAnalyzer.t,
    let p := analysisProgress pa in
    let p' := if p <? analysisTotal pa then Nat.min (p + budget) (analysisTotal pa) else p in
    control (scanLoop h w budget pa)
      = (p', analysisTotal pa, isAnalyzed pa, visited pa ++ seq p (p' - p)).
Proof.
  induction budget as [| b IH]; intros pa; cbn zeta.
  - cbn [scanLoop]. unfold control.
    replace (if analysisProgress pa <? analysisTotal pa
             then Nat.min (analysisProgress pa + 0) (analysisTotal pa)
             else analysisProgress pa) with (analysisProgress pa)
      by (destruct (Nat.ltb_spec (analysisProgress pa) (analysisTotal pa)); lia).
    rewrite Nat.sub_diag. cbn [seq]. now rewrite app_nil_r.
  - cbn [scanLoop].
    destruct (Nat.ltb_spec (analysisProgress pa) (analysisTotal pa)) as [Hlt | Hge].
    + set (tileX := analysisProgress pa mod w). set (tileY := analysisProgress pa / w).
      pose proof (scanTile_control h tileX tileY pa) as Hc.
      apply control_inv in Hc as (Hp & Ht & Ha & Hv).
      rewrite IH. cbn [advance analysisProgress analysisTotal isAnalyzed visited].
      rewrite Hp, Ht, Ha, Hv.
      set (p := analysisProgress pa) in *. set (T := analysisTotal pa) in *.
      destruct (Nat.ltb_spec (S p) T) as [Hlt' | Hge'].
      * replace (Nat.min (S p + b) T) with (Nat.min (p + S b) T) by lia.
        f_equal. rewrite <- app_assoc. f_equal.
        replace (Nat.min (p + S b) T - p) with (S (Nat.min (p + S b) T - S p)) by lia.
        reflexivity.
      * replace (Nat.min (p + S b) T) with (S p) by lia.
        f_equal. rewrite <- app_assoc. f_equal.
        replace (S p - S p) with 0 by lia. replace (S p - p) with 1 by lia.
        reflexivity.
    + unfold control. rewrite Nat.sub_diag. cbn [seq]. now rewrite app_nil_r.
Qed.

Lemma runSteps_succ (h : Host) (k : nat) :
  forall pa, runSteps h (S k) pa = fst (runAnalysisStep h (runSteps h k pa)).
Proof.
  induction k as [| k IH]; intros pa; [reflexivity |].
  change (runSteps h (S (S k)) pa) with (runSteps h (S k) (fst (runAnalysisStep h pa))).
  now rewrite IH.
Qed.

(** A step taken before the scan is complete. *)
Lemma runAnalysisStep_scanning (h : Host) (pa : ParkAnalyzer.t) :
  isAnalyzed pa = false ->
  let p := analysisProgress pa in
  let p' := if p <? analysisTotal pa then Nat.min (p + 500) (analysisTotal pa) else p in
  control (fst (runAnalysisStep h pa))
    = (p', analysisTotal pa, analysisTotal pa <=? p', visited pa ++ seq p (p' - p))
  /\ snd (runAnalysisStep h pa) = (analysisTotal pa <=? p').
Proof.
  intros Hna. cbn zeta. unfold runAnalysisStep. rewrite Hna.
  pose proof (scanLoop_control h (fst (mapDims h)) 500 pa) as Hc. cbn zeta in Hc.
  set (pa1 := scanLoop h (fst (mapDims h)) 500 pa) in *.
  apply control_inv in Hc as (Hp & Ht & Ha & Hv).
  rewrite Ht, Hp.
  destruct (analysisTotal pa <=? _) eqn:Hdone; cbn [fst snd].
  - split; [| reflexivity].
    rewrite updateRideStats_control. unfold control.
    cbn [with_rideStats analysisProgress analysisTotal isAnalyzed visited].
    now rewrite Hp, Ht, Hv.
  - split; [| reflexivity]. unfold control. now rewrite Hp, Ht, Ha, Hv, Hna.
Qed.

(** A step taken once the scan is complete changes nothing. *)
Lemma runAnalysisStep_done (h : Host) (pa : ParkAnalyzer.t) :
  isAnalyzed pa = true -> runAnalysisStep h pa = (pa, true).
Proof. intros Ha. unfold runAnalysisStep. now rewrite Ha. Qed.

(** Where the scan stands after [k] calls that follow a [startAnalysis]. *)
Lemma runSteps_control (h : Host) (pa0 : ParkAnalyzer.t) (k : nat) :
  let T := analysisTotal (startAnalysis h pa0) in
  control (runSteps h k (startAnalysis h pa0))
    = (Nat.min (500 * k) T, T, (0 <? k) && (T <=? 500 * k), seq 0 (Nat.min (500 * k) T)).
Proof.
  cbn zeta. set (T := analysisTotal (startAnalysis h pa0)).
  induction k as [| k IH].
  - cbn [runSteps]. unfold control. reflexivity.
  - rewrite runSteps_succ. set (pa := runSteps h k (startAnalysis h pa0)) in *.
    apply control_inv in IH as (Hp & Ht & Ha & Hv).
    destruct (isAnalyzed pa) eqn:Hflag.
    + rewrite runAnalysisStep_done by exact Hflag. cbn [fst]. unfold control.
      rewrite Hp, Ht, Hv, Hflag.
      symmetry in Ha. apply andb_true_iff in Ha as [Hk HT].
      apply Nat.ltb_lt in Hk. apply Nat.leb_le in HT.
      replace (Nat.min (500 * k) T) with T by lia.
      replace (Nat.min (500 * S k) T) with T by lia.
      replace (0 <? S k) with true by (symmetry; apply Nat.ltb_lt; lia).
      replace (T <=? 500 * S k) with true by (symmetry; apply Nat.leb_le; lia).
      reflexivity.
    + destruct (runAnalysisStep_scanning h pa Hflag) as [Hc _]. cbn zeta in Hc.
      rewrite Hc, Hp, Ht, Hv. clear Hc.
      assert (Hk : k = 0 \/ 500 * k < T).
      { symmetry in Ha. apply andb_false_iff in Ha as [Hk | HT].
        - apply Nat.ltb_ge in Hk. lia.
        - apply Nat.leb_gt in HT. lia. }
      assert (Hnew : (if Nat.min (500 * k) T <? T
                      then Nat.min (Nat.min (500 * k) T + 500) T
                      else Nat.min (500 * k) T) = Nat.min (500 * S k) T).
      { destruct (Nat.ltb_spec (Nat.min (500 * k) T) T); lia. }
      rewrite Hnew.
      replace (0 <? S k) with true by (symmetry; apply Nat.ltb_lt; lia).
      cbn [andb].
      assert (Hflag' : (T <=? Nat.min (500 * S k) T) = (T <=? 500 * S k)).
      { destruct (Nat.leb_spec T (500 * S k));
          [apply Nat.leb_le | apply Nat.leb_gt]; lia. }
      rewrite Hflag'. f_equal.
      replace (Nat.min (500 * S k) T)
        with (Nat.min (500 * k) T + (Nat.min (500 * S k) T - Nat.min (500 * k) T)) at 2 by lia.
      now rewrite seq_app.
Qed.

End ScanFacts.

(** C3. For a world of [W] by [H] tiles, the calls of [runAnalysisStep]
    that follow [startAnalysis] visit at most 500 cells each and set
    [isAnalyzed] exactly once: there is a call count [n >= 1] before which
    the flag is false and from which on it is true (and each call returns
    the flag it leaves behind).  The linear indices visited are never
    repeated, and from the completing call on they are exactly
    [0 .. W*H - 1], each once. *)
Theorem scan_completes_exactly_once :
  forall (h : Host) (W H : nat) (pa0 : ParkAnalyzer.t),
    map_size h = Some (W, H) ->
    let s := fun k => ParkAnalyzer.runSteps h k (ParkAnalyzer.startAnalysis h pa0) in
    exists n : nat,
      (1 <= n)%nat
      /\ (forall k, ParkAnalyzer.isAnalyzed (s k) = true <-> (n <= k)%nat)
      /\ (forall k, snd (ParkAnalyzer.runAnalysisStep h (s k))
                    = ParkAnalyzer.isAnalyzed (s (S k)))
      /\ (forall k, exists batch,
             ParkAnalyzer.visited (s (S k)) = ParkAnalyzer.visited (s k) ++ batch
             /\ (length batch <= 500)%nat)
      /\ (forall k, NoDup (ParkAnalyzer.visited (s k)))
      /\ (forall k, (n <= k)%nat ->
             ParkAnalyzer.visited (s k) = seq 0 (W * H)
             /\ length (ParkAnalyzer.visited (s k)) = (W * H)%nat).
Proof.
  intros h W H pa0 Hsize s.
  assert (HT : ParkAnalyzer.analysisTotal (ParkAnalyzer.startAnalysis h pa0) = (W * H)%nat).
  { unfold ParkAnalyzer.startAnalysis. cbn [ParkAnalyzer.analysisTotal]. now rewrite Hsize. }
  assert (Hctl : forall k,
             ParkAnalyzer.analysisProgress (s k) = Nat.min (500 * k) (W * H)
             /\ ParkAnalyzer.analysisTotal (s k) = (W * H)%nat
             /\ ParkAnalyzer.isAnalyzed (s k) = ((0 <? k)%nat && (W * H <=? 500 * k)%nat)
             /\ ParkAnalyzer.visited (s k) = seq 0 (Nat.min (500 * k) (W * H))).
  { intros k. apply control_inv. unfold s.
    pose proof (runSteps_control h pa0 k) as Hc. cbn zeta in Hc. now rewrite HT in Hc. }
  set (T := (W * H)%nat) in *. clearbody T.
  exists (S ((T - 1) / 500)).
  assert (Hn : forall k, (0 < k /\ T <= 500 * k)%nat <-> (S ((T - 1) / 500) <= k)%nat).
  { intros k. pose proof (Nat.div_mod_eq (T - 1) 500).
    pose proof (Nat.mod_upper_bound (T - 1) 500). lia. }
  split; [lia |]. split; [| split; [| split; [| split]]].
  - intros k. destruct (Hctl k) as (_ & _ & Ha & _). rewrite Ha, <- Hn.
    rewrite andb_true_iff, Nat.ltb_lt, Nat.leb_le. reflexivity.
  - intros k.
    assert (Hs : s (S k) = fst (ParkAnalyzer.runAnalysisStep h (s k)))
      by (unfold s; apply runSteps_succ).
    rewrite Hs. destruct (ParkAnalyzer.isAnalyzed (s k)) eqn:Hflag.
    + now rewrite (runAnalysisStep_done h (s k) Hflag).
    + destruct (runAnalysisStep_scanning h (s k) Hflag) as [Hc Hret].
      cbn zeta in Hc, Hret. apply control_inv in Hc as (_ & _ & Ha & _).
      now rewrite Ha, Hret.
  - intros k. destruct (Hctl k) as (_ & _ & _ & Hv).
    destruct (Hctl (S k)) as (_ & _ & _ & Hv').
    exists (seq (Nat.min (500 * k) T) (Nat.min (500 * S k) T - Nat.min (500 * k) T)).
    rewrite Hv, Hv', length_seq. split; [| lia].
    replace (Nat.min (500 * S k) T)
      with (Nat.min (500 * k) T + (Nat.min (500 * S k) T - Nat.min (500 * k) T))%nat
      at 1 by lia.
    now rewrite seq_app.
  - intros k. destruct (Hctl k) as (_ & _ & _ & Hv). rewrite Hv. apply NoDup_seq.
  - intros k Hk. destruct (Hctl k) as (_ & _ & _ & Hv). apply Hn in Hk.
    rewrite Hv, length_seq. replace (Nat.min (500 * k) T) with T by lia. split; reflexivity.
Qed.

(** ** Patrol rectangles *)

(** C4. In a world of at least one tile each way, a call of
    [setStaffPatrolArea] by the authoritative instance with a valid staff
    id (a number, not negative) and any four rational inputs appends
    exactly one patrol-area effect, whose rectangle is 32 times a tile
    rectangle with [0 <= x1 <= x2 <= worldWidth - 1] and
    [0 <= y1 <= y2 <= worldHeight - 1]. *)
Theorem setStaffPatrolArea_clamped :
  forall (h : Host) (aq : ActionQueue.t) (id : Z) (x1 y1 x2 y2 : Q) (mode : Z),
    NetworkHelper.canModifyGameState h = true ->
    0 <= id ->
    (1 <= fst (mapDims h))%nat ->
    (1 <= snd (mapDims h))%nat ->
    exists tx1 ty1 tx2 ty2 : Z,
      ActionQueue.queue (StaffManager.setStaffPatrolArea h aq (Some id) x1 y1 x2 y2 mode)
        = ActionQueue.queue aq ++
          [{| action := "staffsetpatrolarea";
              args := PatrolAreaArgs id (tx1 * 32) (ty1 * 32) (tx2 * 32) (ty2 * 32) mode;
              callback := Some OnPatrolAreaSet |}]
      /\ 0 <= tx1 <= tx2 /\ tx2 <= Z.of_nat (fst (mapDims h)) - 1
      /\ 0 <= ty1 <= ty2 /\ ty2 <= Z.of_nat (snd (mapDims h)) - 1.
Proof.
  intros h aq id x1 y1 x2 y2 mode Hauth Hid HW HH.
  unfold StaffManager.setStaffPatrolArea. rewrite Hauth. cbn [negb].
  destruct (Z.ltb_spec id 0) as [Hneg | _]; [lia |].
  eexists _, _, _, _. split; [reflexivity |]. lia.
Qed.

(** ** Hiring policy *)

Lemma hireTarget_range (minCount maxCount metric : Z) (ratio : Q) :
  minCount <= maxCount ->
  minCount <= StaffManager.hireTarget minCount maxCount metric ratio <= maxCount.
Proof. intros Hle. unfold StaffManager.hireTarget. lia. Qed.

(** C5. For each of the four roles, if the configured minimum does not
    exceed the configured maximum then for every driver metric [>= 0] (and
    every configured ratio) the hire target
    [max(min, min(max, ceil(metric * ratio)))] that [checkAutoHire]
    computes lies between the minimum and the maximum. *)
Theorem hire_target_within_limits :
  forall (cfg : Config) (staffType : string) (metric : Z),
    StaffManager.roleMin cfg staffType <= StaffManager.roleMax cfg staffType ->
    0 <= metric ->
    StaffManager.roleTarget cfg staffType metric
      = Z.max (StaffManager.roleMin cfg staffType)
          (Z.min (StaffManager.roleMax cfg staffType)
             (Math_ceil (inject_Z metric * StaffManager.roleRatio cfg staffType)%Q))
    /\ StaffManager.roleMin cfg staffType
       <= StaffManager.roleTarget cfg staffType metric
       <= StaffManager.roleMax cfg staffType.
Proof.
  intros cfg staffType metric Hle _. split; [reflexivity |].
  now apply hireTarget_range.
Qed.

(** ** Ride coverage *)

Section CoverageFacts.
Import RideTracker.

(** Folding [extend] over points from a finite box gives the smallest
    finite box that contains the start box and every point. *)
Lemma fold_extend_box (l : list (Z * Z)) :
  forall a b c d : Z,
    exists a' b' c' d' : Z,
      fold_left extend l {| minX := Fin a; minY := Fin b; maxX := Fin c; maxY := Fin d |}
        = {| minX := Fin a'; minY := Fin b'; maxX := Fin c'; maxY := Fin d' |}
      /\ (a' <= a /\ b' <= b /\ c <= c' /\ d <= d')
      /\ (forall q, In q l -> a' <= fst q <= c' /\ b' <= snd q <= d')
      /\ (a' = a \/ exists q, In q l /\ fst q = a')
      /\ (b' = b \/ exists q, In q l /\ snd q = b')
      /\ (c' = c \/ exists q, In q l /\ fst q = c')
      /\ (d' = d \/ exists q, In q l /\ snd q = d').
Proof.
  induction l as [| p l IH]; intros a b c d.
  - exists a, b, c, d. cbn [fold_left].
    split; [reflexivity |]. split; [lia |]. split; [intros q [] |].
    repeat split; now left.
  - cbn [fold_left]. unfold extend at 2. cbn [minX minY maxX maxY js_min js_max].
    destruct (IH (Z.min a (fst p)) (Z.min b (snd p)) (Z.max c (fst p)) (Z.max d (snd p)))
      as (a' & b' & c' & d' & Heq & Hmono & Hall & Ha & Hb & Hc & Hd).
    exists a', b', c', d'. split; [exact Heq |]. split; [lia |].
    split; [| repeat split].
    + intros q [<- | Hq]; [lia | now apply Hall].
    + destruct Ha as [-> | (q & Hq & <-)]; [| right; exists q; split; [now right | reflexivity]].
      destruct (Z.min_spec a (fst p)) as [[_ ->] | [_ ->]];
        [now left | right; exists p; split; [now left | reflexivity]].
    + destruct Hb as [-> | (q & Hq & <-)]; [| right; exists q; split; [now right | reflexivity]].
      destruct (Z.min_spec b (snd p)) as [[_ ->] | [_ ->]];
        [now left | right; exists p; split; [now left | reflexivity]].
    + destruct Hc as [-> | (q & Hq & <-)]; [| right; exists q; split; [now right | reflexivity]].
      destruct (Z.max_spec c (fst p)) as [[_ ->] | [_ ->]];
        [right; exists p; split; [now left | reflexivity] | now left].
    + destruct Hd as [-> | (q & Hq & <-)]; [| right; exists q; split; [now right | reflexivity]].
      destruct (Z.max_spec d (snd p)) as [[_ ->] | [_ ->]];
        [right; exists p; split; [now left | reflexivity] | now left].
Qed.

End CoverageFacts.

(** C6, as stated, fails: the padded upper edges are not clamped to the
    world.  With the entrance on tile (127, 127) of a 128 by 128 world the
    box reaches 130, not 127. *)
Lemma getRideCoverage_not_clamped_above :
  RideTracker.getRideCoverage cornerRideTracker 1
    = {| RideTracker.minX := Fin 122; RideTracker.minY := Fin 123;
         RideTracker.maxX := Fin 130; RideTracker.maxY := Fin 130 |}
  /\ specCoverage 128 128 (RideTracker.allPoints cornerRideTracker 1)
    = {| RideTracker.minX := Fin 122; RideTracker.minY := Fin 123;
         RideTracker.maxX := Fin 127; RideTracker.maxY := Fin 127 |}
  /\ RideTracker.getRideCoverage cornerRideTracker 1
     <> specCoverage 128 128 (RideTracker.allPoints cornerRideTracker 1).
Proof.
  assert (H1 : RideTracker.getRideCoverage cornerRideTracker 1
               = {| RideTracker.minX := Fin 122; RideTracker.minY := Fin 123;
                    RideTracker.maxX := Fin 130; RideTracker.maxY := Fin 130 |})
    by (vm_compute; reflexivity).
  assert (H2 : specCoverage 128 128 (RideTracker.allPoints cornerRideTracker 1)
               = {| RideTracker.minX := Fin 122; RideTracker.minY := Fin 123;
                    RideTracker.maxX := Fin 127; RideTracker.maxY := Fin 127 |})
    by (vm_compute; reflexivity).
  split; [exact H1 | split; [exact H2 |]].
  rewrite H1, H2. intros Heq. discriminate Heq.
Qed.

(** C6, amended.  For every ride id, [getRideCoverage] takes the
    entrance, exit and path-coverage points recorded for it.  With no
    point recorded it returns the sentinel box
    [(Infinity, Infinity, -Infinity, -Infinity)].  Otherwise it returns
    their bounding box (the least and greatest [x] and [y] among them)
    widened by 3 on every side, the lower edges clamped at 0 and the upper
    edges not clamped. *)
Theorem getRideCoverage_padded_box :
  forall (rt : RideTracker.t) (rideId : Z),
    match RideTracker.allPoints rt rideId with
    | [] => RideTracker.getRideCoverage rt rideId = RideTracker.emptyCoverage
    | p :: ps =>
        exists lox loy hix hiy : Z,
          (forall q, In q (p :: ps) -> lox <= fst q <= hix /\ loy <= snd q <= hiy)
          /\ (exists q, In q (p :: ps) /\ fst q = lox)
          /\ (exists q, In q (p :: ps) /\ snd q = loy)
          /\ (exists q, In q (p :: ps) /\ fst q = hix)
          /\ (exists q, In q (p :: ps) /\ snd q = hiy)
          /\ RideTracker.getRideCoverage rt rideId
             = {| RideTracker.minX := Fin (Z.max 0 (lox - 3));
                  RideTracker.minY := Fin (Z.max 0 (loy - 3));
                  RideTracker.maxX := Fin (hix + 3);
                  RideTracker.maxY := Fin (hiy + 3) |}
    end.
Proof.
  intros rt rideId. unfold RideTracker.getRideCoverage.
  destruct (RideTracker.allPoints rt rideId) as [| p ps]; [reflexivity |].
  destruct (fold_extend_box ps (fst p) (snd p) (fst p) (snd p))
    as (a & b & c & d & Heq & Hmono & Hall & Ha & Hb & Hc & Hd).
  change (fold_left RideTracker.extend (p :: ps) RideTracker.emptyCoverage
          = {| RideTracker.minX := Fin a; RideTracker.minY := Fin b;
               RideTracker.maxX := Fin c; RideTracker.maxY := Fin d |}) in Heq.
  exists a, b, c, d. cbn zeta. rewrite Heq.
  cbn [RideTracker.minX RideTracker.minY RideTracker.maxX RideTracker.maxY js_add js_max].
  split; [| repeat split].
  - intros q [<- | Hq]; [lia | now apply Hall].
  - destruct Ha as [-> | (q & Hq & <-)];
      [exists p; split; [now left | reflexivity] | exists q; split; [now right | reflexivity]].
  - destruct Hb as [-> | (q & Hq & <-)];
      [exists p; split; [now left | reflexivity] | exists q; split; [now right | reflexivity]].
  - destruct Hc as [-> | (q & Hq & <-)];
      [exists p; split; [now left | reflexivity] | exists q; split; [now right | reflexivity]].
  - destruct Hd as [-> | (q & Hq & <-)];
      [exists p; split; [now left | reflexivity] | exists q; split; [now right | reflexivity]].
Qed.

(** ** Need signals *)

Section CrimeFacts.
Import CrimeDetector.

Lemma inspect_counts (h : Host) (pathTile : nat * nat) (elements : list (option Element)) :
  forall cd : CrimeDetector.t,
    vandalismCount cd = Z.of_nat (length (recentCrimes cd)) ->
    vandalismCount (fold_left (inspect h pathTile) elements cd)
      = Z.of_nat (length (recentCrimes (fold_left (inspect h pathTile) elements cd))).
Proof.
  induction elements as [| e es IH]; intros cd Hcd; cbn [fold_left]; [exact Hcd |].
  apply IH. unfold inspect.
  destruct e as [[isQueue isBroken isBlocked | r | |] |]; try exact Hcd.
  destruct (isBroken || isBlocked); [| exact Hcd].
  cbn [vandalismCount recentCrimes]. rewrite length_app, Hcd. cbn [length]. lia.
Qed.

(** After [update] the vandalism count is the number of crimes it found. *)
Lemma update_counts_crimes (h : Host) (pa : ParkAnalyzer.t) (cd : CrimeDetector.t) :
  vandalismCount (update h pa cd) = Z.of_nat (length (recentCrimes (update h pa cd))).
Proof.
  unfold update. destruct (map_size h); [| reflexivity].
  set (cleared := {| vandalismCount := 0; recentCrimes := [];
                     crimeHotspots := SpatialHash.clear (crimeHotspots cd);
                     lastCheck := lastCheck cd |}).
  assert (H0 : vandalismCount cleared = Z.of_nat (length (recentCrimes cleared)))
    by reflexivity.
  revert H0. generalize cleared. clear cleared.
  induction (firstn 300 (ParkAnalyzer.pathTiles pa)) as [| tile tiles IH];
    intros cd0 Hcd0; cbn [fold_left]; [exact Hcd0 |].
  apply IH. unfold sample.
  destruct (map_getTile h (fst tile) (snd tile)); [| exact Hcd0].
  now apply inspect_counts.
Qed.

End CrimeFacts.

(** C7. [needsMoreSecurity()] is true exactly when the vandalism count
    has reached the configured crime threshold ([count >= threshold]),
    whatever the count, and so for the count [update()] detects, which is
    the number of vandalism events it recorded; with the configured
    threshold of 3 it is false at count 2 and true at count 3. *)
Theorem needsMoreSecurity_threshold :
  forall (cfg : Config) (cd : CrimeDetector.t) (h : Host) (pa : ParkAnalyzer.t),
    (CrimeDetector.needsMoreSecurity cfg cd = true
       <-> CrimeDetector.vandalismCount cd >= securityCrimeThreshold cfg)
    /\ (CrimeDetector.needsMoreSecurity cfg (CrimeDetector.update h pa cd) = true
       <-> Z.of_nat (length (CrimeDetector.recentCrimes (CrimeDetector.update h pa cd)))
           >= securityCrimeThreshold cfg)
    /\ securityCrimeThreshold CONFIG = 3
    /\ CrimeDetector.needsMoreSecurity CONFIG (withVandalismCount cd 2) = false
    /\ CrimeDetector.needsMoreSecurity CONFIG (withVandalismCount cd 3) = true.
Proof.
  intros cfg cd h pa.
  assert (Hiff : forall cd', CrimeDetector.needsMoreSecurity cfg cd' = true
                   <-> CrimeDetector.vandalismCount cd' >= securityCrimeThreshold cfg).
  { intros cd'. unfold CrimeDetector.needsMoreSecurity. rewrite Z.geb_le. lia. }
  split; [apply Hiff |]. split; [| repeat split].
  rewrite <- update_counts_crimes. apply Hiff.
Qed.

(** C8. [needsMoreEntertainers()] is true exactly when the happiness
    percentage is strictly below the configured happiness threshold; with
    the configured threshold of 60 it is true at 40% and false at 61%. *)
Theorem needsMoreEntertainers_threshold :
  forall (cfg : Config) (gfa : GuestFeedbackAnalyzer.t),
    (GuestFeedbackAnalyzer.needsMoreEntertainers cfg gfa = true
       <-> GuestFeedbackAnalyzer.happinessPercent gfa < entertainerHappinessThreshold cfg)
    /\ entertainerHappinessThreshold CONFIG = 60
    /\ GuestFeedbackAnalyzer.needsMoreEntertainers CONFIG (withHappinessPercent gfa 40) = true
    /\ GuestFeedbackAnalyzer.needsMoreEntertainers CONFIG (withHappinessPercent gfa 61) = false.
Proof.
  intros cfg gfa. unfold GuestFeedbackAnalyzer.needsMoreEntertainers.
  split; [| repeat split].
  apply Z.ltb_lt.
Qed.

Section FeedbackFacts.
Import GuestFeedbackAnalyzer.

Lemma tallyThoughts_happiness (thoughts : list (option string)) :
  forall acc : Tally,
    totalHappiness (fold_left tallyThought thoughts acc) = totalHappiness acc
    /\ happyCount (fold_left tallyThought thoughts acc) = happyCount acc.
Proof.
  induction thoughts as [| th ths IH]; intros acc; cbn [fold_left]; [now split |].
  destruct (IH (tallyThought acc th)) as [-> ->].
  destruct th; split; reflexivity.
Qed.

Lemma tallyNausea_happiness (acc : Tally) (g : Guest) :
  totalHappiness (tallyNausea acc g) = totalHappiness acc
  /\ happyCount (tallyNausea acc g) = happyCount acc.
Proof.
  unfold tallyNausea. destruct (guest_nausea g) as [n |]; [| now split].
  destruct (150 <? n); now split.
Qed.

(** Guests without a numeric happiness leave the happiness tally alone. *)
Lemma tallyGuests_noHappiness (guests : list (option Guest)) :
  noHappiness guests = true ->
  forall acc : Tally,
    happyCount (fold_left tallyGuest guests acc) = happyCount acc.
Proof.
  induction guests as [| guest gs IH]; intros Hno acc; cbn [fold_left]; [reflexivity |].
  cbn [noHappiness forallb] in Hno. apply andb_true_iff in Hno as [Hg Hgs].
  rewrite (IH Hgs). destruct guest as [g |]; [| reflexivity].
  cbn [tallyGuest]. destruct (tallyNausea_happiness
    (fold_left tallyThought (guest_thoughts g) (tallyHappiness acc g)) g) as [_ ->].
  destruct (tallyThoughts_happiness (guest_thoughts g) (tallyHappiness acc g)) as [_ ->].
  unfold tallyHappiness. destruct (guest_happiness g); [discriminate | reflexivity].
Qed.

Lemma update_noHappinessData (h : Host) (gfa : t) :
  noHappinessData h = true ->
  averageHappiness (update h gfa) = averageHappiness gfa
  /\ happinessPercent (update h gfa) = happinessPercent gfa.
Proof.
  unfold noHappinessData, update. intros Hno.
  destruct (map_guests h) as [guests |]; [| now split].
  cbn [averageHappiness happinessPercent].
  rewrite (tallyGuests_noHappiness guests Hno). now split.
Qed.

End FeedbackFacts.

(** C10. When the guest population is empty, or no guest has a numeric
    happiness, [GuestFeedbackAnalyzer.update()] leaves [averageHappiness]
    and [happinessPercent] as they were.  They start at 128 and 50, so
    after any number of such updates from the start they still are 128 and
    50, and under the configured threshold of 60 [needsMoreEntertainers()]
    is true: a park that never had a guest asks for entertainers. *)
Theorem update_without_happiness_data :
  forall (h : Host) (gfa : GuestFeedbackAnalyzer.t) (earlier : list Host),
    noHappinessData h = true ->
    Forall (fun h' => noHappinessData h' = true) earlier ->
    (GuestFeedbackAnalyzer.averageHappiness (GuestFeedbackAnalyzer.update h gfa)
       = GuestFeedbackAnalyzer.averageHappiness gfa
     /\ GuestFeedbackAnalyzer.happinessPercent (GuestFeedbackAnalyzer.update h gfa)
       = GuestFeedbackAnalyzer.happinessPercent gfa)
    /\ GuestFeedbackAnalyzer.averageHappiness GuestFeedbackAnalyzer.initial = 128%Q
    /\ GuestFeedbackAnalyzer.happinessPercent GuestFeedbackAnalyzer.initial = 50
    /\ entertainerHappinessThreshold CONFIG = 60
    /\ let never :=
         GuestFeedbackAnalyzer.update h
           (fold_left (fun g h' => GuestFeedbackAnalyzer.update h' g) earlier
              GuestFeedbackAnalyzer.initial) in
       GuestFeedbackAnalyzer.averageHappiness never = 128%Q
       /\ GuestFeedbackAnalyzer.happinessPercent never = 50
       /\ GuestFeedbackAnalyzer.needsMoreEntertainers CONFIG never = true.
Proof.
  intros h gfa earlier Hh Hearlier.
  split; [now apply update_noHappinessData |].
  split; [reflexivity |]. split; [reflexivity |]. split; [reflexivity |].
  cbn zeta.
  assert (Hfold : forall g0,
             GuestFeedbackAnalyzer.averageHappiness
               (fold_left (fun g h' => GuestFeedbackAnalyzer.update h' g) earlier g0)
               = GuestFeedbackAnalyzer.averageHappiness g0
             /\ GuestFeedbackAnalyzer.happinessPercent
                  (fold_left (fun g h' => GuestFeedbackAnalyzer.update h' g) earlier g0)
               = GuestFeedbackAnalyzer.happinessPercent g0).
  { induction Hearlier as [| h' hs Hh' _ IH]; intros g0; cbn [fold_left]; [now split |].
    destruct (IH (GuestFeedbackAnalyzer.update h' g0)) as [-> ->].
    now apply update_noHappinessData. }
  destruct (update_noHappinessData h
              (fold_left (fun g h' => GuestFeedbackAnalyzer.update h' g) earlier
                 GuestFeedbackAnalyzer.initial) Hh) as [Havg Hpct].
  destruct (Hfold GuestFeedbackAnalyzer.initial) as [Havg0 Hpct0].
  unfold GuestFeedbackAnalyzer.needsMoreEntertainers.
  rewrite Havg, Hpct, Havg0, Hpct0. repeat split.
Qed.

(** ** Statistics *)

(** C9. [resetStatistics()] sets every counter and both frame-time gauges
    to zero, except the auto-reanalyze and auto-gen-zones counters, which
    keep the values they had. *)
Theorem resetStatistics_preserves_auto_counters :
  forall s : StaffManagerV2.Statistics,
    let s' := StaffManagerV2.resetStatistics s in
    StaffManagerV2.autoReanalyzeCount s' = StaffManagerV2.autoReanalyzeCount s
    /\ StaffManagerV2.autoGenZonesCount s' = StaffManagerV2.autoGenZonesCount s
    /\ StaffManagerV2.totalStaff s' = 0
    /\ StaffManagerV2.handymenCount s' = 0
    /\ StaffManagerV2.mechanicsCount s' = 0
    /\ StaffManagerV2.securityCount s' = 0
    /\ StaffManagerV2.entertainersCount s' = 0
    /\ StaffManagerV2.staffHired s' = 0
    /\ StaffManagerV2.staffFired s' = 0
    /\ StaffManagerV2.ordersChanged s' = 0
    /\ StaffManagerV2.patrolZonesSet s' = 0
    /\ StaffManagerV2.patrolZonesFailed s' = 0
    /\ StaffManagerV2.dispatchesMade s' = 0
    /\ StaffManagerV2.litterCleaned s' = 0
    /\ StaffManagerV2.ridesFixed s' = 0
    /\ StaffManagerV2.ridesInspected s' = 0
    /\ StaffManagerV2.vandalsStopped s' = 0
    /\ StaffManagerV2.lastFrameTime s' = 0%Q
    /\ StaffManagerV2.avgFrameTime s' = 0%Q.
Proof. intros s. cbn. repeat split. Qed.

(** ** Concrete runs *)

(** Two instances, host and client, draw the same entertainer costume at
    tick 4200, and it is one of the seven. *)
Lemma randomInt_same_on_host_and_client :
  DeterministicRandom.randomInt sinStandIn (smallPark None) 0 6 (Some 4200)
    = DeterministicRandom.randomInt sinStandIn smallParkClient 0 6 (Some 4200)
  /\ 0 <= DeterministicRandom.randomInt sinStandIn (smallPark None) 0 6 (Some 4200) <= 6.
Proof.
  apply (randomInt_deterministic_in_range sinStandIn (smallPark None) smallParkClient
           0 6 (Some 4200)); [reflexivity | lia].
Defined.

Section RandomOnDoublesRun.
Import PrimFloat.
#[local] Set Warnings "-inexact-float".


End RandomOnDoublesRun.

(** The scan of the 3 by 2 park. *)
Lemma smallPark_scan_completes :
  let s := fun k =>
    ParkAnalyzer.runSteps (smallPark None) k
      (ParkAnalyzer.startAnalysis (smallPark None) ParkAnalyzer.initial) in
  exists n : nat,
    (1 <= n)%nat
    /\ (forall k, ParkAnalyzer.isAnalyzed (s k) = true <-> (n <= k)%nat)
    /\ (forall k, snd (ParkAnalyzer.runAnalysisStep (smallPark None) (s k))
                  = ParkAnalyzer.isAnalyzed (s (S k)))
    /\ (forall k, exists batch,
           ParkAnalyzer.visited (s (S k)) = ParkAnalyzer.visited (s k) ++ batch
           /\ (length batch <= 500)%nat)
    /\ (forall k, NoDup (ParkAnalyzer.visited (s k)))
    /\ (forall k, (n <= k)%nat ->
           ParkAnalyzer.visited (s k) = seq 0 (3 * 2)
           /\ length (ParkAnalyzer.visited (s k)) = (3 * 2)%nat).
Proof.
  apply (scan_completes_exactly_once (smallPark None) 3 2 ParkAnalyzer.initial).
  reflexivity.
Defined.

(** What that scan finds, and that a second call changes nothing. *)
Example smallPark_scan_result :
  let pa1 := ParkAnalyzer.runSteps (smallPark None) 1
               (ParkAnalyzer.startAnalysis (smallPark None) ParkAnalyzer.initial) in
  ParkAnalyzer.isAnalyzed pa1 = true
  /\ ParkAnalyzer.visited pa1 = [0; 1; 2; 3; 4; 5]%nat
  /\ ParkAnalyzer.pathTiles pa1 = [(1, 0); (2, 0)]%nat
  /\ ParkAnalyzer.queueLocations pa1 = [(1, 0)]%nat
  /\ ParkAnalyzer.entranceLocations pa1 = [(0, 0)]%nat
  /\ ParkAnalyzer.rideLocations pa1 = [(0%nat, 1%nat, 7); (1%nat, 1%nat, 7)]
  /\ ParkAnalyzer.totalRides pa1 = 1%nat
  /\ ParkAnalyzer.runSteps (smallPark None) 2
       (ParkAnalyzer.startAnalysis (smallPark None) ParkAnalyzer.initial) = pa1.
Proof. vm_compute. repeat split. Qed.

(** A patrol request far outside the 3 by 2 park is pulled inside it. *)
Lemma smallPark_patrol_area_clamped :
  exists tx1 ty1 tx2 ty2 : Z,
    ActionQueue.queue
      (StaffManager.setStaffPatrolArea (smallPark None) ActionQueue.initial (Some 5)
         (-7 # 2) (1 # 2) 99 (3 # 4) 0)
      = ActionQueue.queue ActionQueue.initial ++
        [{| action := "staffsetpatrolarea";
            args := PatrolAreaArgs 5 (tx1 * 32) (ty1 * 32) (tx2 * 32) (ty2 * 32) 0;
            callback := Some OnPatrolAreaSet |}]
    /\ 0 <= tx1 <= tx2 /\ tx2 <= Z.of_nat (fst (mapDims (smallPark None))) - 1
    /\ 0 <= ty1 <= ty2 /\ ty2 <= Z.of_nat (snd (mapDims (smallPark None))) - 1.
Proof.
  apply (setStaffPatrolArea_clamped (smallPark None) ActionQueue.initial 5
           (-7 # 2) (1 # 2) 99 (3 # 4) 0);
    [reflexivity | lia | simpl; lia | simpl; lia].
Defined.

Example smallPark_patrol_area_value :
  ActionQueue.queue
    (StaffManager.setStaffPatrolArea (smallPark None) ActionQueue.initial (Some 5)
       (-7 # 2) (1 # 2) 99 (3 # 4) 0)
  = [{| action := "staffsetpatrolarea";
        args := PatrolAreaArgs 5 0 0 64 0 0;
        callback := Some OnPatrolAreaSet |}].
Proof. vm_compute. reflexivity. Qed.

(** A client queues nothing, and neither does an id that is not a number
    or is negative. *)
Example patrol_area_refused :
  StaffManager.setStaffPatrolArea smallParkClient ActionQueue.initial (Some 5) 0 0 1 1 0
    = ActionQueue.initial
  /\ StaffManager.setStaffPatrolArea (smallPark None) ActionQueue.initial None 0 0 1 1 0
    = ActionQueue.initial
  /\ StaffManager.setStaffPatrolArea (smallPark None) ActionQueue.initial (Some (-1)) 0 0 1 1 0
    = ActionQueue.initial.
Proof. vm_compute. repeat split. Qed.

(** The handyman target for 1234 guests under the shipped configuration. *)
Lemma handyman_target_for_1234_guests :
  StaffManager.roleTarget CONFIG "handyman" 1234
    = Z.max (StaffManager.roleMin CONFIG "handyman")
        (Z.min (StaffManager.roleMax CONFIG "handyman")
           (Math_ceil (inject_Z 1234 * StaffManager.roleRatio CONFIG "handyman")%Q))
  /\ StaffManager.roleMin CONFIG "handyman"
     <= StaffManager.roleTarget CONFIG "handyman" 1234
     <= StaffManager.roleMax CONFIG "handyman".
Proof.
  apply (hire_target_within_limits CONFIG "handyman" 1234);
    [change (2 <= 50); lia | lia].
Defined.

Example hire_targets :
  StaffManager.roleTarget CONFIG "handyman" 1234 = 13
  /\ StaffManager.roleTarget CONFIG "handyman" 0 = 2
  /\ StaffManager.roleTarget CONFIG "handyman" 100000 = 50
  /\ StaffManager.roleTarget CONFIG "mechanic" 7 = 2
  /\ StaffManager.roleTarget CONFIG "security" 501 = 2
  /\ StaffManager.roleTarget CONFIG "entertainer" 0 = 0.
Proof. vm_compute. repeat split. Qed.

(** A park whose only guests report no happiness, after an update of a
    guest-less park and one whose guest query threw. *)
Lemma guestless_park_wants_entertainers :
  (GuestFeedbackAnalyzer.averageHappiness
     (GuestFeedbackAnalyzer.update (smallPark (Some [Some (guestOf None); None]))
        GuestFeedbackAnalyzer.initial)
     = GuestFeedbackAnalyzer.averageHappiness GuestFeedbackAnalyzer.initial
   /\ GuestFeedbackAnalyzer.happinessPercent
        (GuestFeedbackAnalyzer.update (smallPark (Some [Some (guestOf None); None]))
           GuestFeedbackAnalyzer.initial)
     = GuestFeedbackAnalyzer.happinessPercent GuestFeedbackAnalyzer.initial)
  /\ GuestFeedbackAnalyzer.averageHappiness GuestFeedbackAnalyzer.initial = 128%Q
  /\ GuestFeedbackAnalyzer.happinessPercent GuestFeedbackAnalyzer.initial = 50
  /\ entertainerHappinessThreshold CONFIG = 60
  /\ let never :=
       GuestFeedbackAnalyzer.update (smallPark (Some [Some (guestOf None); None]))
         (fold_left (fun g h' => GuestFeedbackAnalyzer.update h' g)
            [smallPark (Some []); smallPark None] GuestFeedbackAnalyzer.initial) in
     GuestFeedbackAnalyzer.averageHappiness never = 128%Q
     /\ GuestFeedbackAnalyzer.happinessPercent never = 50
     /\ GuestFeedbackAnalyzer.needsMoreEntertainers CONFIG never = true.
Proof.
  apply (update_without_happiness_data (smallPark (Some [Some (guestOf None); None]))
           GuestFeedbackAnalyzer.initial [smallPark (Some []); smallPark None]).
  - reflexivity.
  - repeat constructor.
Defined.

(** Through [update]: guests at happiness 102 of 255 average 40%, guests
    at 156 average 61%. *)
Example happiness_scenarios :
  let at40 := GuestFeedbackAnalyzer.update
                (smallPark (Some [Some (guestOf (Some 102)); Some (guestOf (Some 102))]))
                GuestFeedbackAnalyzer.initial in
  let at61 := GuestFeedbackAnalyzer.update
                (smallPark (Some [Some (guestOf (Some 156)); None; Some (guestOf None)]))
                GuestFeedbackAnalyzer.initial in
  GuestFeedbackAnalyzer.happinessPercent at40 = 40
  /\ GuestFeedbackAnalyzer.needsMoreEntertainers CONFIG at40 = true
  /\ GuestFeedbackAnalyzer.happinessPercent at61 = 61
  /\ GuestFeedbackAnalyzer.needsMoreEntertainers CONFIG at61 = false.
Proof. vm_compute. repeat split. Qed.

(** Through [CrimeDetector.update]: the scanned 3 by 2 park has one broken
    path, below the threshold of 3. *)
Example crime_scenario :
  let pa1 := ParkAnalyzer.runSteps (smallPark None) 1
               (ParkAnalyzer.startAnalysis (smallPark None) ParkAnalyzer.initial) in
  let cd := CrimeDetector.update (smallPark None) pa1 CrimeDetector.initial in
  CrimeDetector.vandalismCount cd = 1
  /\ CrimeDetector.needsMoreSecurity CONFIG cd = false.
Proof. vm_compute. repeat split. Qed.

(** The queue at work: five queued effects, three dispatched by the host
    in one call, none by a client, which empties its queue instead. *)
Example queue_scenario :
  let gateway := fun (name : string) (a : ActionArgs) (g : nat) => (S g, Some 0) in
  let five :=
    fold_left (fun aq id =>
                 StaffManager.setStaffPatrolArea (smallPark None) aq (Some id) 0 0 1 1 0)
      [10; 11; 12; 13; 14] ActionQueue.initial in
  let '(aqHost, gHost, sentHost) := ActionQueue.process nat gateway (smallPark None) five 0%nat in
  let '(aqClient, gClient, sentClient) := ActionQueue.process nat gateway smallParkClient five 0%nat in
  length (ActionQueue.queue five) = 5%nat
  /\ length sentHost = 3%nat /\ length (ActionQueue.queue aqHost) = 2%nat /\ gHost = 3%nat
  /\ sentClient = [] /\ ActionQueue.queue aqClient = [] /\ gClient = 0%nat.
Proof. vm_compute. repeat split. Qed.

(** * Further properties of the modelled code *)

(** ** SpatialHash *)

Section SpatialHashFacts.
Context {A : Type}.
Implicit Types (sh : SpatialHash.t A) (cs : list ((Z * Z) * list (Z * Z * A))).

Lemma classic_in (key : Z * Z) (ks : list (Z * Z)) : In key ks \/ ~ In key ks.
Proof. destruct (in_dec (fun a b => decide (a = b)) key ks); [now left | now right]. Qed.

Lemma count_from (cs : list ((Z * Z) * list (Z * Z * A))) :
  forall n : nat,
    fold_left (fun total c => (total + length (snd c))%nat) cs n
    = (n + fold_left (fun total c => (total + length (snd c))%nat) cs 0)%nat.
Proof.
  induction cs as [| c cs IH]; intros n; cbn [fold_left]; [lia |].
  rewrite IH, (IH (0 + length (snd c))%nat). lia.
Qed.

Lemma bucket_push (key key' : Z * Z) (entry : Z * Z * A) cs :
  SpatialHash.bucket key' (SpatialHash.push key entry cs)
  = if decide (key = key') then SpatialHash.bucket key' cs ++ [entry]
    else SpatialHash.bucket key' cs.
Proof.
  induction cs as [| [k es] cs IH]; cbn [SpatialHash.push SpatialHash.bucket].
  - destruct (decide (key = key')); reflexivity.
  - destruct (decide (k = key)) as [-> | Hk]; cbn [SpatialHash.bucket].
    + destruct (decide (key = key')); reflexivity.
    + destruct (decide (k = key')) as [-> | Hk'].
      * destruct (decide (key = key')); [congruence | reflexivity].
      * exact IH.
Qed.

Lemma count_push (key : Z * Z) (entry : Z * Z * A) cs :
  fold_left (fun total c => (total + length (snd c))%nat)
    (SpatialHash.push key entry cs) 0%nat
  = S (fold_left (fun total c => (total + length (snd c))%nat) cs 0%nat).
Proof.
  induction cs as [| [k es] cs IH]; cbn [SpatialHash.push].
  - reflexivity.
  - destruct (decide (k = key)); cbn [fold_left snd].
    + rewrite count_from, (count_from cs (0 + length es)), length_app. cbn [length]. lia.
    + rewrite count_from, (count_from cs (0 + length es)), IH. lia.
Qed.

Lemma keys_push (key : Z * Z) (entry : Z * Z * A) cs :
  (In key (map fst cs) -> map fst (SpatialHash.push key entry cs) = map fst cs)
  /\ (~ In key (map fst cs) -> map fst (SpatialHash.push key entry cs) = map fst cs ++ [key]).
Proof.
  induction cs as [| [k es] cs [IHin IHnin]]; cbn [SpatialHash.push map fst].
  - split; [intros [] | reflexivity].
  - destruct (decide (k = key)) as [-> | Hk]; cbn [map fst].
    + split; [reflexivity | intros Hn; exfalso; apply Hn; now left].
    + split.
      * intros [-> | Hin]; [congruence | now rewrite IHin].
      * intros Hn. rewrite IHnin; [reflexivity | intros Hin; apply Hn; now right].
Qed.

Lemma buckets_push (key : Z * Z) (entry : Z * Z * A) cs (k : Z * Z) (es : list (Z * Z * A)) :
  In (k, es) (SpatialHash.push key entry cs) ->
  (k = key /\ exists es0, es = es0 ++ [entry] /\ (es0 = [] \/ In (k, es0) cs))
  \/ In (k, es) cs.
Proof.
  induction cs as [| [k0 es0] cs IH]; cbn [SpatialHash.push].
  - intros [Heq | []]. injection Heq as <- <-. left. split; [reflexivity |].
    exists []. split; [reflexivity | now left].
  - destruct (decide (k0 = key)) as [-> | Hk].
    + intros [Heq | Hin].
      * injection Heq as <- <-. left. split; [reflexivity |].
        exists es0. split; [reflexivity | right; now left].
      * right. now right.
    + intros [Heq | Hin].
      * right. now left.
      * destruct (IH Hin) as [(-> & es1 & -> & Hes1) | Hin'].
        -- left. split; [reflexivity |]. exists es1. split; [reflexivity |].
           destruct Hes1 as [-> | Hes1]; [now left | right; now right].
        -- right. now right.
Qed.

Lemma get_add sh (x y : Z) (v : A) (x' y' : Z) :
  SpatialHash.get (SpatialHash.add sh x y v) x' y'
  = if decide (SpatialHash.getKey sh x y = SpatialHash.getKey sh x' y')
    then SpatialHash.get sh x' y' ++ [(x, y, v)]
    else SpatialHash.get sh x' y'.
Proof. unfold SpatialHash.get, SpatialHash.add. cbn. apply bucket_push. Qed.

Lemma wellFormed_add sh (x y : Z) (v : A) :
  wellFormed sh -> wellFormed (SpatialHash.add sh x y v).
Proof.
  intros [Hnd Hb]. split.
  - cbn [SpatialHash.add SpatialHash.cells].
    destruct (keys_push (SpatialHash.getKey sh x y) (x, y, v) (SpatialHash.cells sh))
      as [Hin Hnin].
    destruct (classic_in (SpatialHash.getKey sh x y) (map fst (SpatialHash.cells sh)))
      as [Hk | Hn]; [now rewrite Hin |].
    rewrite (Hnin Hn). apply NoDup_app. split; [exact Hnd |]. split.
    + intros k Hk Hk'. apply list_elem_of_In in Hk.
      apply list_elem_of_singleton in Hk'. subst k. contradiction.
    + apply NoDup_singleton.
  - intros k es Hin. cbn [SpatialHash.add SpatialHash.cells] in Hin.
    change (SpatialHash.getKey (SpatialHash.add sh x y v))
      with (SpatialHash.getKey sh).
    destruct (buckets_push _ _ _ _ _ Hin) as [(-> & es0 & -> & Hes0) | Hold].
    + split; [now destruct es0 |].
      intros e He. apply in_app_or in He as [He | [<- | []]]; [| reflexivity].
      destruct Hes0 as [-> | Hes0]; [destruct He |]. now apply (Hb _ _ Hes0).
    + now apply Hb.
Qed.

End SpatialHashFacts.

Section SpatialHashRuns.
Context {A : Type}.

Lemma cellSize_addAll (entries : list (Z * Z * A)) :
  forall sh : SpatialHash.t A,
    SpatialHash.cellSize (SpatialHash.addAll sh entries) = SpatialHash.cellSize sh.
Proof.
  induction entries as [| e es IH]; intros sh; [reflexivity |].
  unfold SpatialHash.addAll. cbn [fold_left]. fold (SpatialHash.addAll (A := A)).
  exact (IH _).
Qed.

Lemma get_addAll_from (entries : list (Z * Z * A)) :
  forall (sh : SpatialHash.t A) (x y : Z),
    SpatialHash.get (SpatialHash.addAll sh entries) x y
    = SpatialHash.get sh x y
      ++ List.filter (fun e => bool_decide (SpatialHash.getKey sh (fst (fst e)) (snd (fst e))
                                            = SpatialHash.getKey sh x y)) entries.
Proof.
  induction entries as [| [[ex ey] ev] es IH]; intros sh x y.
  - cbn. now rewrite app_nil_r.
  - change (SpatialHash.addAll sh ((ex, ey, ev) :: es))
      with (SpatialHash.addAll (SpatialHash.add sh ex ey ev) es).
    rewrite IH, get_add. cbn [List.filter fst snd].
    change (SpatialHash.getKey (SpatialHash.add sh ex ey ev)) with (SpatialHash.getKey sh).
    destruct (decide (SpatialHash.getKey sh ex ey = SpatialHash.getKey sh x y)) as [Hk | Hk].
    + rewrite (bool_decide_eq_true_2 _ Hk). now rewrite <- app_assoc.
    + now rewrite (bool_decide_eq_false_2 _ Hk).
Qed.

Lemma count_wellFormed_addAll (entries : list (Z * Z * A)) :
  forall sh : SpatialHash.t A,
    wellFormed sh ->
    SpatialHash.count (SpatialHash.addAll sh entries)
      = (SpatialHash.count sh + length entries)%nat
    /\ wellFormed (SpatialHash.addAll sh entries).
Proof.
  induction entries as [| [[ex ey] ev] es IH]; intros sh Hwf.
  - cbn [SpatialHash.addAll fold_left length]. split; [lia | exact Hwf].
  - change (SpatialHash.addAll sh ((ex, ey, ev) :: es))
      with (SpatialHash.addAll (SpatialHash.add sh ex ey ev) es).
    destruct (IH _ (wellFormed_add sh ex ey ev Hwf)) as [-> Hwf'].
    split; [| exact Hwf'].
    unfold SpatialHash.count. cbn [SpatialHash.add SpatialHash.cells].
    rewrite count_push. cbn [length]. lia.
Qed.

End SpatialHashRuns.

(** X1. A spatial hash created by [new SpatialHash(size)] never has cell
    size 0, and after any run of [add] calls [get(x, y)] returns exactly
    the entries added to the cell of [(x, y)], in the order they were
    added; nothing is lost and nothing leaks in from another cell. *)
Theorem SpatialHash_get_returns_cell :
  forall (A : Type) (size : option Z) (entries : list (Z * Z * A)) (x y : Z),
    let sh0 := SpatialHash.new (A := A) size in
    SpatialHash.cellSize sh0 <> 0
    /\ SpatialHash.get (SpatialHash.addAll sh0 entries) x y
       = List.filter (fun e => bool_decide (SpatialHash.getKey sh0 (fst (fst e)) (snd (fst e))
                                            = SpatialHash.getKey sh0 x y)) entries.
Proof.
  intros A size entries x y sh0. split.
  - unfold sh0, SpatialHash.new. cbn [SpatialHash.cellSize].
    destruct (Z.eqb_spec (or_zero size) 0); lia.
  - rewrite get_addAll_from. reflexivity.
Qed.

(** X2. After any run of [add] calls on a hash created by
    [new SpatialHash(size)], also when it has been cleared since,
    [count()] is the number of entries added, the bucket keys are
    pairwise different, no bucket is empty, and every entry lies in the
    bucket of its own cell: the buckets partition the entries. *)
Theorem SpatialHash_buckets_partition :
  forall (A : Type) (size : option Z) (entries : list (Z * Z * A)),
    let filled :=
      SpatialHash.addAll (SpatialHash.clear (SpatialHash.new (A := A) size)) entries in
    SpatialHash.count (SpatialHash.clear (SpatialHash.new (A := A) size)) = 0%nat
    /\ SpatialHash.count filled = length entries
    /\ NoDup (map fst (SpatialHash.cells filled))
    /\ (forall k es, In (k, es) (SpatialHash.cells filled) ->
          es <> []
          /\ forall e, In e es ->
               In e entries /\ SpatialHash.getKey filled (fst (fst e)) (snd (fst e)) = k).
Proof.
  intros A size entries. cbn zeta.
  set (sh := SpatialHash.new (A := A) size).
  assert (Hwf0 : wellFormed (SpatialHash.clear sh)).
  { split; [apply NoDup_nil_2 | intros k es []]. }
  destruct (count_wellFormed_addAll entries _ Hwf0) as [Hcount [Hnd Hb]].
  pose proof (get_addAll_from entries (SpatialHash.clear sh)) as Hgets.
  set (filled := SpatialHash.addAll (SpatialHash.clear sh) entries) in *.
  split; [reflexivity |]. split; [exact Hcount |]. split; [exact Hnd |].
  intros k es Hin. destruct (Hb k es Hin) as [Hne Hkeys]. split; [exact Hne |].
  intros e He. split; [| now apply Hkeys].
  (* the entry is in [get] of its own cell, hence among the entries added *)
  assert (Hget : SpatialHash.get filled (fst (fst e)) (snd (fst e)) = es).
  { unfold SpatialHash.get. rewrite (Hkeys e He).
    clear -Hin Hnd. induction (SpatialHash.cells filled) as [| [k0 es0] cs IH];
      [destruct Hin |].
    cbn [SpatialHash.bucket]. cbn [map fst] in Hnd. apply NoDup_cons in Hnd as [Hk0 Hnd].
    destruct Hin as [Heq | Hin].
    - injection Heq as -> ->. now rewrite decide_True.
    - rewrite decide_False; [now apply IH |].
      intros ->. apply Hk0. apply list_elem_of_In.
      change k with (fst (k, es)). now apply in_map. }
  rewrite Hgets in Hget.
  change (SpatialHash.get (SpatialHash.clear sh) (fst (fst e)) (snd (fst e)))
    with (@nil (Z * Z * A)) in Hget.
  cbn [app] in Hget. rewrite <- Hget in He. apply filter_In in He. tauto.
Qed.

(** ** PerformanceMonitor *)

Section PerformanceFacts.
Import PerformanceMonitor.

Lemma frame_window (pm : PerformanceMonitor.t) (clock : Z * Z) :
  (length (frameTimes pm) <= 30)%nat ->
  let pushed := frameTimes pm ++ [snd clock - fst clock] in
  frameTimes (frame pm clock) = skipn (length pushed - 30) pushed
  /\ (length (frameTimes (frame pm clock)) <= 30)%nat.
Proof.
  intros Hlen pushed. unfold frame, endFrame, startFrame, getElapsedMs.
  cbn [fst snd frameTimes frameStartTime]. fold pushed.
  assert (Hp : length pushed = S (length (frameTimes pm)))
    by (unfold pushed; rewrite length_app; cbn [length]; lia).
  destruct (Nat.ltb_spec 30 (length pushed)) as [Hfull | Hroom].
  - replace (length pushed - 30)%nat with 1%nat by lia.
    split; [reflexivity |]. destruct pushed; cbn [tl length] in *; lia.
  - replace (length pushed - 30)%nat with 0%nat by lia. split; [reflexivity | lia].
Qed.

Lemma frames_window (clocks : list (Z * Z)) :
  forall pm : PerformanceMonitor.t,
    (length (frameTimes pm) <= 30)%nat ->
    let all := frameTimes pm ++ map (fun c => snd c - fst c) clocks in
    frameTimes (fold_left frame clocks pm) = skipn (length all - 30) all.
Proof.
  induction clocks as [| c cs IH]; intros pm Hlen; cbn zeta; cbn [fold_left map].
  - rewrite app_nil_r. replace (length (frameTimes pm) - 30)%nat with 0%nat by lia.
    reflexivity.
  - destruct (frame_window pm c Hlen) as [Hft Hlen']. cbn zeta in Hft.
    rewrite (IH (frame pm c) Hlen'). cbn zeta. rewrite Hft.
    set (rest := map (fun c0 => snd c0 - fst c0) cs).
    set (pushed := frameTimes pm ++ [snd c - fst c]).
    replace (frameTimes pm ++ (snd c - fst c) :: rest) with (pushed ++ rest)
      by (unfold pushed; now rewrite <- app_assoc).
    assert (Hp : length pushed = S (length (frameTimes pm)))
      by (unfold pushed; rewrite length_app; cbn [length]; lia).
    destruct (Nat.le_gt_cases (length pushed) 30) as [Hroom | Hfull].
    + replace (length pushed - 30)%nat with 0%nat by lia. reflexivity.
    + replace (length pushed - 30)%nat with 1%nat by lia.
      destruct pushed as [| f fs]; [cbn [length] in Hfull; lia |].
      change (skipn 1 (f :: fs)) with fs.
      change ((f :: fs) ++ rest) with (f :: (fs ++ rest)). cbn [length] in *.
      replace (S (length (fs ++ rest)) - 30)%nat
        with (S (length (fs ++ rest) - 30))%nat by (rewrite length_app; lia).
      reflexivity.
Qed.

Lemma sum_from (frames : list Z) :
  forall acc : Z, fold_left Z.add frames acc = acc + fold_left Z.add frames 0.
Proof.
  induction frames as [| f fs IH]; intros acc; cbn [fold_left]; [lia |].
  rewrite IH, (IH (0 + f)). lia.
Qed.

Lemma sum_bounds (lo hi : Z) (frames : list Z) :
  Forall (fun f => lo <= f <= hi) frames ->
  lo * Z.of_nat (length frames) <= fold_left Z.add frames 0
                                <= hi * Z.of_nat (length frames).
Proof.
  induction 1 as [| f fs Hf _ IH]; cbn [fold_left length]; [lia |].
  rewrite sum_from. lia.
Qed.

End PerformanceFacts.

(** X3. The frame-time history is a sliding window: after any number of
    timed frames from the start it holds the elapsed times of the last 30
    frames, oldest first (all of them while there are at most 30), and so
    never more than 30 values. *)
Theorem PerformanceMonitor_keeps_last_30 :
  forall clocks : list (Z * Z),
    let elapsed := map (fun c => snd c - fst c) clocks in
    let pm := fold_left PerformanceMonitor.frame clocks PerformanceMonitor.initial in
    PerformanceMonitor.frameTimes pm = skipn (length elapsed - 30) elapsed
    /\ (length (PerformanceMonitor.frameTimes pm) <= 30)%nat
    /\ length (PerformanceMonitor.frameTimes pm) = Nat.min (length clocks) 30.
Proof.
  intros clocks elapsed pm.
  pose proof (frames_window clocks PerformanceMonitor.initial) as Hw.
  cbn [PerformanceMonitor.initial PerformanceMonitor.frameTimes length app] in Hw.
  specialize (Hw ltac:(lia)). cbn zeta in Hw. fold elapsed in Hw. fold pm in Hw.
  assert (Hlen : length elapsed = length clocks) by (unfold elapsed; apply length_map).
  rewrite Hw, length_skipn. repeat split; lia.
Qed.

(** X4. [getAverageFrameTime()] is 0 whenever the history holds no frame
    time, whatever else the monitor holds (no division by zero);
    otherwise it is the sum of the held frame times divided by their
    number, and lies between any bounds that all held frame times
    respect. *)
Theorem PerformanceMonitor_average_bounded :
  forall (pm : PerformanceMonitor.t) (lo hi : Z),
    Forall (fun f => lo <= f <= hi) (PerformanceMonitor.frameTimes pm) ->
    PerformanceMonitor.frameTimes pm <> [] ->
    (forall idle : PerformanceMonitor.t,
       PerformanceMonitor.frameTimes idle = [] ->
       PerformanceMonitor.getAverageFrameTime idle = 0%Q)
    /\ PerformanceMonitor.getAverageFrameTime PerformanceMonitor.initial = 0%Q
    /\ (PerformanceMonitor.getAverageFrameTime pm
          * inject_Z (Z.of_nat (length (PerformanceMonitor.frameTimes pm)))
        == inject_Z (fold_left Z.add (PerformanceMonitor.frameTimes pm) 0%Z))%Q
    /\ (inject_Z lo <= PerformanceMonitor.getAverageFrameTime pm)%Q
    /\ (PerformanceMonitor.getAverageFrameTime pm <= inject_Z hi)%Q.
Proof.
  intros pm lo hi Hall Hne.
  split; [intros idle Hidle; unfold PerformanceMonitor.getAverageFrameTime;
          rewrite Hidle; reflexivity |].
  split; [reflexivity |].
  unfold PerformanceMonitor.getAverageFrameTime.
  destruct (PerformanceMonitor.frameTimes pm) as [| f fs] eqn:Hft; [congruence |].
  pose proof (sum_bounds lo hi (f :: fs) Hall) as [Hlo Hhi].
  set (n := Z.of_nat (length (f :: fs))) in *.
  set (total := fold_left Z.add (f :: fs) 0) in *.
  assert (Hn : 0 < n) by (unfold n; cbn [length]; lia).
  assert (Hnq : (0 < inject_Z n)%Q) by (change 0%Q with (inject_Z 0); now rewrite <- Zlt_Qlt).
  cbn [length Nat.eqb].
  split; [field; intros Hz; rewrite Hz in Hnq; now apply Qlt_irrefl in Hnq |].
  split.
  - apply Qle_shift_div_l; [exact Hnq |]. rewrite <- inject_Z_mult, <- Zle_Qle. lia.
  - apply Qle_shift_div_r; [exact Hnq |]. rewrite <- inject_Z_mult, <- Zle_Qle. lia.
Qed.

(** ** What the world scan records *)

Section ScanContent.
Local Open Scope nat_scope.
Import ParkAnalyzer.
Variable h : Host.

(** Anything that survives one cell of the scan loop and the closing
    bookkeeping holds after any number of [runAnalysisStep] calls. *)
Lemma runSteps_invariant (P : ParkAnalyzer.t -> Prop) :
  (forall pa, P pa -> analysisProgress pa < analysisTotal pa ->
     P (advance (scanTile h (analysisProgress pa mod fst (mapDims h))
                   (analysisProgress pa / fst (mapDims h)) pa))) ->
  (forall pa a r, P pa -> P (with_rideStats pa a r)) ->
  forall (k : nat) (pa : ParkAnalyzer.t), P pa -> P (runSteps h k pa).
Proof.
  intros Hcell Hstats.
  assert (Hloop : forall budget pa, P pa -> P (scanLoop h (fst (mapDims h)) budget pa)).
  { induction budget as [| b IH]; intros pa Hpa; cbn [scanLoop]; [exact Hpa |].
    destruct (Nat.ltb_spec (analysisProgress pa) (analysisTotal pa)); [| exact Hpa].
    apply IH. now apply Hcell. }
  assert (Hstep : forall pa, P pa -> P (fst (runAnalysisStep h pa))).
  { intros pa Hpa. unfold runAnalysisStep.
    destruct (isAnalyzed pa); [exact Hpa |].
    destruct (_ <=? _); cbn [fst]; [| now apply Hloop].
    unfold updateRideStats. destruct (map_rides h); apply Hstats; [| now apply Hloop].
    apply Hstats. now apply Hloop. }
  induction k as [| k IH]; intros pa Hpa; cbn [runSteps]; [exact Hpa |].
  apply IH. now apply Hstep.
Qed.

(** How one element changes the four collections. *)
Lemma classify_collections (x y : nat) (pa : ParkAnalyzer.t) (e : option Element) :
  pathTiles (classify x y pa e)
    = pathTiles pa ++ (if holds isFootpath e then [(x, y)] else [])
  /\ queueLocations (classify x y pa e)
    = queueLocations pa ++ (if holds isQueuePath e then [(x, y)] else [])
  /\ entranceLocations (classify x y pa e)
    = entranceLocations pa ++ (if holds isEntrance e then [(x, y)] else [])
  /\ (forall r, In (x, y, r) (rideLocations (classify x y pa e))
                <-> In (x, y, r) (rideLocations pa) \/ holds (isTrackOf r) e = true)
  /\ (forall x' y' r, (x', y') <> (x, y) ->
        In (x', y', r) (rideLocations (classify x y pa e)) <-> In (x', y', r) (rideLocations pa))
  /\ totalPathTiles (classify x y pa e)
    = totalPathTiles pa + (if holds isFootpath e then 1 else 0).
Proof.
  destruct e as [[isQueue b1 b2 | [r0 |] | |] |];
    cbn [classify holds isFootpath isQueuePath isEntrance isTrackOf
         pathTiles queueLocations entranceLocations rideLocations totalPathTiles];
    rewrite ?app_nil_r, ?Nat.add_0_r;
    repeat split; try reflexivity; try tauto; try (destruct isQueue; now rewrite ?app_nil_r);
    try lia; try (intros [? | ?]; [assumption | discriminate]).
  - intros Hin. apply in_app_or in Hin as [Hin | [Heq | []]]; [now left |].
    injection Heq as <-. right. apply Z.eqb_refl.
  - intros [Hin | Heq]; apply in_or_app; [now left |].
    apply Z.eqb_eq in Heq as ->. right. now left.
  - intros Hin. apply in_app_or in Hin as [Hin | [Heq | []]]; [exact Hin |].
    injection Heq as <- <- _. congruence.
  - intros Hin. apply in_or_app. now left.
Qed.

End ScanContent.

Section ScanRecords.
Local Open Scope nat_scope.
Import ParkAnalyzer.
Variable h : Host.

Lemma scanTile_collections (x y : nat) (pa : ParkAnalyzer.t) :
  let pa' := scanTile h x y pa in
  (forall q, In q (pathTiles pa')
             <-> In q (pathTiles pa) \/ (q = (x, y) /\ tileHas h isFootpath x y = true))
  /\ (forall q, In q (queueLocations pa')
             <-> In q (queueLocations pa) \/ (q = (x, y) /\ tileHas h isQueuePath x y = true))
  /\ (forall q, In q (entranceLocations pa')
             <-> In q (entranceLocations pa) \/ (q = (x, y) /\ tileHas h isEntrance x y = true))
  /\ (forall x' y' r, In (x', y', r) (rideLocations pa')
             <-> In (x', y', r) (rideLocations pa)
                 \/ ((x', y') = (x, y) /\ tileHas h (isTrackOf r) x y = true))
  /\ totalPathTiles pa' + length (pathTiles pa) = totalPathTiles pa + length (pathTiles pa').
Proof.
  unfold scanTile, tileHas. destruct (map_getTile h x y) as [elements |]; cbn zeta.
  2: { repeat split; try tauto; try lia;
         try (intros [? | [_ ?]]; [assumption | discriminate]). }
  revert pa. induction elements as [| e es IH]; intros pa; cbn [fold_left existsb].
  - repeat split; try tauto; try lia;
      try (intros [? | [_ ?]]; [assumption | discriminate]).
  - destruct (IH (classify x y pa e)) as (Hp & Hq & He & Hr & Ht).
    destruct (classify_collections x y pa e) as (Cp & Cq & Ce & Cr & Cr' & Ct).
    split; [| split; [| split; [| split]]].
    + intros q. rewrite Hp, Cp, in_app_iff, orb_true_iff.
      destruct (holds isFootpath e); cbn [In]; intuition congruence.
    + intros q. rewrite Hq, Cq, in_app_iff, orb_true_iff.
      destruct (holds isQueuePath e); cbn [In]; intuition congruence.
    + intros q. rewrite He, Ce, in_app_iff, orb_true_iff.
      destruct (holds isEntrance e); cbn [In]; intuition congruence.
    + intros x' y' r. rewrite Hr, orb_true_iff.
      destruct (decide ((x', y') = (x, y))) as [Heq | Hne].
      * injection Heq as -> ->. rewrite Cr. tauto.
      * rewrite (Cr' x' y' r Hne). tauto.
    + rewrite Ct in Ht. rewrite Cp, length_app in Ht.
      destruct (holds isFootpath e); cbn [length] in Ht; lia.
Qed.

(** The bookkeeping of the path collections. *)
Lemma paths_bookkeeping (pa0 : ParkAnalyzer.t) (k : nat) :
  let pa := runSteps h k (startAnalysis h pa0) in
  totalPathTiles pa = length (pathTiles pa)
  /\ (forall q, In q (queueLocations pa) -> In q (pathTiles pa)).
Proof.
  apply (runSteps_invariant h
           (fun pa => totalPathTiles pa = length (pathTiles pa)
                      /\ forall q, In q (queueLocations pa) -> In q (pathTiles pa))).
  - intros pa [Hn Hq] _. cbn [advance totalPathTiles pathTiles queueLocations].
    destruct (scanTile_collections (analysisProgress pa mod fst (mapDims h))
                (analysisProgress pa / fst (mapDims h)) pa) as (Hp & Hqq & _ & _ & Ht).
    cbn zeta in *. split; [lia |].
    intros q Hin. apply Hqq in Hin as [Hin | [-> Hhas]]; apply Hp;
      [left; now apply Hq | right; split; [reflexivity |]].
    unfold tileHas in *. destruct (map_getTile h _ _) as [els |]; [| discriminate].
    apply existsb_exists in Hhas as (e & He & Hqe). apply existsb_exists. exists e.
    split; [exact He |]. destruct e as [[[] ? ? | | |] |]; try discriminate; reflexivity.
  - intros pa a r Hpa. exact Hpa.
  - split; [reflexivity | intros q []].
Qed.

End ScanRecords.

Section ScanCoordinates.
Local Open Scope nat_scope.

Lemma cell_of_index (W H p : nat) :
  p < W * H -> p mod W < W /\ p / W < H.
Proof.
  intros Hp. assert (HW : W <> 0) by (intros ->; lia). split.
  - now apply Nat.mod_upper_bound.
  - apply Nat.Div0.div_lt_upper_bound. lia.
Qed.

Lemma index_of_cell (W H x y : nat) :
  x < W -> y < H ->
  y * W + x < W * H /\ (y * W + x) mod W = x /\ (y * W + x) / W = y.
Proof.
  intros Hx Hy. assert (HW : W <> 0) by lia. split; [nia |]. split.
  - rewrite Nat.add_comm, Nat.Div0.mod_add. now apply Nat.mod_small.
  - rewrite Nat.add_comm, Nat.div_add by exact HW. rewrite Nat.div_small by exact Hx. lia.
Qed.

End ScanCoordinates.

(** X5. Through the whole scan the path counter and the path list agree
    ([totalPathTiles] is the length of [pathTiles]), and every queue-line
    tile recorded is also recorded as a path tile. *)
Theorem scan_path_bookkeeping :
  forall (h : Host) (pa0 : ParkAnalyzer.t) (k : nat),
    let pa := ParkAnalyzer.runSteps h k (ParkAnalyzer.startAnalysis h pa0) in
    ParkAnalyzer.totalPathTiles pa = length (ParkAnalyzer.pathTiles pa)
    /\ (forall q, In q (ParkAnalyzer.queueLocations pa) -> In q (ParkAnalyzer.pathTiles pa))
    /\ ParkAnalyzer.pathTiles (ParkAnalyzer.startAnalysis h pa0) = []
    /\ ParkAnalyzer.totalPathTiles (ParkAnalyzer.startAnalysis h pa0) = 0%nat.
Proof.
  intros h pa0 k. cbn zeta.
  destruct (paths_bookkeeping h pa0 k) as [Hn Hq]. repeat split; assumption.
Qed.

(** ** The scan over a world that changes between calls *)

Section ScanLive.
Local Open Scope nat_scope.
Import ParkAnalyzer.

Lemma runStepsOn_snoc (worlds : list Host) (h : Host) :
  forall pa, runStepsOn (worlds ++ [h]) pa = fst (runAnalysisStep h (runStepsOn worlds pa)).
Proof.
  induction worlds as [| w worlds IH]; intros pa; [reflexivity |].
  cbn [app runStepsOn]. apply IH.
Qed.

(** One more call, whatever the world looks like: the control state
    moves on by one batch. *)
Lemma runAnalysisStep_next (h : Host) (pa : ParkAnalyzer.t) (k T : nat) :
  control pa
    = (Nat.min (500 * k) T, T, (0 <? k) && (T <=? 500 * k), seq 0 (Nat.min (500 * k) T)) ->
  control (fst (runAnalysisStep h pa))
    = (Nat.min (500 * S k) T, T, (0 <? S k) && (T <=? 500 * S k),
       seq 0 (Nat.min (500 * S k) T)).
Proof.
  intros IH. apply control_inv in IH as (Hp & Ht & Ha & Hv).
  destruct (isAnalyzed pa) eqn:Hflag.
  - rewrite runAnalysisStep_done by exact Hflag. cbn [fst]. unfold control.
    rewrite Hp, Ht, Hv, Hflag.
    symmetry in Ha. apply andb_true_iff in Ha as [Hk HT].
    apply Nat.ltb_lt in Hk. apply Nat.leb_le in HT.
    replace (Nat.min (500 * k) T) with T by lia.
    replace (Nat.min (500 * S k) T) with T by lia.
    replace (0 <? S k) with true by (symmetry; apply Nat.ltb_lt; lia).
    replace (T <=? 500 * S k) with true by (symmetry; apply Nat.leb_le; lia).
    reflexivity.
  - destruct (runAnalysisStep_scanning h pa Hflag) as [Hc _]. cbn zeta in Hc.
    rewrite Hc, Hp, Ht, Hv. clear Hc.
    assert (Hk : k = 0 \/ 500 * k < T).
    { symmetry in Ha. apply andb_false_iff in Ha as [Hk | HT].
      - apply Nat.ltb_ge in Hk. lia.
      - apply Nat.leb_gt in HT. lia. }
    assert (Hnew : (if Nat.min (500 * k) T <? T
                    then Nat.min (Nat.min (500 * k) T + 500) T
                    else Nat.min (500 * k) T) = Nat.min (500 * S k) T).
    { destruct (Nat.ltb_spec (Nat.min (500 * k) T) T); lia. }
    rewrite Hnew.
    replace (0 <? S k) with true by (symmetry; apply Nat.ltb_lt; lia).
    cbn [andb].
    assert (Hflag' : (T <=? Nat.min (500 * S k) T) = (T <=? 500 * S k)).
    { destruct (Nat.leb_spec T (500 * S k));
        [apply Nat.leb_le | apply Nat.leb_gt]; lia. }
    rewrite Hflag'. f_equal.
    replace (Nat.min (500 * S k) T)
      with (Nat.min (500 * k) T + (Nat.min (500 * S k) T - Nat.min (500 * k) T)) at 2 by lia.
    now rewrite seq_app.
Qed.

(** Where the scan stands after one call per listed world. *)
Lemma runStepsOn_control (h0 : Host) (pa0 : ParkAnalyzer.t) (worlds : list Host) :
  let T := analysisTotal (startAnalysis h0 pa0) in
  let k := length worlds in
  control (runStepsOn worlds (startAnalysis h0 pa0))
    = (Nat.min (500 * k) T, T, (0 <? k) && (T <=? 500 * k), seq 0 (Nat.min (500 * k) T)).
Proof.
  cbn zeta. induction worlds as [| h worlds IH] using rev_ind.
  - cbn [runStepsOn length]. unfold control. reflexivity.
  - rewrite runStepsOn_snoc, length_app. cbn [length]. rewrite Nat.add_1_r.
    apply runAnalysisStep_next, IH.
Qed.

Lemma recordsLive_extend (worlds : list Host) (h : Host) (W : nat) (pa : ParkAnalyzer.t) :
  analysisProgress pa <= 500 * length worlds ->
  recordsLive worlds W pa -> recordsLive (worlds ++ [h]) W pa.
Proof.
  intros Hle Hrec.
  assert (Hsame : forall test x y,
            scannedLive worlds W (analysisProgress pa) test x y
            <-> scannedLive (worlds ++ [h]) W (analysisProgress pa) test x y).
  { intros test x y.
    assert (Hidx : forall p, p < analysisProgress pa -> p / 500 < length worlds).
    { intros p Hp. apply Nat.Div0.div_lt_upper_bound. lia. }
    split; intros (p & w & Hp & Hx & Hy & Hnth & Hhas); exists p, w;
      repeat split; try assumption.
    - rewrite nth_error_app1 by (apply Hidx, Hp). exact Hnth.
    - rewrite nth_error_app1 in Hnth by (apply Hidx, Hp). exact Hnth. }
  intros x y. destruct (Hrec x y) as (Hp & Hq & He & Hr).
  split; [| split; [| split]].
  - rewrite Hp. apply Hsame.
  - rewrite Hq. apply Hsame.
  - rewrite He. apply Hsame.
  - intros r. rewrite Hr. apply Hsame.
Qed.

(** One cell of the loop, looked at in the world of the current call. *)
Lemma cell_recordsLive (worlds : list Host) (h : Host) (W : nat) (pa : ParkAnalyzer.t) :
  nth_error worlds (analysisProgress pa / 500) = Some h ->
  recordsLive worlds W pa ->
  recordsLive worlds W
    (advance (scanTile h (analysisProgress pa mod W) (analysisProgress pa / W) pa)).
Proof.
  intros Hnth Hpa x y. set (p := analysisProgress pa) in *.
  cbn [advance pathTiles queueLocations entranceLocations rideLocations analysisProgress].
  assert (Hprog : analysisProgress (scanTile h (p mod W) (p / W) pa) = p)
    by exact (f_equal (fun c => fst (fst (fst c))) (scanTile_control h (p mod W) (p / W) pa)).
  rewrite Hprog.
  destruct (scanTile_collections h (p mod W) (p / W) pa) as (Hp & Hq & He & Hr & _).
  cbn zeta in *. destruct (Hpa x y) as (Ip & Iq & Ie & Ir).
  assert (Hgrow : forall test,
             scannedLive worlds W (S p) test x y
             <-> scannedLive worlds W p test x y
                 \/ ((x, y) = (p mod W, p / W) /\ tileHas h test (p mod W) (p / W) = true)).
  { intros test. unfold scannedLive. split.
    - intros (p' & w & Hlt & Hx & Hy & Hw & Hhas).
      destruct (Nat.eq_dec p' p) as [-> | Hne].
      + right. rewrite Hnth in Hw. injection Hw as <-. subst x y.
        split; [reflexivity | exact Hhas].
      + left. exists p', w. repeat split; try assumption. lia.
    - intros [(p' & w & Hlt & Hx & Hy & Hw & Hhas) | [Heq Hhas]].
      + exists p', w. repeat split; try assumption. lia.
      + injection Heq as -> ->. exists p, h.
        repeat split; try reflexivity; [lia | exact Hnth | exact Hhas]. }
  split; [| split; [| split]].
  - rewrite Hp, Ip, Hgrow. tauto.
  - rewrite Hq, Iq, Hgrow. tauto.
  - rewrite He, Ie, Hgrow. tauto.
  - intros r. rewrite Hr, Ir, Hgrow. tauto.
Qed.

(** The batch of call number [length worlds], on the world [h] of that
    call. *)
Lemma scanLoop_recordsLive (worlds : list Host) (h : Host) (W : nat) (budget : nat) :
  forall pa : ParkAnalyzer.t,
    500 * length worlds <= analysisProgress pa ->
    analysisProgress pa + budget <= 500 * S (length worlds) ->
    recordsLive (worlds ++ [h]) W pa ->
    recordsLive (worlds ++ [h]) W (scanLoop h W budget pa).
Proof.
  induction budget as [| b IH]; intros pa Hlo Hhi Hrec; cbn [scanLoop]; [exact Hrec |].
  destruct (Nat.ltb_spec (analysisProgress pa) (analysisTotal pa)); [| exact Hrec].
  assert (Hcall : analysisProgress pa / 500 = length worlds).
  { symmetry. apply (Nat.div_unique _ 500 _ (analysisProgress pa - 500 * length worlds)); lia. }
  assert (Hnth : nth_error (worlds ++ [h]) (analysisProgress pa / 500) = Some h).
  { rewrite Hcall, nth_error_app2, Nat.sub_diag by lia. reflexivity. }
  pose proof (scanTile_control h (analysisProgress pa mod W) (analysisProgress pa / W) pa) as Hc.
  apply control_inv in Hc as (Hp & _).
  apply IH.
  - cbn [advance analysisProgress]. lia.
  - cbn [advance analysisProgress]. lia.
  - apply cell_recordsLive; assumption.
Qed.

(** One call on the world [h], as call number [length worlds]. *)
Lemma runAnalysisStep_recordsLive (worlds : list Host) (h : Host) (W : nat)
    (pa : ParkAnalyzer.t) :
  fst (mapDims h) = W ->
  (isAnalyzed pa = false -> analysisProgress pa = 500 * length worlds) ->
  recordsLive (worlds ++ [h]) W pa ->
  recordsLive (worlds ++ [h]) W (fst (runAnalysisStep h pa)).
Proof.
  intros HW Hstart Hext. unfold runAnalysisStep.
  destruct (isAnalyzed pa) eqn:Hflag; [exact Hext |].
  specialize (Hstart eq_refl).
  assert (Hloop : forall budget, budget <= 500 ->
            recordsLive (worlds ++ [h]) W (scanLoop h (fst (mapDims h)) budget pa)).
  { intros budget Hb. rewrite HW. apply scanLoop_recordsLive; [lia | lia | exact Hext]. }
  specialize (Hloop 500 (Nat.le_refl _)).
  revert Hloop. generalize (scanLoop h (fst (mapDims h)) 500 pa). intros pa1 Hloop.
  destruct (analysisTotal pa1 <=? analysisProgress pa1); cbn [fst]; [| exact Hloop].
  unfold updateRideStats. destruct (map_rides h); intros x y; exact (Hloop x y).
Qed.

(** Whatever happens to the world between the calls, the scan holds what
    each cell held when its call looked at it. *)
Lemma scan_recordsLive (h0 : Host) (W H : nat) (pa0 : ParkAnalyzer.t) (worlds : list Host) :
  map_size h0 = Some (W, H) ->
  Forall (fun h => map_size h = Some (W, H)) worlds ->
  let pa := runStepsOn worlds (startAnalysis h0 pa0) in
  recordsLive worlds W pa
  /\ analysisProgress pa <= W * H
  /\ (isAnalyzed pa = true -> analysisProgress pa = W * H).
Proof.
  intros Hsize Hall. cbn zeta.
  assert (HT : analysisTotal (startAnalysis h0 pa0) = W * H).
  { unfold startAnalysis. cbn [analysisTotal]. now rewrite Hsize. }
  split.
  - induction worlds as [| h worlds IH] using rev_ind.
    + cbn [runStepsOn]. intros x y.
      cbn [startAnalysis pathTiles queueLocations entranceLocations rideLocations
           analysisProgress].
      unfold scannedLive.
      repeat split; try (intros (p & w & Hlt & _); lia); intros [].
    + apply Forall_app in Hall as [Hall Hh]. specialize (IH Hall).
      apply Forall_inv in Hh.
      assert (HW : fst (mapDims h) = W) by (unfold mapDims; now rewrite Hh).
      rewrite runStepsOn_snoc.
      pose proof (runStepsOn_control h0 pa0 worlds) as Hc. cbn zeta in Hc.
      rewrite HT in Hc. apply control_inv in Hc as (Hp & Ht & Ha & _).
      revert IH Hp Ha. generalize (runStepsOn worlds (startAnalysis h0 pa0)).
      intros pa IH Hp Ha.
      apply runAnalysisStep_recordsLive; [exact HW | |].
      * intros Hflag. rewrite Hflag in Ha. symmetry in Ha.
        apply andb_false_iff in Ha as [Hk | Hk].
        -- apply Nat.ltb_ge in Hk. lia.
        -- apply Nat.leb_gt in Hk. lia.
      * apply recordsLive_extend; [lia | exact IH].
  - pose proof (runStepsOn_control h0 pa0 worlds) as Hc. cbn zeta in Hc.
    rewrite HT in Hc. apply control_inv in Hc as (Hp & _ & Ha & _).
    split; [lia |]. rewrite Ha. intros Hdone. apply andb_true_iff in Hdone as [_ Hdone].
    apply Nat.leb_le in Hdone. lia.
Qed.

Lemma scannedLive_held (worlds : list Host) (W H progress : nat) (test : Element -> bool)
    (x y : nat) :
  progress <= W * H ->
  scannedLive worlds W progress test x y ->
  x < W /\ y < H /\ heldWhenScanned worlds W test x y = true.
Proof.
  intros Hle (p & h & Hlt & -> & -> & Hnth & Hhas).
  destruct (cell_of_index W H p ltac:(lia)) as [Hx Hy]. split; [exact Hx |]. split; [exact Hy |].
  unfold heldWhenScanned, worldAtScan.
  replace (p / W * W + p mod W) with p by (pose proof (Nat.div_mod_eq p W); lia).
  rewrite Hnth. exact Hhas.
Qed.

Lemma held_scannedLive (worlds : list Host) (W H : nat) (test : Element -> bool) (x y : nat) :
  x < W -> y < H ->
  heldWhenScanned worlds W test x y = true ->
  scannedLive worlds W (W * H) test x y.
Proof.
  intros Hx Hy Hheld. unfold heldWhenScanned, worldAtScan in Hheld.
  destruct (nth_error worlds ((y * W + x) / 500)) as [h |] eqn:Hnth; [| discriminate].
  destruct (index_of_cell W H x y Hx Hy) as (Hlt & Hmod & Hdiv).
  exists (y * W + x), h. rewrite Hmod, Hdiv. repeat split; assumption.
Qed.

End ScanLive.

(** X6. The scan of a [W] by [H] world runs over many ticks, and the
    tiles may change from one call to the next.  At every point of the
    scan, whatever has been recorded lies inside the world and was real
    when it was looked at: a recorded path tile, queue tile, entrance or
    ride location has [x < W], [y < H], and at the call that handled its
    cell (call number [(y * W + x) / 500]) the tile held a footpath, a
    queue footpath, an entrance, or track of that ride.  What the tile
    holds later is not looked at again. *)
Theorem scan_records_only_real_tiles :
  forall (h0 : Host) (worlds : list Host) (W H : nat) (pa0 : ParkAnalyzer.t) (x y : nat),
    map_size h0 = Some (W, H) ->
    Forall (fun h => map_size h = Some (W, H)) worlds ->
    let pa := ParkAnalyzer.runStepsOn worlds (ParkAnalyzer.startAnalysis h0 pa0) in
    (In (x, y) (ParkAnalyzer.pathTiles pa) ->
       (x < W)%nat /\ (y < H)%nat /\ heldWhenScanned worlds W isFootpath x y = true)
    /\ (In (x, y) (ParkAnalyzer.queueLocations pa) ->
       (x < W)%nat /\ (y < H)%nat /\ heldWhenScanned worlds W isQueuePath x y = true)
    /\ (In (x, y) (ParkAnalyzer.entranceLocations pa) ->
       (x < W)%nat /\ (y < H)%nat /\ heldWhenScanned worlds W isEntrance x y = true)
    /\ (forall r, In (x, y, r) (ParkAnalyzer.rideLocations pa) ->
       (x < W)%nat /\ (y < H)%nat /\ heldWhenScanned worlds W (isTrackOf r) x y = true).
Proof.
  intros h0 worlds W H pa0 x y Hsize Hall. cbn zeta.
  destruct (scan_recordsLive h0 W H pa0 worlds Hsize Hall) as (Hrec & Hle & _).
  cbn zeta in Hrec, Hle. destruct (Hrec x y) as (Hp & Hq & He & Hr).
  split; [| split; [| split]].
  - intros Hin. apply (scannedLive_held worlds W H _ _ x y Hle), Hp, Hin.
  - intros Hin. apply (scannedLive_held worlds W H _ _ x y Hle), Hq, Hin.
  - intros Hin. apply (scannedLive_held worlds W H _ _ x y Hle), He, Hin.
  - intros r Hin. apply (scannedLive_held worlds W H _ _ x y Hle), Hr, Hin.
Qed.

(** X7. Once the scan of a [W] by [H] world is complete, every tile
    inside the world has been looked at exactly once, at the call that
    handled its cell: a tile with [x < W] and [y < H] is a recorded path
    tile exactly when it held a footpath element at that call, a recorded
    queue tile exactly when it held a queue footpath then, a recorded
    entrance exactly when it held an entrance then, and a recorded
    location of ride [r] exactly when it held track of ride [r] then.  So
    in a world that did not change while the scan ran nothing is missed;
    an element added to a tile after its call is not recorded, and one
    removed after its call stays recorded. *)
Theorem completed_scan_misses_nothing :
  forall (h0 : Host) (worlds : list Host) (W H : nat) (pa0 : ParkAnalyzer.t) (x y : nat),
    map_size h0 = Some (W, H) ->
    Forall (fun h => map_size h = Some (W, H)) worlds ->
    ParkAnalyzer.isAnalyzed
      (ParkAnalyzer.runStepsOn worlds (ParkAnalyzer.startAnalysis h0 pa0)) = true ->
    (x < W)%nat -> (y < H)%nat ->
    let pa := ParkAnalyzer.runStepsOn worlds (ParkAnalyzer.startAnalysis h0 pa0) in
    (In (x, y) (ParkAnalyzer.pathTiles pa)
     <-> heldWhenScanned worlds W isFootpath x y = true)
    /\ (In (x, y) (ParkAnalyzer.queueLocations pa)
        <-> heldWhenScanned worlds W isQueuePath x y = true)
    /\ (In (x, y) (ParkAnalyzer.entranceLocations pa)
        <-> heldWhenScanned worlds W isEntrance x y = true)
    /\ (forall r, In (x, y, r) (ParkAnalyzer.rideLocations pa)
                  <-> heldWhenScanned worlds W (isTrackOf r) x y = true)
    /\ (forall h test, Forall (eq h) worlds ->
          heldWhenScanned worlds W test x y = tileHas h test x y).
Proof.
  intros h0 worlds W H pa0 x y Hsize Hall Hdone Hx Hy. cbn zeta.
  destruct (scan_recordsLive h0 W H pa0 worlds Hsize Hall) as (Hrec & Hle & Hfull).
  cbn zeta in Hrec, Hle, Hfull. specialize (Hfull Hdone).
  destruct (Hrec x y) as (Hp & Hq & He & Hr). rewrite Hfull in *.
  assert (Hiff : forall test,
            scannedLive worlds W (W * H) test x y
            <-> heldWhenScanned worlds W test x y = true).
  { intros test. split.
    - intros Hs. apply (scannedLive_held worlds W H (W * H) test x y (Nat.le_refl _) Hs).
    - apply held_scannedLive; assumption. }
  split; [now rewrite Hp, Hiff |]. split; [now rewrite Hq, Hiff |].
  split; [now rewrite He, Hiff |]. split; [intros r; now rewrite Hr, Hiff |].
  intros h test Hsame. unfold heldWhenScanned, worldAtScan.
  assert (Hcalls : ((y * W + x) / 500 < length worlds)%nat).
  { pose proof (runStepsOn_control h0 pa0 worlds) as Hc. cbn zeta in Hc.
    apply control_inv in Hc as (_ & _ & Ha & _). rewrite Hdone in Ha.
    symmetry in Ha. apply andb_true_iff in Ha as [_ Ha]. apply Nat.leb_le in Ha.
    assert (HT : ParkAnalyzer.analysisTotal (ParkAnalyzer.startAnalysis h0 pa0) = (W * H)%nat).
    { unfold ParkAnalyzer.startAnalysis. cbn [ParkAnalyzer.analysisTotal]. now rewrite Hsize. }
    rewrite HT in Ha. destruct (index_of_cell W H x y Hx Hy) as (Hlt & _).
    apply Nat.Div0.div_lt_upper_bound. lia. }
  destruct (nth_error worlds ((y * W + x) / 500)) as [w |] eqn:Hnth.
  - apply nth_error_In in Hnth. rewrite Forall_forall in Hsame.
    rewrite <- (Hsame w); [reflexivity |]. apply list_elem_of_In. exact Hnth.
  - apply nth_error_None in Hnth. lia.
Qed.

(** ** The effect queue over several ticks, and across revisions *)

Section QueueRuns.
Variable Game : Type.
Variable executeAction : string -> ActionArgs -> Game -> Game * Outcome.

(** The loop takes exactly the items the limit still allows, from the
    front. *)
Lemma drain_exact (limit : nat) (q : list PendingAction) :
  forall (processed : nat) (g : Game),
    let '(q', _, dispatched) := ActionQueue.drain Game executeAction limit processed q g in
    map fst dispatched = firstn (limit - processed) q
    /\ q' = skipn (limit - processed) q.
Proof.
  induction q as [| item rest IH]; intros processed g; cbn [ActionQueue.drain].
  - now rewrite firstn_nil, skipn_nil.
  - destruct (Nat.ltb_spec processed limit) as [Hlt | Hge].
    + destruct (executeAction (action item) (args item) g) as [g1 outcome].
      specialize (IH (S processed) g1).
      destruct (ActionQueue.drain Game executeAction limit (S processed) rest g1)
        as [[q' g'] dispatched].
      destruct IH as [Hd Hq].
      replace (limit - processed)%nat with (S (limit - S processed)) by lia.
      cbn [map fst firstn skipn]. now rewrite Hd, Hq.
    + replace (limit - processed)%nat with 0%nat by lia. now split.
Qed.

Lemma process_exact (h : Host) (aq : ActionQueue.t) (g : Game) :
  NetworkHelper.canModifyGameState h = true ->
  let '(aq', _, dispatched) := ActionQueue.process Game executeAction h aq g in
  map fst dispatched = firstn (ActionQueue.maxPerTick aq) (ActionQueue.queue aq)
  /\ ActionQueue.queue aq' = skipn (ActionQueue.maxPerTick aq) (ActionQueue.queue aq)
  /\ ActionQueue.maxPerTick aq' = ActionQueue.maxPerTick aq.
Proof.
  intros Hauth. unfold ActionQueue.process. rewrite Hauth. cbn [negb].
  pose proof (drain_exact (ActionQueue.maxPerTick aq) (ActionQueue.queue aq) 0 g) as Hd.
  destruct (ActionQueue.drain Game executeAction (ActionQueue.maxPerTick aq) 0
              (ActionQueue.queue aq) g) as [[q' g'] dispatched].
  rewrite Nat.sub_0_r in Hd. destruct Hd as [Hd Hq]. now repeat split.
Qed.

End QueueRuns.

(** X8. On the authoritative instance the queue is first in, first out
    across ticks: [n] calls of [process] with nothing added in between
    dispatch exactly the first [n * maxPerTick] queued effects, in the
    order they were queued, and leave the rest, in order; so a queue of
    at most [n * maxPerTick] effects is empty after [n] calls. *)
Theorem ActionQueue_first_in_first_out :
  forall (Game : Type) (executeAction : string -> ActionArgs -> Game -> Game * Outcome)
         (h : Host) (n : nat) (aq : ActionQueue.t) (g : Game),
    NetworkHelper.canModifyGameState h = true ->
    let '(aq', _, dispatched) := processTicks executeAction h n aq g in
    map fst dispatched = firstn (n * ActionQueue.maxPerTick aq) (ActionQueue.queue aq)
    /\ ActionQueue.queue aq' = skipn (n * ActionQueue.maxPerTick aq) (ActionQueue.queue aq)
    /\ ((length (ActionQueue.queue aq) <= n * ActionQueue.maxPerTick aq)%nat ->
        ActionQueue.queue aq' = [] /\ map fst dispatched = ActionQueue.queue aq).
Proof.
  intros Game executeAction h n aq g Hauth.
  assert (Hmain : let '(aq', _, dispatched) := processTicks executeAction h n aq g in
            map fst dispatched = firstn (n * ActionQueue.maxPerTick aq) (ActionQueue.queue aq)
            /\ ActionQueue.queue aq' = skipn (n * ActionQueue.maxPerTick aq) (ActionQueue.queue aq)
            /\ ActionQueue.maxPerTick aq' = ActionQueue.maxPerTick aq).
  { revert aq g. induction n as [| n IH]; intros aq g; cbn [processTicks].
    - cbn [Nat.mul firstn skipn map]. now repeat split.
    - pose proof (process_exact Game executeAction h aq g Hauth) as Hp.
      destruct (ActionQueue.process Game executeAction h aq g) as [[aq1 g1] d1].
      destruct Hp as (Hd1 & Hq1 & Hm1).
      specialize (IH aq1 g1).
      destruct (processTicks executeAction h n aq1 g1) as [[aq2 g2] d2].
      destruct IH as (Hd2 & Hq2 & Hm2).
      set (m := ActionQueue.maxPerTick aq) in *. set (q := ActionQueue.queue aq) in *.
      rewrite Hm1 in *. rewrite Hq1 in *.
      split; [| split; [| congruence]].
      + rewrite map_app, Hd1, Hd2.
        replace (S n * m)%nat with (m + n * m)%nat by lia.
        rewrite <- (firstn_skipn m q) at 3.
        rewrite firstn_app, firstn_firstn.
        destruct (Nat.le_gt_cases m (length q)) as [Hle | Hgt].
        * rewrite length_firstn. replace (Nat.min m (length q)) with m by lia.
          replace (Nat.min (m + n * m) m) with m by lia.
          now replace (m + n * m - m)%nat with (n * m)%nat by lia.
        * rewrite (firstn_all2 (n := m) q) by lia.
          rewrite (skipn_all2 (n := m) q) by lia.
          rewrite !firstn_nil, !app_nil_r. now rewrite firstn_all2 by lia.
      + rewrite Hq2, skipn_skipn. f_equal. lia. }
  destruct (processTicks executeAction h n aq g) as [[aq' g'] dispatched].
  destruct Hmain as (Hd & Hq & _). split; [exact Hd |]. split; [exact Hq |].
  intros Hlen. rewrite Hd, Hq. split; [now apply skipn_all2 | now apply firstn_all2].
Qed.

(** X9. The v2.2 queue with its re-entrancy flag down behaves exactly as
    the v3.0 queue: same dispatches, same game, same queue left, flag
    still down.  With the flag up, a v2.2 call does nothing at all. *)
Theorem ActionQueue_revisions_agree :
  forall (Game : Type) (executeAction : string -> ActionArgs -> Game -> Game * Outcome)
         (h : Host) (aq : ActionQueue.t) (g : Game),
    ActionQueueV2.process Game executeAction h (asV2 aq) g
      = (let '(aq', g', dispatched) := ActionQueue.process Game executeAction h aq g in
         (asV2 aq', g', dispatched))
    /\ (let busy := {| ActionQueueV2.queue := ActionQueue.queue aq;
                       ActionQueueV2.processing := true;
                       ActionQueueV2.maxPerTick := ActionQueue.maxPerTick aq |} in
        ActionQueueV2.process Game executeAction h busy g = (busy, g, [])).
Proof.
  intros Game executeAction h aq g. split; [| reflexivity].
  unfold ActionQueueV2.process, ActionQueue.process, asV2.
  cbn [ActionQueueV2.processing ActionQueueV2.queue ActionQueueV2.maxPerTick orb].
  destruct aq as [q m]. cbn [ActionQueue.queue ActionQueue.maxPerTick].
  destruct q as [| item rest].
  - cbn [length Nat.eqb]. destruct (NetworkHelper.canModifyGameState h); reflexivity.
  - cbn [length Nat.eqb]. destruct (NetworkHelper.canModifyGameState h); cbn [negb].
    + destruct (ActionQueue.drain Game executeAction m 0 (item :: rest) g) as [[q' g'] d].
      reflexivity.
    + reflexivity.
Qed.

(** ** Result callbacks *)

Section CallbackFacts.
Import StaffManager.

Lemma callbacksWith_cons (cb : Callback) (test : Z -> bool)
    (d : PendingAction * Outcome) (ds : list (PendingAction * Outcome)) :
  callbacksWith cb test (d :: ds) = callbacksWith cb test [d] + callbacksWith cb test ds.
Proof.
  unfold callbacksWith. cbn [List.filter].
  destruct (match callback (fst d) with Some _ => _ | None => _ end); cbn [length]; lia.
Qed.

Lemma callbacksWith_nonneg (cb : Callback) (test : Z -> bool)
    (ds : list (PendingAction * Outcome)) :
  0 <= callbacksWith cb test ds.
Proof. unfold callbacksWith. lia. Qed.

Lemma applyOutcome_counts (sm : StaffManager.t) (d : PendingAction * Outcome) :
  let sm' := applyOutcome sm d in
  let s := statistics sm in
  let s' := statistics sm' in
  patrolZonesSet s' = patrolZonesSet s + callbacksWith OnPatrolAreaSet (fun e => e =? 0) [d]
  /\ patrolZonesFailed s'
     = patrolZonesFailed s + callbacksWith OnPatrolAreaSet (fun e => negb (e =? 0)) [d]
  /\ staffHired s' = staffHired s + callbacksWith OnStaffHired (fun e => e =? 0) [d]
  /\ ordersChanged s' = ordersChanged s + callbacksWith OnOrdersChanged (fun e => e =? 0) [d]
  /\ zonesNeedRegeneration sm'
     = zonesNeedRegeneration sm || (0 <? callbacksWith OnStaffHired (fun e => e =? 0) [d])
  /\ untouched sm' = untouched sm.
Proof.
  cbn zeta. unfold applyOutcome, callbacksWith.
  destruct d as [[name a [cb |]] [error |]]; cbn [fst snd callback List.filter length].
  2-4: rewrite orb_false_r; repeat split; cbn; lia.
  destruct cb; unfold runCallback; destruct (error =? 0);
    cbn [negb length with_statistics with_counters statistics zonesNeedRegeneration
         patrolZonesSet patrolZonesFailed staffHired ordersChanged];
    rewrite ?orb_false_r, ?orb_true_r; repeat split; cbn; lia.
Qed.

End CallbackFacts.

(** X10. Every result the gateway reports is counted exactly once: after
    the callbacks of any list of dispatches have run, [patrolZonesSet] has
    grown by the number of patrol-area results with error 0 and
    [patrolZonesFailed] by the number with another error, [staffHired] by
    the number of successful hires and [ordersChanged] by the number of
    successful order changes; the zones are marked stale if they were or
    if a hire succeeded; the roster and every other statistic are
    untouched. *)
Theorem callbacks_count_every_result :
  forall (sm : StaffManager.t) (ds : list (PendingAction * Outcome)),
    let sm' := applyOutcomes sm ds in
    let s := StaffManager.statistics sm in
    let s' := StaffManager.statistics sm' in
    let ok := fun error : Z => error =? 0 in
    let failed := fun error : Z => negb (error =? 0) in
    StaffManager.patrolZonesSet s'
      = StaffManager.patrolZonesSet s + callbacksWith OnPatrolAreaSet ok ds
    /\ StaffManager.patrolZonesFailed s'
      = StaffManager.patrolZonesFailed s + callbacksWith OnPatrolAreaSet failed ds
    /\ StaffManager.staffHired s'
      = StaffManager.staffHired s + callbacksWith OnStaffHired ok ds
    /\ StaffManager.ordersChanged s'
      = StaffManager.ordersChanged s + callbacksWith OnOrdersChanged ok ds
    /\ StaffManager.zonesNeedRegeneration sm'
      = StaffManager.zonesNeedRegeneration sm || (0 <? callbacksWith OnStaffHired ok ds)
    /\ untouched sm' = untouched sm.
Proof.
  intros sm ds. cbn zeta. unfold applyOutcomes. revert sm.
  induction ds as [| d ds IH]; intros sm; cbn [fold_left].
  - unfold callbacksWith. cbn [List.filter length Z.of_nat Z.ltb Z.compare].
    rewrite orb_false_r. repeat split; lia.
  - destruct (IH (applyOutcome sm d)) as (H1 & H2 & H3 & H4 & H5 & H6).
    destruct (applyOutcome_counts sm d) as (S1 & S2 & S3 & S4 & S5 & S6). cbn zeta in *.
    rewrite H1, H2, H3, H4, H5, H6, S1, S2, S3, S4, S5, S6.
    rewrite !(callbacksWith_cons _ _ d ds).
    pose proof (callbacksWith_nonneg OnStaffHired (fun e => e =? 0) [d]) as Hn1.
    pose proof (callbacksWith_nonneg OnStaffHired (fun e => e =? 0) ds) as Hn2.
    repeat split; try lia.
    rewrite <- orb_assoc. f_equal.
    destruct (Z.ltb_spec 0 (callbacksWith OnStaffHired (fun e => e =? 0) [d]));
      destruct (Z.ltb_spec 0 (callbacksWith OnStaffHired (fun e => e =? 0) ds));
      cbn [orb]; symmetry; (apply Z.ltb_lt || apply Z.ltb_ge); lia.
Qed.

(** ** The roster *)

Section RosterFacts.
Import StaffManager.

Lemma role_counts (all : list StaffMember) :
  (length (ofType "handyman" all) + length (ofType "mechanic" all)
   + length (ofType "security" all) + length (ofType "entertainer" all)
   + length (List.filter (fun m => negb (knownRole m)) all))%nat
  = length all.
Proof.
  unfold ofType. induction all as [| m ms IH]; [reflexivity |].
  cbn [List.filter].
  assert (Hk : knownRole m
               = (String.eqb (staff_type m) "handyman"
                  || (String.eqb (staff_type m) "mechanic"
                      || (String.eqb (staff_type m) "security"
                          || (String.eqb (staff_type m) "entertainer" || false)))))
    by reflexivity.
  rewrite Hk. clear Hk.
  destruct (String.eqb_spec (staff_type m) "handyman") as [-> | H1];
    [cbn [String.eqb Ascii.eqb Bool.eqb orb negb length]; lia |].
  destruct (String.eqb_spec (staff_type m) "mechanic") as [-> | H2];
    [cbn [String.eqb Ascii.eqb Bool.eqb orb negb length]; lia |].
  destruct (String.eqb_spec (staff_type m) "security") as [-> | H3];
    [cbn [String.eqb Ascii.eqb Bool.eqb orb negb length]; lia |].
  destruct (String.eqb_spec (staff_type m) "entertainer") as [_ | H4];
    cbn [orb negb length]; lia.
Qed.

Lemma unknown_none (all : list StaffMember) :
  length (List.filter (fun m => negb (knownRole m)) all) = 0%nat
  <-> forallb knownRole all = true.
Proof.
  induction all as [| m ms IH]; cbn [List.filter forallb]; [tauto |].
  destruct (knownRole m); cbn [negb andb length]; [exact IH |].
  split; [lia | discriminate].
Qed.

End RosterFacts.

(** X11. After [updateStaffLists()] on a readable roster, [totalStaff] is
    the number of non-null staff entities, each role list holds exactly
    the members of its type, and the four role counts add up to at most
    [totalStaff]: to exactly [totalStaff] if and only if every member's
    type is one of the four roles. *)
Theorem updateStaffLists_counts :
  forall (h : Host) (sm : StaffManager.t) (staff : list (option StaffMember)),
    map_staff h = Some staff ->
    let sm' := StaffManager.updateStaffLists h sm in
    let s' := StaffManager.statistics sm' in
    StaffManager.allStaff sm' = StaffManager.present staff
    /\ StaffManager.totalStaff s' = Z.of_nat (length (StaffManager.allStaff sm'))
    /\ (forall ty m, In ty roles ->
          (In m (StaffManager.roster sm' ty)
           <-> In m (StaffManager.allStaff sm') /\ staff_type m = ty))
    /\ StaffManager.handymenCount s' + StaffManager.mechanicsCount s'
       + StaffManager.securityCount s' + StaffManager.entertainersCount s'
       <= StaffManager.totalStaff s'
    /\ (StaffManager.handymenCount s' + StaffManager.mechanicsCount s'
        + StaffManager.securityCount s' + StaffManager.entertainersCount s'
        = StaffManager.totalStaff s'
        <-> forallb knownRole (StaffManager.allStaff sm') = true).
Proof.
  intros h sm staff Hstaff. cbn zeta. unfold StaffManager.updateStaffLists. rewrite Hstaff.
  cbn [StaffManager.allStaff StaffManager.statistics StaffManager.totalStaff
       StaffManager.handymenCount StaffManager.mechanicsCount
       StaffManager.securityCount StaffManager.entertainersCount].
  set (all := StaffManager.present staff).
  pose proof (role_counts all) as Hsum. pose proof (unknown_none all) as Hnone.
  split; [reflexivity |]. split; [reflexivity |].
  split; [| split; [lia | rewrite <- Hnone; lia]].
  intros ty m Hty. unfold StaffManager.roster.
  cbn [StaffManager.handymen StaffManager.mechanics StaffManager.security
       StaffManager.entertainers].
  assert (Hf : forall name, In m (StaffManager.ofType name all)
                            <-> In m all /\ staff_type m = name).
  { intros name. unfold StaffManager.ofType. rewrite filter_In.
    now rewrite String.eqb_eq. }
  destruct Hty as [<- | [<- | [<- | [<- | []]]]]; cbn [String.eqb Ascii.eqb Bool.eqb];
    apply Hf.
Qed.

(** X12. [updateStaffLists()] flags the zones as stale exactly when the
    number of staff differs from the last count it saw, and remembers the
    new count; so a second call on the same roster changes nothing.
    When the staff query throws, the staff list and the four role lists
    are all emptied while the statistics (the counts of the last
    successful call included), the flag, the tick counter and the
    remembered count stay as they were. *)
Theorem updateStaffLists_flags_roster_changes :
  forall (h : Host) (sm : StaffManager.t),
    let sm' := StaffManager.updateStaffLists h sm in
    StaffManager.updateStaffLists h sm' = sm'
    /\ match map_staff h with
       | Some staff =>
           StaffManager.lastStaffCount sm' = length (StaffManager.present staff)
           /\ StaffManager.zonesNeedRegeneration sm'
              = StaffManager.zonesNeedRegeneration sm
                || negb (length (StaffManager.present staff)
                         =? StaffManager.lastStaffCount sm)%nat
       | None =>
           StaffManager.allStaff sm' = []
           /\ StaffManager.handymen sm' = []
           /\ StaffManager.mechanics sm' = []
           /\ StaffManager.security sm' = []
           /\ StaffManager.entertainers sm' = []
           /\ StaffManager.tickCounter sm' = StaffManager.tickCounter sm
           /\ StaffManager.statistics sm' = StaffManager.statistics sm
           /\ StaffManager.zonesNeedRegeneration sm' = StaffManager.zonesNeedRegeneration sm
           /\ StaffManager.lastStaffCount sm' = StaffManager.lastStaffCount sm
       end.
Proof.
  intros h sm. cbn zeta. unfold StaffManager.updateStaffLists.
  destruct (map_staff h) as [staff |]; [| now repeat split].
  set (all := StaffManager.present staff).
  cbn [StaffManager.lastStaffCount StaffManager.zonesNeedRegeneration
       StaffManager.statistics StaffManager.tickCounter
       StaffManager.staffHired StaffManager.ordersChanged StaffManager.patrolZonesSet
       StaffManager.patrolZonesFailed StaffManager.dispatchesMade
       StaffManager.lastFrameTime StaffManager.avgFrameTime
       StaffManager.autoReanalyzeCount StaffManager.autoGenZonesCount
       StaffManager.crimeDetected StaffManager.disgustComplaints
       StaffManager.newRidesDetected StaffManager.smartHires].
  destruct (Nat.eqb_spec (length all) (StaffManager.lastStaffCount sm)) as [Heq | Hne];
    cbn [negb].
  - rewrite orb_false_r, <- Heq, !Nat.eqb_refl. cbn [negb]. now repeat split.
  - rewrite orb_true_r, Nat.eqb_refl. cbn [negb]. now repeat split.
Qed.

(** ** Hiring *)

Section HiringFacts.
Import StaffManager.
Variable Math_sin : Q -> Q.

Lemma handymanOrders_sum (cfg : Config) :
  handymanOrders cfg
  = (if handymanSweepEnabled cfg then 1 else 0)
    + (if handymanWaterEnabled cfg then 2 else 0)
    + (if handymanEmptyBinsEnabled cfg then 4 else 0)
    + (if handymanMowEnabled cfg then 8 else 0).
Proof.
  unfold handymanOrders.
  destruct (handymanSweepEnabled cfg), (handymanWaterEnabled cfg),
    (handymanEmptyBinsEnabled cfg), (handymanMowEnabled cfg); reflexivity.
Qed.

Lemma entertainerType_range (h : Host) (offset : option Z) :
  0 <= DeterministicRandom.randomInt Math_sin h 0 6 offset <= 6.
Proof.
  unfold DeterministicRandom.randomInt, DeterministicRandom.random.
  set (x := (Math_sin _ * _)%Q).
  destruct (frac_range x) as [H0 H1].
  pose proof (floor_scale_range _ (6 - 0 + 1) H0 H1 ltac:(lia)). lia.
Qed.

(** What [hireStaff] appends when the instance may modify the game. *)
Lemma hireStaff_adds (cfg : Config) (h : Host) (sm : StaffManager.t) (aq : ActionQueue.t)
    (staffType : string) :
  NetworkHelper.canModifyGameState h = true ->
  exists entertainerType orders : Z,
    hireStaff Math_sin cfg h sm aq staffType
    = ActionQueue.add aq "staffhire"
        (StaffHireArgs true (staffTypeNumber staffType) entertainerType orders)
        (Some OnStaffHired)
    /\ 0 <= entertainerType <= 6
    /\ (staffType <> "entertainer"%string -> entertainerType = 0)
    /\ orders = (if String.eqb staffType "handyman" then handymanOrders cfg
                 else if String.eqb staffType "mechanic" then 3 else 0).
Proof.
  intros Hauth. unfold hireStaff. rewrite Hauth. cbn [negb].
  eexists _, _. split; [reflexivity |]. split; [| split; [| reflexivity]].
  - destruct (String.eqb staffType "entertainer"); [apply entertainerType_range | lia].
  - intros Hne. destruct (String.eqb_spec staffType "entertainer"); [contradiction | reflexivity].
Qed.

(** One role's branch of [checkAutoHire]: one hire request, or none. *)
Lemma autoHireRole_spec (cfg : Config) (h : Host) (sm : StaffManager.t) (metric : Z)
    (aq : ActionQueue.t) (staffType : string) :
  exists items : list PendingAction,
    ActionQueue.queue (autoHireRole Math_sin cfg h sm metric aq staffType)
      = ActionQueue.queue aq ++ items
    /\ ActionQueue.maxPerTick (autoHireRole Math_sin cfg h sm metric aq staffType)
      = ActionQueue.maxPerTick aq
    /\ (if roleAutoHire cfg staffType
           && (Z.of_nat (length (roster sm staffType)) <? roleTarget cfg staffType metric)
           && NetworkHelper.canModifyGameState h
        then exists entertainerType orders,
               items = [{| action := "staffhire";
                           args := StaffHireArgs true (staffTypeNumber staffType)
                                     entertainerType orders;
                           callback := Some OnStaffHired |}]
        else items = []).
Proof.
  unfold autoHireRole.
  destruct (roleAutoHire cfg staffType); cbn [andb];
    [| exists []; now rewrite app_nil_r].
  destruct (_ <? _); cbn [andb]; [| exists []; now rewrite app_nil_r].
  destruct (NetworkHelper.canModifyGameState h) eqn:Hauth.
  - destruct (hireStaff_adds cfg h sm aq staffType Hauth) as (et & orders & -> & _).
    eexists. split; [reflexivity |]. split; [reflexivity |]. now exists et, orders.
  - unfold hireStaff. rewrite Hauth. exists []. now rewrite app_nil_r.
Qed.

End HiringFacts.

(** X13. A hire request is well formed.  On the authoritative instance
    [hireStaff(staffType)] appends exactly one 'staffhire' effect: its
    staff type is the role's number (0 to 3), its entertainer costume is
    between 0 and 6 and is 0 for every role but the entertainer, and its
    orders are the sum of the enabled task flags for a handyman (each of
    1, 2, 4, 8 at most once), 3 for a mechanic and 0 otherwise.  On any
    other instance it leaves the queue alone. *)
Theorem hireStaff_request_well_formed :
  forall (Math_sin : Q -> Q) (cfg : Config) (h : Host) (sm : StaffManager.t)
         (aq : ActionQueue.t) (staffType : string),
    if NetworkHelper.canModifyGameState h then
      exists entertainerType orders : Z,
        StaffManager.hireStaff Math_sin cfg h sm aq staffType
        = ActionQueue.add aq "staffhire"
            (StaffHireArgs true (staffTypeNumber staffType) entertainerType orders)
            (Some OnStaffHired)
        /\ 0 <= staffTypeNumber staffType <= 3
        /\ 0 <= entertainerType <= 6
        /\ (staffType <> "entertainer"%string -> entertainerType = 0)
        /\ 0 <= orders <= 15
        /\ orders
           = (if String.eqb staffType "handyman" then
                (if handymanSweepEnabled cfg then 1 else 0)
                + (if handymanWaterEnabled cfg then 2 else 0)
                + (if handymanEmptyBinsEnabled cfg then 4 else 0)
                + (if handymanMowEnabled cfg then 8 else 0)
              else if String.eqb staffType "mechanic" then 3 else 0)
    else StaffManager.hireStaff Math_sin cfg h sm aq staffType = aq.
Proof.
  intros Math_sin cfg h sm aq staffType.
  destruct (NetworkHelper.canModifyGameState h) eqn:Hauth.
  - destruct (hireStaff_adds Math_sin cfg h sm aq staffType Hauth)
      as (et & orders & Heq & Het & Hzero & Horders).
    exists et, orders. split; [exact Heq |].
    split; [unfold staffTypeNumber; repeat destruct (String.eqb _ _); lia |].
    split; [exact Het |]. split; [exact Hzero |].
    rewrite Horders, handymanOrders_sum.
    split; [| reflexivity].
    destruct (String.eqb staffType "handyman");
      [destruct (handymanSweepEnabled cfg), (handymanWaterEnabled cfg),
         (handymanEmptyBinsEnabled cfg), (handymanMowEnabled cfg); lia |].
    destruct (String.eqb staffType "mechanic"); lia.
  - unfold StaffManager.hireStaff. now rewrite Hauth.
Qed.

Section AutoHireFacts.
Import StaffManager.
Variable Math_sin : Q -> Q.

Lemma hiresOf_app (ty : Z) (a b : list PendingAction) :
  hiresOf ty (a ++ b) = (hiresOf ty a + hiresOf ty b)%nat.
Proof. unfold hiresOf. now rewrite List.filter_app, length_app. Qed.

Lemma hiresOf_oneHireIf (cond : bool) (staffType other : string) (items : list PendingAction) :
  oneHireIf cond staffType items -> In staffType roles -> In other roles ->
  hiresOf (staffTypeNumber other) items
  = if cond && String.eqb staffType other then 1%nat else 0%nat.
Proof.
  unfold oneHireIf. intros Hitems Hty Hother.
  destruct cond; cbn [andb]; [| now subst items].
  destruct Hitems as (et & orders & ->).
  destruct Hty as [<- | [<- | [<- | [<- | []]]]];
    destruct Hother as [<- | [<- | [<- | [<- | []]]]]; reflexivity.
Qed.

(** [checkAutoHire] appends, role by role, one request where one is due. *)
Lemma checkAutoHire_items (cfg : Config) (h : Host) (pa : ParkAnalyzer.t)
    (sm : StaffManager.t) (aq : ActionQueue.t) :
  exists i1 i2 i3 i4 : list PendingAction,
    ActionQueue.queue (checkAutoHire Math_sin cfg h pa sm aq)
      = ActionQueue.queue aq ++ (i1 ++ i2 ++ i3 ++ i4)
    /\ ActionQueue.maxPerTick (checkAutoHire Math_sin cfg h pa sm aq)
      = ActionQueue.maxPerTick aq
    /\ oneHireIf (autoHireDue cfg h pa sm "handyman") "handyman" i1
    /\ oneHireIf (autoHireDue cfg h pa sm "mechanic") "mechanic" i2
    /\ oneHireIf (autoHireDue cfg h pa sm "security") "security" i3
    /\ oneHireIf (autoHireDue cfg h pa sm "entertainer") "entertainer" i4.
Proof.
  unfold checkAutoHire, autoHireDue.
  fold (autoHireGuestCount h pa sm).
  destruct (autoHireEnabled cfg); cbn [negb andb].
  2: { exists [], [], [], []. cbn [app]. rewrite app_nil_r.
       destruct (autoHireGuestCount h pa sm); now repeat split. }
  destruct (NetworkHelper.canModifyGameState h) eqn:Hauth; cbn [negb andb].
  2: { exists [], [], [], []. cbn [app]. rewrite app_nil_r.
       destruct (autoHireGuestCount h pa sm); now repeat split. }
  destruct (autoHireGuestCount h pa sm) as [guests |].
  2: { exists [], [], [], []. cbn [app]. rewrite app_nil_r. now repeat split. }
  destruct (autoHireRole_spec Math_sin cfg h sm guests aq "handyman") as (i1 & Q1 & M1 & S1).
  set (aq1 := autoHireRole Math_sin cfg h sm guests aq "handyman") in *.
  destruct (autoHireRole_spec Math_sin cfg h sm (Z.of_nat (ParkAnalyzer.totalRides pa))
              aq1 "mechanic") as (i2 & Q2 & M2 & S2).
  set (aq2 := autoHireRole Math_sin cfg h sm _ aq1 "mechanic") in *.
  destruct (autoHireRole_spec Math_sin cfg h sm guests aq2 "security") as (i3 & Q3 & M3 & S3).
  set (aq3 := autoHireRole Math_sin cfg h sm guests aq2 "security") in *.
  destruct (autoHireRole_spec Math_sin cfg h sm guests aq3 "entertainer")
    as (i4 & Q4 & M4 & S4).
  exists i1, i2, i3, i4. rewrite Q4, Q3, Q2, Q1, M4, M3, M2, M1, <- !app_assoc.
  rewrite Hauth, !andb_true_r in S1, S2, S3, S4.
  unfold oneHireIf, driverMetric. cbn [String.eqb Ascii.eqb Bool.eqb].
  now repeat split.
Qed.

End AutoHireFacts.

(** X14. One call of [checkAutoHire()] appends at most four effects, all
    hire requests and at most one per role: one for exactly the roles
    where auto-hire is enabled globally and for the role, the instance is
    authoritative, the guest count could be read, and the role's roster is
    below its target.  In particular it appends nothing when auto-hire
    is off or the instance is not authoritative, and never asks for a role
    whose roster has reached the configured maximum (given the configured
    minimum does not exceed it). *)
Theorem checkAutoHire_respects_limits :
  forall (Math_sin : Q -> Q) (cfg : Config) (h : Host) (pa : ParkAnalyzer.t)
         (sm : StaffManager.t) (aq : ActionQueue.t),
    exists added : list PendingAction,
      ActionQueue.queue (StaffManager.checkAutoHire Math_sin cfg h pa sm aq)
        = ActionQueue.queue aq ++ added
      /\ ActionQueue.maxPerTick (StaffManager.checkAutoHire Math_sin cfg h pa sm aq)
        = ActionQueue.maxPerTick aq
      /\ (length added <= 4)%nat
      /\ length added = (hiresOf 0 added + hiresOf 1 added + hiresOf 2 added
                         + hiresOf 3 added)%nat
      /\ (forall ty, In ty roles ->
            hiresOf (staffTypeNumber ty) added
            = if autoHireDue cfg h pa sm ty then 1%nat else 0%nat)
      /\ (forall ty, In ty roles ->
            StaffManager.roleMin cfg ty <= StaffManager.roleMax cfg ty ->
            StaffManager.roleMax cfg ty <= Z.of_nat (length (StaffManager.roster sm ty)) ->
            hiresOf (staffTypeNumber ty) added = 0%nat)
      /\ (autoHireEnabled cfg && NetworkHelper.canModifyGameState h = false -> added = []).
Proof.
  intros Math_sin cfg h pa sm aq.
  destruct (checkAutoHire_items Math_sin cfg h pa sm aq)
    as (i1 & i2 & i3 & i4 & Hq & Hm & S1 & S2 & S3 & S4).
  exists (i1 ++ i2 ++ i3 ++ i4). split; [exact Hq |]. split; [exact Hm |].
  assert (Hcount : forall ty, In ty roles ->
            hiresOf (staffTypeNumber ty) (i1 ++ i2 ++ i3 ++ i4)
            = if autoHireDue cfg h pa sm ty then 1%nat else 0%nat).
  { intros ty Hty. rewrite !hiresOf_app.
    rewrite (hiresOf_oneHireIf _ "handyman" ty i1 S1), (hiresOf_oneHireIf _ "mechanic" ty i2 S2),
      (hiresOf_oneHireIf _ "security" ty i3 S3), (hiresOf_oneHireIf _ "entertainer" ty i4 S4);
      try exact Hty; try (cbn; tauto).
    destruct Hty as [<- | [<- | [<- | [<- | []]]]]; cbn [String.eqb Ascii.eqb Bool.eqb];
      rewrite ?andb_false_r, ?andb_true_r;
      match goal with
      | |- context [autoHireDue ?c ?a ?b ?d ?e] => destruct (autoHireDue c a b d e)
      end; reflexivity. }
  assert (Hlen : forall c ty items, oneHireIf c ty items ->
                   length items = if c then 1%nat else 0%nat).
  { intros c ty items Hi. unfold oneHireIf in Hi. destruct c;
      [destruct Hi as (? & ? & ->) | subst items]; reflexivity. }
  assert (Hlens : length (i1 ++ i2 ++ i3 ++ i4)
                  = (hiresOf 0 (i1 ++ i2 ++ i3 ++ i4) + hiresOf 1 (i1 ++ i2 ++ i3 ++ i4)
                     + hiresOf 2 (i1 ++ i2 ++ i3 ++ i4) + hiresOf 3 (i1 ++ i2 ++ i3 ++ i4))%nat).
  { change 0 with (staffTypeNumber "handyman"). change 1 with (staffTypeNumber "mechanic").
    change 2 with (staffTypeNumber "security"). change 3 with (staffTypeNumber "entertainer").
    rewrite !Hcount by (cbn; tauto).
    rewrite !length_app, (Hlen _ _ _ S1), (Hlen _ _ _ S2), (Hlen _ _ _ S3), (Hlen _ _ _ S4).
    lia. }
  split; [| split; [exact Hlens |]].
  { rewrite !length_app, (Hlen _ _ _ S1), (Hlen _ _ _ S2), (Hlen _ _ _ S3), (Hlen _ _ _ S4).
    repeat match goal with
           | |- context [autoHireDue ?c ?a ?b ?d ?e] => destruct (autoHireDue c a b d e)
           end; cbn; lia. }
  split; [exact Hcount |]. split.
  - intros ty Hty Hminmax Hfull. rewrite (Hcount ty Hty).
    unfold autoHireDue. destruct (autoHireGuestCount h pa sm) as [guests |]; [| reflexivity].
    pose proof (hireTarget_range (StaffManager.roleMin cfg ty) (StaffManager.roleMax cfg ty)
                  (driverMetric pa guests ty) (StaffManager.roleRatio cfg ty) Hminmax) as Ht.
    fold (StaffManager.roleTarget cfg ty (driverMetric pa guests ty)) in Ht.
    destruct (Z.ltb_spec (Z.of_nat (length (StaffManager.roster sm ty)))
                (StaffManager.roleTarget cfg ty (driverMetric pa guests ty))); [lia |].
    now rewrite andb_false_r.
  - intros Hoff.
    assert (Hnone : forall ty, autoHireDue cfg h pa sm ty = false).
    { intros ty. unfold autoHireDue. destruct (autoHireGuestCount h pa sm); [| reflexivity].
      now rewrite Hoff. }
    unfold oneHireIf in S1, S2, S3, S4. rewrite Hnone in S1, S2, S3, S4. now subst.
Qed.

(** X15. Auto-hire tops a role up to its configured minimum: with
    auto-hire on (globally and for the role), authority, and a readable
    guest count, a role whose roster is below its minimum gets exactly one
    hire request per call, whatever the metric, the ratio and the
    configured maximum are (also when the maximum is below the
    minimum). *)
Theorem checkAutoHire_tops_up_to_minimum :
  forall (Math_sin : Q -> Q) (cfg : Config) (h : Host) (pa : ParkAnalyzer.t)
         (sm : StaffManager.t) (aq : ActionQueue.t) (ty : string),
    In ty roles ->
    autoHireEnabled cfg = true ->
    NetworkHelper.canModifyGameState h = true ->
    StaffManager.roleAutoHire cfg ty = true ->
    autoHireGuestCount h pa sm <> None ->
    Z.of_nat (length (StaffManager.roster sm ty)) < StaffManager.roleMin cfg ty ->
    hiresOf (staffTypeNumber ty)
      (ActionQueue.queue (StaffManager.checkAutoHire Math_sin cfg h pa sm aq))
    = S (hiresOf (staffTypeNumber ty) (ActionQueue.queue aq)).
Proof.
  intros Math_sin cfg h pa sm aq ty Hty Hon Hauth Hrole Hguests Hlow.
  destruct (checkAutoHire_items Math_sin cfg h pa sm aq)
    as (i1 & i2 & i3 & i4 & Hq & _ & S1 & S2 & S3 & S4).
  rewrite Hq, !hiresOf_app.
  rewrite (hiresOf_oneHireIf _ "handyman" ty i1 S1), (hiresOf_oneHireIf _ "mechanic" ty i2 S2),
    (hiresOf_oneHireIf _ "security" ty i3 S3), (hiresOf_oneHireIf _ "entertainer" ty i4 S4);
    try exact Hty; try (cbn; tauto).
  assert (Hdue : autoHireDue cfg h pa sm ty = true).
  { unfold autoHireDue. destruct (autoHireGuestCount h pa sm) as [guests |]; [| congruence].
    rewrite Hon, Hauth, Hrole. cbn [andb]. apply Z.ltb_lt.
    unfold StaffManager.roleTarget, StaffManager.hireTarget. lia. }
  destruct Hty as [<- | [<- | [<- | [<- | []]]]]; cbn [String.eqb Ascii.eqb Bool.eqb];
    rewrite ?andb_false_r, ?andb_true_r, Hdue; lia.
Qed.

(** ** What the crime detector records *)

Section CrimeRecords.
Import CrimeDetector.
Variable h : Host.

Lemma inspect_records (tile : nat * nat) (elements : list (option Element)) :
  forall cd : CrimeDetector.t,
    let n := length (List.filter (holds isVandalised) elements) in
    let cd' := fold_left (inspect h tile) elements cd in
    recentCrimes cd' = recentCrimes cd ++ repeat (crimeAt h tile) n
    /\ crimeHotspots cd' = SpatialHash.addAll (crimeHotspots cd) (repeat (hotspotEntry tile) n)
    /\ lastCheck cd' = lastCheck cd.
Proof.
  induction elements as [| e es IH]; intros cd; cbn zeta; cbn [fold_left List.filter].
  - cbn [length repeat]. now rewrite app_nil_r.
  - destruct (IH (inspect h tile cd e)) as (Hr & Hh & Hl). cbn zeta in *.
    rewrite Hr, Hh, Hl. unfold inspect.
    destruct e as [[isQueue isBroken isBlocked | r | |] |];
      cbn [holds isVandalised]; try (now repeat split).
    destruct (isBroken || isBlocked); [| now repeat split].
    cbn [length repeat recentCrimes crimeHotspots lastCheck]. rewrite <- app_assoc.
    now repeat split.
Qed.

Lemma sample_records (tiles : list (nat * nat)) :
  forall cd : CrimeDetector.t,
    let crimes := flat_map (fun tile => repeat (crimeAt h tile) (vandalisedAt h tile)) tiles in
    let entries := flat_map (fun tile => repeat (hotspotEntry tile) (vandalisedAt h tile)) tiles in
    let cd' := fold_left (sample h) tiles cd in
    recentCrimes cd' = recentCrimes cd ++ crimes
    /\ crimeHotspots cd' = SpatialHash.addAll (crimeHotspots cd) entries
    /\ length crimes = length entries.
Proof.
  induction tiles as [| tile ts IH]; intros cd; cbn zeta; cbn [fold_left flat_map].
  - now rewrite app_nil_r.
  - destruct (IH (sample h cd tile)) as (Hr & Hh & Hlen). cbn zeta in *.
    rewrite Hr, Hh, !length_app, !repeat_length, Hlen.
    unfold sample, vandalisedAt.
    destruct (map_getTile h (fst tile) (snd tile)) as [elements |].
    + destruct (inspect_records tile elements cd) as (Hr' & Hh' & _). cbn zeta in *.
      rewrite Hr', Hh', <- app_assoc. split; [reflexivity |]. split; [| reflexivity].
      unfold SpatialHash.addAll. now rewrite fold_left_app.
    + cbn [repeat app]. now repeat split.
Qed.

End CrimeRecords.

(** X16. After [CrimeDetector.update()] the three crime records agree
    and are exact: the vandalism count, the number of recent crimes and
    the number of entries in the hotspot index are equal; the recent
    crimes are, for each of the first 300 discovered path tiles in order,
    one crime per footpath element there that is broken or blocked; so
    every recent crime is stamped with the current tick and sits on a
    sampled tile where the host shows such an element.  When the world
    size cannot be read, nothing is sampled and the count is 0. *)
Theorem CrimeDetector_update_records :
  forall (h : Host) (pa : ParkAnalyzer.t) (cd : CrimeDetector.t),
    let cd' := CrimeDetector.update h pa cd in
    let sampled := firstn 300 (ParkAnalyzer.pathTiles pa) in
    CrimeDetector.vandalismCount cd' = Z.of_nat (length (CrimeDetector.recentCrimes cd'))
    /\ SpatialHash.count (CrimeDetector.crimeHotspots cd')
       = length (CrimeDetector.recentCrimes cd')
    /\ CrimeDetector.recentCrimes cd'
       = match map_size h with
         | Some _ => flat_map (fun tile => repeat (crimeAt h tile) (vandalisedAt h tile)) sampled
         | None => []
         end
    /\ (forall c, In c (CrimeDetector.recentCrimes cd') ->
          In (CrimeDetector.crime_x c, CrimeDetector.crime_y c) sampled
          /\ tileHas h isVandalised (CrimeDetector.crime_x c) (CrimeDetector.crime_y c) = true
          /\ CrimeDetector.crime_tick c = CrimeDetector.getGameTick h
          /\ CrimeDetector.crime_type c = "vandalism"%string).
Proof.
  intros h pa cd. cbn zeta.
  split; [apply update_counts_crimes |].
  assert (Hrec : CrimeDetector.recentCrimes (CrimeDetector.update h pa cd)
                 = match map_size h with
                   | Some _ => flat_map (fun tile => repeat (crimeAt h tile) (vandalisedAt h tile))
                                 (firstn 300 (ParkAnalyzer.pathTiles pa))
                   | None => []
                   end
                 /\ SpatialHash.count (CrimeDetector.crimeHotspots (CrimeDetector.update h pa cd))
                    = length (CrimeDetector.recentCrimes (CrimeDetector.update h pa cd))).
  { unfold CrimeDetector.update. destruct (map_size h); [| now split].
    set (cleared := {| CrimeDetector.vandalismCount := 0; CrimeDetector.recentCrimes := [];
                       CrimeDetector.crimeHotspots :=
                         SpatialHash.clear (CrimeDetector.crimeHotspots cd);
                       CrimeDetector.lastCheck := CrimeDetector.lastCheck cd |}).
    destruct (sample_records h (firstn 300 (ParkAnalyzer.pathTiles pa)) cleared)
      as (Hr & Hh & Hlen). cbn zeta in *.
    rewrite Hr, Hh. cbn [cleared CrimeDetector.recentCrimes CrimeDetector.crimeHotspots app].
    split; [reflexivity |].
    assert (Hwf : wellFormed (SpatialHash.clear (CrimeDetector.crimeHotspots cd)))
      by (split; [apply NoDup_nil_2 | intros k es []]).
    destruct (count_wellFormed_addAll
                (flat_map (fun tile => repeat (hotspotEntry tile) (vandalisedAt h tile))
                   (firstn 300 (ParkAnalyzer.pathTiles pa))) _ Hwf) as [-> _].
    rewrite Hlen. reflexivity. }
  destruct Hrec as [Hrec Hcount]. split; [exact Hcount |]. split; [exact Hrec |].
  intros c Hc. rewrite Hrec in Hc. destruct (map_size h); [| destruct Hc].
  apply in_flat_map in Hc as (tile & Htile & Hc).
  apply repeat_spec in Hc as Heq.
  assert (Hpos : vandalisedAt h tile <> 0%nat)
    by (intros Hz; rewrite Hz in Hc; destruct Hc).
  subst c. cbn [crimeAt CrimeDetector.crime_x CrimeDetector.crime_y
                CrimeDetector.crime_tick CrimeDetector.crime_type].
  split; [now destruct tile |]. split; [| now split].
  unfold vandalisedAt in Hpos. unfold tileHas.
  destruct (map_getTile h (fst tile) (snd tile)) as [elements |]; [| congruence].
  destruct (List.filter (holds isVandalised) elements) as [| e es] eqn:Hf; [now cbn in Hpos |].
  assert (He : In e (List.filter (holds isVandalised) elements)) by (rewrite Hf; now left).
  apply filter_In in He as [He Hv]. apply existsb_exists. now exists e.
Qed.

(** ** Guest feedback *)

Section FeedbackRanges.
Import GuestFeedbackAnalyzer.

Lemma tallyThoughts_counts (thoughts : list (option string)) :
  forall acc : Tally,
    let acc' := fold_left tallyThought thoughts acc in
    t_disgust acc <= t_disgust acc' /\ t_litter acc <= t_litter acc'
    /\ t_unhappy acc' = t_unhappy acc.
Proof.
  induction thoughts as [| th ths IH]; intros acc; cbn zeta; cbn [fold_left]; [lia |].
  destruct (IH (tallyThought acc th)) as (Hd & Hl & Hu). cbn zeta in *.
  rewrite Hu. destruct th as [ty |]; cbn [tallyThought t_disgust t_litter t_unhappy] in *;
    [| lia].
  destruct (isDisgust ty), (isLitter ty); lia.
Qed.

(** What one guest does to the tally. *)
Lemma tallyGuest_step (acc : Tally) (guest : option Guest) :
  let acc' := tallyGuest acc guest in
  t_disgust acc <= t_disgust acc' /\ t_litter acc <= t_litter acc'
  /\ match guest with
     | Some g =>
         match guest_happiness g with
         | Some happiness =>
             totalHappiness acc' = totalHappiness acc + happiness
             /\ happyCount acc' = happyCount acc + 1
             /\ t_unhappy acc <= t_unhappy acc' <= t_unhappy acc + 1
         | None =>
             totalHappiness acc' = totalHappiness acc /\ happyCount acc' = happyCount acc
             /\ t_unhappy acc' = t_unhappy acc
         end
     | None => acc' = acc
     end.
Proof.
  cbn zeta. destruct guest as [g |]; [| cbn [tallyGuest]; repeat split; lia].
  cbn [tallyGuest].
  set (a1 := tallyHappiness acc g).
  set (a2 := fold_left tallyThought (guest_thoughts g) a1).
  destruct (tallyThoughts_counts (guest_thoughts g) a1) as (Hd & Hl & Hu).
  destruct (tallyThoughts_happiness (guest_thoughts g) a1) as (Ht & Hc).
  destruct (tallyNausea_happiness a2 g) as (Ht' & Hc').
  fold a2 in Hd, Hl, Hu, Ht, Hc. cbn zeta in *.
  assert (Hn : t_disgust a2 <= t_disgust (tallyNausea a2 g)
               /\ t_litter (tallyNausea a2 g) = t_litter a2
               /\ t_unhappy (tallyNausea a2 g) = t_unhappy a2).
  { unfold tallyNausea. destruct (guest_nausea g) as [n |]; [| lia].
    destruct (150 <? n); cbn [t_disgust t_litter t_unhappy]; lia. }
  destruct Hn as (Hnd & Hnl & Hnu).
  rewrite Ht', Hc', Hnu, Ht, Hc, Hu, Hnl.
  unfold a1, tallyHappiness in *.
  destruct (guest_happiness g) as [hp |];
    cbn [totalHappiness happyCount t_disgust t_litter t_unhappy] in *.
  - destruct (hp <? 153); repeat split; lia.
  - repeat split; lia.
Qed.

Lemma tallyGuests_ranges (guests : list (option Guest)) :
  forall acc : Tally,
    let acc' := fold_left tallyGuest guests acc in
    t_disgust acc <= t_disgust acc' /\ t_litter acc <= t_litter acc'
    /\ happyCount acc <= happyCount acc' <= happyCount acc + Z.of_nat (length guests)
    /\ t_unhappy acc <= t_unhappy acc'
    /\ t_unhappy acc' - t_unhappy acc <= happyCount acc' - happyCount acc
    /\ (happinessInRange guests = true ->
        0 <= totalHappiness acc' - totalHappiness acc
          <= 255 * (happyCount acc' - happyCount acc)).
Proof.
  induction guests as [| guest gs IH]; intros acc; cbn zeta; cbn [fold_left length].
  - repeat split; lia.
  - destruct (IH (tallyGuest acc guest)) as (Hd & Hl & Hc & Hu & Hu' & Hr). cbn zeta in *.
    destruct (tallyGuest_step acc guest) as (Sd & Sl & Sg). cbn zeta in *.
    assert (Hrange : happinessInRange (guest :: gs) = true ->
              happinessInRange gs = true
              /\ 0 <= totalHappiness (tallyGuest acc guest) - totalHappiness acc
                 <= 255 * (happyCount (tallyGuest acc guest) - happyCount acc)).
    { cbn [happinessInRange forallb]. intros Hall. apply andb_true_iff in Hall as [Hg Hgs].
      split; [exact Hgs |].
      destruct guest as [g |]; [| rewrite Sg; lia].
      destruct (guest_happiness g) as [hp |]; [| lia].
      apply andb_true_iff in Hg as [H0 H255]. apply Z.leb_le in H0, H255. lia. }
    destruct guest as [g |];
      [destruct (guest_happiness g) as [hp |] | rewrite Sg in *];
      (split; [lia |]; split; [lia |]; split; [lia |]; split; [lia |]; split; [lia |]);
      intros Hall; destruct (Hrange Hall) as [Hgs Hstep]; specialize (Hr Hgs); lia.
Qed.

Lemma percent_range (total count : Z) :
  0 < count -> 0 <= total <= 255 * count ->
  0 <= Math_round ((inject_Z total / inject_Z count / 255) * 100)%Q <= 100.
Proof.
  intros Hcount Htotal. unfold Math_round.
  assert (Hc : (0 < inject_Z count)%Q)
    by (change 0%Q with (inject_Z 0); now rewrite <- Zlt_Qlt).
  assert (Hlo : (0 <= inject_Z total / inject_Z count)%Q).
  { apply Qle_shift_div_l; [exact Hc |]. rewrite Qmult_0_l.
    change 0%Q with (inject_Z 0). rewrite <- Zle_Qle. lia. }
  assert (Hhi : (inject_Z total / inject_Z count <= 255)%Q).
  { apply Qle_shift_div_r; [exact Hc |].
    change 255%Q with (inject_Z 255). rewrite <- inject_Z_mult, <- Zle_Qle. lia. }
  set (avg := (inject_Z total / inject_Z count)%Q) in *.
  assert (Hx : (0 <= avg / 255 * 100)%Q /\ (avg / 255 * 100 <= 100)%Q).
  { unfold Qdiv. change (/ 255)%Q with (1 # 255)%Q. split; lra. }
  destruct Hx as [Hx0 Hx1]. split.
  - apply Z.le_trans with (Qfloor 0); [reflexivity | apply Qfloor_resp_le; lra].
  - apply Z.le_trans with (Qfloor (100 + (1 # 2))); [apply Qfloor_resp_le; lra | reflexivity].
Qed.

End FeedbackRanges.

(** X17. After [GuestFeedbackAnalyzer.update()] the need signals are in
    range: the complaint counts are not negative, the unhappy-guest count
    is between 0 and the number of guests, which is [totalGuests]; and if
    every numeric guest happiness is on the 0-255 scale, the happiness
    percentage stays between 0 and 100 whenever it was before. *)
Theorem GuestFeedback_update_in_range :
  forall (h : Host) (gfa : GuestFeedbackAnalyzer.t),
    let gfa' := GuestFeedbackAnalyzer.update h gfa in
    0 <= GuestFeedbackAnalyzer.disgustCount gfa'
    /\ 0 <= GuestFeedbackAnalyzer.litterComplaints gfa'
    /\ 0 <= GuestFeedbackAnalyzer.unhappyGuestCount gfa'
    /\ match map_guests h with
       | Some guests =>
           GuestFeedbackAnalyzer.totalGuests gfa' = Z.of_nat (length guests)
           /\ GuestFeedbackAnalyzer.unhappyGuestCount gfa' <= Z.of_nat (length guests)
           /\ (happinessInRange guests = true ->
               0 <= GuestFeedbackAnalyzer.happinessPercent gfa <= 100 ->
               0 <= GuestFeedbackAnalyzer.happinessPercent gfa' <= 100)
       | None =>
           GuestFeedbackAnalyzer.totalGuests gfa' = GuestFeedbackAnalyzer.totalGuests gfa
           /\ GuestFeedbackAnalyzer.happinessPercent gfa'
              = GuestFeedbackAnalyzer.happinessPercent gfa
       end.
Proof.
  intros h gfa. cbn zeta. unfold GuestFeedbackAnalyzer.update.
  destruct (map_guests h) as [guests |];
    cbn [GuestFeedbackAnalyzer.disgustCount GuestFeedbackAnalyzer.litterComplaints
         GuestFeedbackAnalyzer.unhappyGuestCount GuestFeedbackAnalyzer.totalGuests
         GuestFeedbackAnalyzer.happinessPercent]; [| repeat split; lia].
  set (zero := {| GuestFeedbackAnalyzer.totalHappiness := 0;
                  GuestFeedbackAnalyzer.happyCount := 0;
                  GuestFeedbackAnalyzer.t_disgust := 0;
                  GuestFeedbackAnalyzer.t_litter := 0;
                  GuestFeedbackAnalyzer.t_unhappy := 0 |}).
  destruct (tallyGuests_ranges guests zero) as (Hd & Hl & Hc & Hu & Hu' & Hr).
  cbn zeta in *.
  set (acc := fold_left GuestFeedbackAnalyzer.tallyGuest guests zero) in *.
  cbn [zero GuestFeedbackAnalyzer.totalHappiness GuestFeedbackAnalyzer.happyCount
       GuestFeedbackAnalyzer.t_disgust GuestFeedbackAnalyzer.t_litter
       GuestFeedbackAnalyzer.t_unhappy] in *.
  repeat split; try lia.
  - destruct (Z.ltb_spec 0 (GuestFeedbackAnalyzer.happyCount acc)); [| lia].
    apply percent_range; [assumption |]. specialize (Hr H). lia.
  - destruct (Z.ltb_spec 0 (GuestFeedbackAnalyzer.happyCount acc)); [| lia].
    apply percent_range; [assumption |]. specialize (Hr H). lia.
Qed.

(** X18. The need signals are recomputed, not accumulated: the complaint
    and unhappy-guest counts after [update()] do not depend on the state
    before it, and a second [update()] on the same world changes
    nothing. *)
Theorem GuestFeedback_update_recomputes :
  forall (h : Host) (gfa other : GuestFeedbackAnalyzer.t),
    GuestFeedbackAnalyzer.update h (GuestFeedbackAnalyzer.update h gfa)
      = GuestFeedbackAnalyzer.update h gfa
    /\ GuestFeedbackAnalyzer.disgustCount (GuestFeedbackAnalyzer.update h gfa)
       = GuestFeedbackAnalyzer.disgustCount (GuestFeedbackAnalyzer.update h other)
    /\ GuestFeedbackAnalyzer.litterComplaints (GuestFeedbackAnalyzer.update h gfa)
       = GuestFeedbackAnalyzer.litterComplaints (GuestFeedbackAnalyzer.update h other)
    /\ GuestFeedbackAnalyzer.unhappyGuestCount (GuestFeedbackAnalyzer.update h gfa)
       = GuestFeedbackAnalyzer.unhappyGuestCount (GuestFeedbackAnalyzer.update h other).
Proof.
  intros h gfa other. unfold GuestFeedbackAnalyzer.update.
  destruct (map_guests h) as [guests |]; [| now repeat split].
  cbn [GuestFeedbackAnalyzer.averageHappiness GuestFeedbackAnalyzer.happinessPercent
       GuestFeedbackAnalyzer.disgustCount GuestFeedbackAnalyzer.litterComplaints
       GuestFeedbackAnalyzer.unhappyGuestCount].
  destruct (0 <? GuestFeedbackAnalyzer.happyCount _); now repeat split.
Qed.

(** ** Litter index and handyman orders *)

Section LitterFacts.
Import ParkAnalyzer.

Lemma indexLitter_fold (items : list (option (Z * Z))) :
  forall pa : ParkAnalyzer.t,
    let entries := map (fun p : Z * Z => (fst p / 32, snd p / 32, tt)) (nonNull items) in
    let pa' := fold_left indexLitter items pa in
    litterLocations pa' = SpatialHash.addAll (litterLocations pa) entries
    /\ totalLitter pa' = (totalLitter pa + length (nonNull items))%nat
    /\ vandalismLocations pa' = vandalismLocations pa
    /\ totalVandalism pa' = totalVandalism pa
    /\ control pa' = control pa
    /\ (pathTiles pa', queueLocations pa', entranceLocations pa', rideLocations pa',
        totalPathTiles pa', guestDensity pa', totalGuests pa', totalRides pa')
       = (pathTiles pa, queueLocations pa, entranceLocations pa, rideLocations pa,
          totalPathTiles pa, guestDensity pa, totalGuests pa, totalRides pa).
Proof.
  induction items as [| item items IH]; intros pa; cbn zeta; cbn [fold_left].
  - cbn. repeat split. lia.
  - destruct (IH (indexLitter pa item)) as (H1 & H2 & H3 & H4 & H5 & H6). cbn zeta in *.
    rewrite H1, H2, H3, H4, H5, H6.
    destruct item as [[x y] |];
      (split; [reflexivity |];
       split; [unfold nonNull; cbn [flat_map app length indexLitter totalLitter]; lia |];
       repeat split).
Qed.

End LitterFacts.

(** X19. After [updateLitterAndVandalism()] (v3.0) the litter counter
    and the litter index agree: [totalLitter] is the number of entries in
    the index and the number of non-null litter entities (0 when the query
    throws).  The vandalism counter and index are always left empty, and
    nothing the world scan found or tracks is touched. *)
Theorem updateLitterAndVandalism_counts :
  forall (litter : option (list (option (Z * Z)))) (pa : ParkAnalyzer.t),
    let pa' := ParkAnalyzer.updateLitterAndVandalism litter pa in
    ParkAnalyzer.totalLitter pa' = SpatialHash.count (ParkAnalyzer.litterLocations pa')
    /\ ParkAnalyzer.totalLitter pa'
       = match litter with Some items => length (nonNull items) | None => 0%nat end
    /\ ParkAnalyzer.totalVandalism pa' = 0%nat
    /\ SpatialHash.count (ParkAnalyzer.vandalismLocations pa') = 0%nat
    /\ control pa' = control pa
    /\ ParkAnalyzer.pathTiles pa' = ParkAnalyzer.pathTiles pa
    /\ ParkAnalyzer.queueLocations pa' = ParkAnalyzer.queueLocations pa
    /\ ParkAnalyzer.entranceLocations pa' = ParkAnalyzer.entranceLocations pa
    /\ ParkAnalyzer.rideLocations pa' = ParkAnalyzer.rideLocations pa
    /\ ParkAnalyzer.totalPathTiles pa' = ParkAnalyzer.totalPathTiles pa.
Proof.
  intros litter pa. cbn zeta. unfold ParkAnalyzer.updateLitterAndVandalism.
  destruct litter as [items |]; [| now repeat split].
  set (cleared := {| ParkAnalyzer.litterLocations := _ |}).
  destruct (indexLitter_fold items cleared) as (H1 & H2 & H3 & H4 & H5 & H6).
  cbn zeta in *. rewrite H1, H2, H3, H4, H5.
  injection H6 as -> -> -> -> -> _ _ _.
  cbn [cleared ParkAnalyzer.litterLocations ParkAnalyzer.totalLitter
       ParkAnalyzer.vandalismLocations ParkAnalyzer.totalVandalism
       ParkAnalyzer.pathTiles ParkAnalyzer.queueLocations ParkAnalyzer.entranceLocations
       ParkAnalyzer.rideLocations ParkAnalyzer.totalPathTiles].
  assert (Hwf : wellFormed (SpatialHash.clear (ParkAnalyzer.litterLocations pa)))
    by (split; [apply NoDup_nil_2 | intros k es []]).
  destruct (count_wellFormed_addAll
              (map (fun p : Z * Z => (fst p / 32, snd p / 32, tt)) (nonNull items)) _ Hwf)
    as [-> _].
  rewrite length_map. now repeat split.
Qed.

(** X20. [processHandymen()] (v3.0) queues one order change for each
    handyman whose orders differ from the configured ones, in roster
    order, and none for the others; so when every handyman already has
    the configured orders, or handymen are disabled, or there are none,
    the queue is left as it is.  It does this whether or not the instance
    is authoritative. *)
Theorem processHandymen_queues_needed_changes :
  forall (cfg : Config) (handymanEnabled : bool) (litter : option (list (option (Z * Z))))
         (pa : ParkAnalyzer.t) (sm : StaffManager.t) (aq : ActionQueue.t),
    let aq' := snd (StaffManager.processHandymen cfg handymanEnabled litter pa sm aq) in
    let changed :=
      List.filter (fun m => negb (hasConfiguredOrders cfg m)) (StaffManager.handymen sm) in
    ActionQueue.queue aq'
      = ActionQueue.queue aq ++ (if handymanEnabled then map (orderChange cfg) changed else [])
    /\ ActionQueue.maxPerTick aq' = ActionQueue.maxPerTick aq
    /\ (forallb (hasConfiguredOrders cfg) (StaffManager.handymen sm) = true -> aq' = aq)
    /\ (length (ActionQueue.queue aq')
        <= length (ActionQueue.queue aq) + length (StaffManager.handymen sm))%nat.
Proof.
  intros cfg enabled litter pa sm aq. cbn zeta.
  assert (Hfold : forall staff q,
            let q' := fold_left (fun q handyman =>
                        if staff_orders handyman =? StaffManager.handymanOrders cfg then q
                        else ActionQueue.add q "staffsetorders"
                               (SetOrdersArgs (staff_id handyman)
                                  (StaffManager.handymanOrders cfg))
                               (Some OnOrdersChanged)) staff q in
            ActionQueue.queue q'
              = ActionQueue.queue q
                ++ map (orderChange cfg)
                     (List.filter (fun m => negb (hasConfiguredOrders cfg m)) staff)
            /\ ActionQueue.maxPerTick q' = ActionQueue.maxPerTick q).
  { induction staff as [| m ms IH]; intros q; cbn zeta; cbn [fold_left List.filter map].
    - now rewrite app_nil_r.
    - destruct (IH (if staff_orders m =? StaffManager.handymanOrders cfg then q
                    else ActionQueue.add q "staffsetorders"
                           (SetOrdersArgs (staff_id m) (StaffManager.handymanOrders cfg))
                           (Some OnOrdersChanged))) as [Hq Hm].
      cbn zeta in *. rewrite Hq, Hm. unfold hasConfiguredOrders.
      destruct (staff_orders m =? StaffManager.handymanOrders cfg); cbn [negb map].
      + now split.
      + cbn [ActionQueue.add ActionQueue.queue ActionQueue.maxPerTick].
        now rewrite <- app_assoc. }
  assert (Hsame : forall staff, forallb (hasConfiguredOrders cfg) staff = true ->
                    List.filter (fun m => negb (hasConfiguredOrders cfg m)) staff = []).
  { induction staff as [| m ms IH]; cbn [forallb List.filter]; [reflexivity |].
    intros Hall. apply andb_true_iff in Hall as [-> Hms]. cbn [negb]. now apply IH. }
  unfold StaffManager.processHandymen.
  destruct enabled; cbn [negb orb fst snd].
  - destruct (StaffManager.handymen sm) as [| m ms] eqn:Hh; cbn [length Nat.eqb fst snd].
    + cbn [List.filter map]. rewrite app_nil_r. repeat split. lia.
    + destruct (Hfold (m :: ms) aq) as [Hq Hm]. cbn zeta in *.
      split; [exact Hq |]. split; [exact Hm |]. split.
      * intros Hall. rewrite (Hsame _ Hall) in Hq. cbn [map] in Hq.
        rewrite app_nil_r in Hq.
        destruct (fold_left _ (m :: ms) aq) as [q' m']. destruct aq as [q0 m0].
        cbn [ActionQueue.queue ActionQueue.maxPerTick] in *. congruence.
      * rewrite Hq, length_app, length_map.
        pose proof (List.filter_length_le (fun m => negb (hasConfiguredOrders cfg m)) (m :: ms))
          as Hle.
        cbn [length] in *. lia.
  - rewrite app_nil_r. repeat split. lia.
Qed.

(** ** Handyman grid zones *)

Section GridZones.
Import StaffManager.

Lemma ceilDiv_spec (a b : Z) :
  1 <= b -> (ceilDiv a b - 1) * b < a <= ceilDiv a b * b.
Proof.
  intros Hb. unfold ceilDiv, Math_ceil.
  assert (Hbq : (0 < inject_Z b)%Q)
    by (change 0%Q with (inject_Z 0); rewrite <- Zlt_Qlt; lia).
  set (x := (inject_Z a / inject_Z b)%Q).
  pose proof (Qle_ceiling x) as Hup. pose proof (Qceiling_lt x) as Hlow.
  assert (Hx : (x * inject_Z b == inject_Z a)%Q).
  { unfold x. field. intros Hz. rewrite Hz in Hbq. now apply Qlt_irrefl in Hbq. }
  split.
  - rewrite Zlt_Qlt, inject_Z_mult, <- Hx. apply Qmult_lt_compat_r; [exact Hbq |].
    exact Hlow.
  - rewrite Zle_Qle, inject_Z_mult, <- Hx. apply Qmult_le_compat_r; [exact Hup |].
    now apply Qlt_le_weak.
Qed.

Lemma setStaffPatrolArea_adds (h : Host) (aq : ActionQueue.t) (id : Z)
    (x1 y1 x2 y2 : Q) (mode : Z) :
  NetworkHelper.canModifyGameState h = true -> 0 <= id ->
  setStaffPatrolArea h aq (Some id) x1 y1 x2 y2 mode
  = {| ActionQueue.queue := ActionQueue.queue aq ++ [patrolEffect h id x1 y1 x2 y2 mode];
       ActionQueue.maxPerTick := ActionQueue.maxPerTick aq |}.
Proof.
  intros Hauth Hid. unfold setStaffPatrolArea. rewrite Hauth. cbn [negb].
  destruct (Z.ltb_spec id 0); [lia | reflexivity].
Qed.

(** The grid loop appends, for each handyman with an accepted id, the
    zone of its roster position, and nothing else. *)
Lemma assignGridZones_queue (cfg : Config) (h : Host) (staff : list StaffMember) :
  NetworkHelper.canModifyGameState h = true ->
  forall (i : Z) (aq : ActionQueue.t),
    let W := Z.of_nat (fst (mapDims h)) in
    let H := Z.of_nat (snd (mapDims h)) in
    let zonesX := ceilDiv W (patrolZoneSize cfg) in
    let aq' := assignGridZones h (patrolZoneSize cfg) (patrolZoneOverlap cfg) zonesX
                 (zonesX * ceilDiv H (patrolZoneSize cfg)) i staff aq in
    ActionQueue.maxPerTick aq' = ActionQueue.maxPerTick aq
    /\ (forall item, In item (ActionQueue.queue aq) -> In item (ActionQueue.queue aq'))
    /\ (length (ActionQueue.queue aq')
        = length (ActionQueue.queue aq) + length (List.filter validId staff))%nat
    /\ (forall (k : nat) (m : StaffMember) (id : Z),
          nth_error staff k = Some m -> staff_id m = Some id -> 0 <= id ->
          In (gridZoneEffect cfg h (i + Z.of_nat k) id) (ActionQueue.queue aq')).
Proof.
  intros Hauth. induction staff as [| m ms IH]; intros i aq; cbn zeta;
    cbn [assignGridZones List.filter].
  - repeat split; try tauto; [cbn; lia | intros [| k] ? ? Hn; discriminate Hn].
  - set (aq1 := match staff_id m with Some id => _ | None => aq end).
    destruct (IH (i + 1) aq1) as (Hm & Hin & Hlen & Hnth). cbn zeta in *.
    assert (H1 : ActionQueue.maxPerTick aq1 = ActionQueue.maxPerTick aq
                 /\ (forall item, In item (ActionQueue.queue aq) -> In item (ActionQueue.queue aq1))
                 /\ (length (ActionQueue.queue aq1)
                     = length (ActionQueue.queue aq) + (if validId m then 1 else 0))%nat
                 /\ (forall id, staff_id m = Some id -> 0 <= id ->
                       In (gridZoneEffect cfg h i id) (ActionQueue.queue aq1))).
    { unfold aq1, validId. destruct (staff_id m) as [id |].
      - destruct (Z.leb_spec 0 id) as [Hid | Hid].
        + rewrite setStaffPatrolArea_adds by assumption.
          cbn [ActionQueue.queue ActionQueue.maxPerTick]. rewrite length_app. cbn [length].
          split; [reflexivity |]. split; [intros item Hi; apply in_or_app; now left |].
          split; [lia |]. intros id' Heq _. injection Heq as <-.
          apply in_or_app. right. now left.
        + unfold setStaffPatrolArea. rewrite Hauth. cbn [negb].
          destruct (Z.ltb_spec id 0); [| lia].
          repeat split; try tauto; try lia. intros id' Heq Hid'. injection Heq as <-. lia.
      - repeat split; try tauto; try lia. intros id' Heq. discriminate Heq. }
    destruct H1 as (Hm1 & Hin1 & Hlen1 & Hhere).
    split; [congruence |]. split; [auto |]. split.
    + rewrite Hlen, Hlen1. destruct (validId m); cbn [length]; lia.
    + intros [| k] m' id Hn Hid Hpos.
      * injection Hn as <-. apply Hin. rewrite Z.add_0_r. now apply Hhere.
      * replace (i + Z.of_nat (S k)) with (i + 1 + Z.of_nat k) by lia.
        now apply (Hnth k m').
Qed.

End GridZones.

(** X21. With enough handymen the grid zones cover the world.  On the
    authoritative instance, with a positive zone size, a non-negative
    overlap, every handyman carrying an accepted id, and at least as many
    handymen as grid cells ([ceil(W / size) * ceil(H / size)]), every tile
    of the world lies in the patrol rectangle queued for some handyman:
    the one at roster position [(y / size) * ceil(W / size) + x / size]. *)
Theorem handyman_zones_cover_the_world :
  forall (cfg : Config) (h : Host) (sm : StaffManager.t) (aq : ActionQueue.t) (x y : nat),
    NetworkHelper.canModifyGameState h = true ->
    1 <= patrolZoneSize cfg ->
    0 <= patrolZoneOverlap cfg ->
    forallb validId (StaffManager.handymen sm) = true ->
    StaffManager.ceilDiv (Z.of_nat (fst (mapDims h))) (patrolZoneSize cfg)
      * StaffManager.ceilDiv (Z.of_nat (snd (mapDims h))) (patrolZoneSize cfg)
      <= Z.of_nat (length (StaffManager.handymen sm)) ->
    (x < fst (mapDims h))%nat ->
    (y < snd (mapDims h))%nat ->
    exists (m : StaffMember) (id x1 y1 x2 y2 : Z),
      nth_error (StaffManager.handymen sm)
        (Z.to_nat (Z.of_nat y / patrolZoneSize cfg
                   * StaffManager.ceilDiv (Z.of_nat (fst (mapDims h))) (patrolZoneSize cfg)
                   + Z.of_nat x / patrolZoneSize cfg)) = Some m
      /\ staff_id m = Some id
      /\ In {| action := "staffsetpatrolarea";
               args := PatrolAreaArgs id (x1 * 32) (y1 * 32) (x2 * 32) (y2 * 32) 0;
               callback := Some OnPatrolAreaSet |}
            (ActionQueue.queue (StaffManager.generateHandymanPatrolZones cfg h sm aq))
      /\ x1 <= Z.of_nat x <= x2 /\ y1 <= Z.of_nat y <= y2.
Proof.
  intros cfg h sm aq x y Hauth Hzs Hov Hids Hmany Hx Hy.
  set (W := Z.of_nat (fst (mapDims h))) in *. set (H := Z.of_nat (snd (mapDims h))) in *.
  set (zs := patrolZoneSize cfg) in *.
  set (zonesX := StaffManager.ceilDiv W zs) in *.
  set (zonesY := StaffManager.ceilDiv H zs) in *.
  pose proof (ceilDiv_spec W zs Hzs) as HcX. pose proof (ceilDiv_spec H zs Hzs) as HcY.
  fold zonesX in HcX. fold zonesY in HcY.
  set (X := Z.of_nat x). set (Y := Z.of_nat y).
  assert (HX : 0 <= X < W) by (unfold X, W; lia).
  assert (HY : 0 <= Y < H) by (unfold Y, H; lia).
  set (zx := X / zs). set (zy := Y / zs).
  pose proof (Z.div_mod X zs ltac:(lia)) as HdX. pose proof (Z.mod_pos_bound X zs ltac:(lia)) as HmX.
  pose proof (Z.div_mod Y zs ltac:(lia)) as HdY. pose proof (Z.mod_pos_bound Y zs ltac:(lia)) as HmY.
  fold zx in HdX. fold zy in HdY.
  assert (Hzx : 0 <= zx < zonesX) by (split; [apply Z.div_pos; lia | nia]).
  assert (Hzy : 0 <= zy < zonesY) by (split; [apply Z.div_pos; lia | nia]).
  set (j := zy * zonesX + zx).
  assert (Hj : 0 <= j < zonesX * zonesY) by (unfold j; nia).
  assert (Hjlen : (Z.to_nat j < length (StaffManager.handymen sm))%nat) by lia.
  assert (Hsome : exists m, nth_error (StaffManager.handymen sm) (Z.to_nat j) = Some m).
  { destruct (nth_error (StaffManager.handymen sm) (Z.to_nat j)) as [m |] eqn:Hnth;
      [now exists m | apply nth_error_None in Hnth; lia]. }
  destruct Hsome as [m Hnth].
  assert (Hvalid : validId m = true).
  { rewrite forallb_forall in Hids. apply Hids. eapply nth_error_In. exact Hnth. }
  unfold validId in Hvalid. destruct (staff_id m) as [id |] eqn:Hid; [| discriminate].
  apply Z.leb_le in Hvalid.
  assert (Hne : (length (StaffManager.handymen sm) =? 0)%nat = false)
    by (apply Nat.eqb_neq; lia).
  destruct (assignGridZones_queue cfg h (StaffManager.handymen sm) Hauth 0 aq)
    as (_ & _ & _ & Hzone). cbn zeta in Hzone.
  specialize (Hzone (Z.to_nat j) m id Hnth Hid Hvalid).
  rewrite Z.add_0_l, Z2Nat.id in Hzone by lia.
  unfold gridZoneEffect, patrolEffect in Hzone. cbn zeta in Hzone.
  fold W H zs zonesX zonesY in Hzone.
  assert (Hjm : j mod (zonesX * zonesY) = j) by (apply Z.mod_small; lia).
  assert (Hjx : j mod zonesX = zx).
  { unfold j. clear -Hzx. clearbody zx zy zonesX.
    rewrite Z.add_comm, Z.mod_add by lia. apply Z.mod_small. lia. }
  assert (Hjy : j / zonesX = zy).
  { unfold j. clear -Hzx. clearbody zx zy zonesX.
    rewrite Z.add_comm, Z.div_add by lia. rewrite Z.div_small by lia. lia. }
  rewrite Hjm, Hjx, Hjy in Hzone. unfold Math_floor in Hzone. rewrite !Qfloor_Z in Hzone.
  exists m, id. eexists _, _, _, _.
  split; [exact Hnth |]. split; [exact Hid |].
  split.
  - unfold StaffManager.generateHandymanPatrolZones. rewrite Hne.
    fold W H zs zonesX zonesY. exact Hzone.
  - fold X Y.
    assert (HaX : zx * zs <= X < (zx + 1) * zs)
      by (clear -HdX HmX; clearbody zx zs X; lia).
    assert (HaY : zy * zs <= Y < (zy + 1) * zs)
      by (clear -HdY HmY; clearbody zy zs Y; lia).
    clear -HaX HaY HX HY Hov. clearbody zx zy zs X Y W H. lia.
Qed.


(** ** The bounded search of [findConnectedPaths] *)

Lemma offsets_spec (z : Z) : In z offsets <-> -10 <= z <= 10.
Proof.
  unfold offsets. rewrite in_map_iff. split.
  - intros (n & <- & Hn). apply in_seq in Hn. lia.
  - intros Hz. exists (Z.to_nat (z + 10)). split; [lia |]. apply in_seq. lia.
Qed.

Lemma diamond_spec (o : Z * Z) : In o diamond <-> Z.abs (fst o) + Z.abs (snd o) <= 10.
Proof.
  unfold diamond. rewrite filter_In. destruct o as [a b]. rewrite in_prod_iff, !offsets_spec.
  cbn [fst snd]. rewrite Z.leb_le. lia.
Qed.

Lemma diamond_NoDup : NoDup diamond.
Proof. apply (bool_decide_unpack _). vm_compute. exact I. Qed.

Lemma diamond_length : length diamond = 221%nat.
Proof. vm_compute. reflexivity. Qed.

Lemma around_spec (c k : Z * Z) : In k (around c) <-> manhattan k c <= 10.
Proof.
  unfold around, manhattan. rewrite in_map_iff. destruct c as [cx cy], k as [kx ky].
  cbn [fst snd]. split.
  - intros (o & Ho & Hin). apply diamond_spec in Hin. inversion Ho; subst.
    replace (cx + fst o - cx) with (fst o) by lia.
    replace (cy + snd o - cy) with (snd o) by lia. exact Hin.
  - intros Hk. exists (kx - cx, ky - cy). split.
    + cbn [fst snd]. f_equal; lia.
    + apply diamond_spec. exact Hk.
Qed.

Lemma around_NoDup (c : Z * Z) : NoDup (around c).
Proof.
  unfold around.
  assert (Hinj : Inj eq eq (fun o : Z * Z => (fst c + fst o, snd c + snd o))).
  { intros [a b] [a' b'] Hab. cbn [fst snd] in Hab. inversion Hab. f_equal; lia. }
  apply (NoDup_fmap_2 _ _ diamond_NoDup).
Qed.

Lemma visited_size (c0 : Z * Z) (V : gset (Z * Z)) :
  (forall k, k ∈ V -> manhattan k c0 <= 10) -> (size V <= 221)%nat.
Proof.
  intros HV.
  assert (Hsub : V ⊆ list_to_set (around c0)).
  { intros k Hk. apply elem_of_list_to_set, list_elem_of_In, around_spec, HV, Hk. }
  apply subseteq_size in Hsub.
  rewrite size_list_to_set in Hsub by apply around_NoDup.
  unfold around in Hsub. rewrite length_map, diamond_length in Hsub. exact Hsub.
Qed.

Section SearchProofs.
Variable getTile : Z -> Z -> option (list (option Element)).

Lemma searchLoop_invariant (P : RideTracker.Search -> Prop) :
  (forall s, RideTracker.frontier s <> [] -> P s -> P (RideTracker.searchStep getTile s)) ->
  forall fuel s, P s -> P (RideTracker.searchLoop getTile fuel s).
Proof.
  intros Hstep fuel. induction fuel as [| fuel IH]; intros s Hs; cbn; [exact Hs |].
  destruct (RideTracker.frontier s) eqn:Hf; [exact Hs |].
  apply IH, Hstep; [rewrite Hf; discriminate | exact Hs].
Qed.

(** The three ways one turn of the loop can go. *)
Lemma searchStep_cases (s : RideTracker.Search) current rest :
  RideTracker.frontier s = current :: rest ->
  ((cellOf current ∈ RideTracker.visitedKeys s \/ (10 < RideTracker.si_depth current)%nat)
   /\ RideTracker.searchStep getTile s =
        {| RideTracker.visitedKeys := RideTracker.visitedKeys s;
           RideTracker.frontier := rest;
           RideTracker.collected := RideTracker.collected s |})
  \/ ((cellOf current ∉ RideTracker.visitedKeys s)
      /\ (RideTracker.si_depth current <= 10)%nat
      /\ footpathAt getTile (cellOf current) = true
      /\ RideTracker.searchStep getTile s =
           {| RideTracker.visitedKeys := {[cellOf current]} ∪ RideTracker.visitedKeys s;
              RideTracker.frontier := rest ++ RideTracker.neighbours current;
              RideTracker.collected :=
                RideTracker.collected s ++ [pathPointAt (cellOf current)] |})
  \/ ((cellOf current ∉ RideTracker.visitedKeys s)
      /\ (RideTracker.si_depth current <= 10)%nat
      /\ footpathAt getTile (cellOf current) = false
      /\ RideTracker.searchStep getTile s =
           {| RideTracker.visitedKeys := {[cellOf current]} ∪ RideTracker.visitedKeys s;
              RideTracker.frontier := rest;
              RideTracker.collected := RideTracker.collected s |}).
Proof.
  intros Hf. unfold RideTracker.searchStep. rewrite Hf.
  fold (cellOf current). unfold RideTracker.maxDepth.
  destruct (bool_decide (cellOf current ∈ RideTracker.visitedKeys s)) eqn:Hv.
  - left. apply bool_decide_eq_true_1 in Hv. cbn [orb]. split; [left; exact Hv | reflexivity].
  - apply bool_decide_eq_false_1 in Hv. cbn [orb].
    destruct (10 <? RideTracker.si_depth current)%nat eqn:Hd.
    + left. apply Nat.ltb_lt in Hd. split; [right; exact Hd | reflexivity].
    + apply Nat.ltb_ge in Hd. right.
      change (RideTracker.hasFootpath getTile (RideTracker.si_x current) (RideTracker.si_y current))
        with (footpathAt getTile (cellOf current)).
      destruct (footpathAt getTile (cellOf current)) eqn:Hp.
      * left. repeat (split; [assumption || reflexivity |]). reflexivity.
      * right. repeat (split; [assumption || reflexivity |]). reflexivity.
Qed.

Lemma neighbours_spec (current i : RideTracker.SearchItem) :
  In i (RideTracker.neighbours current) <->
  RideTracker.si_depth i = S (RideTracker.si_depth current)
  /\ manhattan (cellOf current) (cellOf i) = 1.
Proof.
  unfold RideTracker.neighbours, RideTracker.directions, manhattan, cellOf.
  destruct current as [x y d], i as [x' y' d']. cbn [map In fst snd RideTracker.si_x
    RideTracker.si_y RideTracker.si_depth]. split.
  - intros [H | [H | [H | [H | []]]]]; inversion H; subst; split; try reflexivity; lia.
  - intros [-> H].
    assert (Hc : (x' = x + 0 /\ y' = y + 1) \/ (x' = x + 0 /\ y' = y + -1)
                 \/ (x' = x + 1 /\ y' = y + 0) \/ (x' = x + -1 /\ y' = y + 0)) by lia.
    destruct Hc as [[-> ->] | [[-> ->] | [[-> ->] | [-> ->]]]]; auto.
Qed.

Lemma searchBounded_step (c0 : Z * Z) (s : RideTracker.Search) :
  RideTracker.frontier s <> [] -> searchBounded c0 s ->
  searchBounded c0 (RideTracker.searchStep getTile s).
Proof.
  intros Hne [HV HF].
  destruct (RideTracker.frontier s) as [| current rest] eqn:Hf; [congruence |].
  assert (Hcur : manhattan (cellOf current) c0 <= Z.of_nat (RideTracker.si_depth current))
    by (apply HF; left; reflexivity).
  assert (Hrest : forall i, In i rest ->
            manhattan (cellOf i) c0 <= Z.of_nat (RideTracker.si_depth i))
    by (intros i Hi; apply HF; right; exact Hi).
  assert (Hnew : (RideTracker.si_depth current <= 10)%nat ->
            forall k, k ∈ ({[cellOf current]} ∪ RideTracker.visitedKeys s : gset (Z * Z)) ->
            manhattan k c0 <= 10).
  { intros Hd k Hk. apply elem_of_union in Hk as [Hk | Hk].
    - apply elem_of_singleton in Hk. subst k. lia.
    - apply HV, Hk. }
  destruct (searchStep_cases s current rest Hf)
    as [[_ ->] | [(_ & Hd & _ & ->) | (_ & Hd & _ & ->)]];
    split; cbn [RideTracker.visitedKeys RideTracker.frontier]; auto.
  intros i Hi. apply in_app_or in Hi as [Hi | Hi]; [apply Hrest, Hi |].
  apply neighbours_spec in Hi as [Hdi Hm]. rewrite Hdi.
  unfold manhattan in *. lia.
Qed.

Lemma searchStep_measure (c0 : Z * Z) (s : RideTracker.Search) :
  RideTracker.frontier s <> [] -> searchBounded c0 s ->
  (length (RideTracker.frontier (RideTracker.searchStep getTile s))
   + 4 * (221 - size (RideTracker.visitedKeys (RideTracker.searchStep getTile s)))
   < length (RideTracker.frontier s) + 4 * (221 - size (RideTracker.visitedKeys s)))%nat.
Proof.
  intros Hne Hb.
  pose proof (searchBounded_step c0 s Hne Hb) as [HV' _].
  apply visited_size in HV'.
  destruct (RideTracker.frontier s) as [| current rest] eqn:Hf; [congruence |].
  destruct (searchStep_cases s current rest Hf)
    as [[_ Hs] | [(Hnv & _ & _ & Hs) | (Hnv & _ & _ & Hs)]];
    rewrite Hs in *; cbn [RideTracker.visitedKeys RideTracker.frontier length] in *.
  - lia.
  - rewrite size_union in * by set_solver. rewrite size_singleton in *.
    rewrite length_app. cbn [RideTracker.neighbours RideTracker.directions map length]. lia.
  - rewrite size_union in * by set_solver. rewrite size_singleton in *. lia.
Qed.

Lemma searchLoop_exhausts (c0 : Z * Z) (fuel : nat) (s : RideTracker.Search) :
  searchBounded c0 s ->
  (length (RideTracker.frontier s) + 4 * (221 - size (RideTracker.visitedKeys s)) <= fuel)%nat ->
  RideTracker.frontier (RideTracker.searchLoop getTile fuel s) = [].
Proof.
  revert s. induction fuel as [| fuel IH]; intros s Hb Hm; cbn.
  - destruct (RideTracker.frontier s); [reflexivity | cbn in Hm; lia].
  - destruct (RideTracker.frontier s) eqn:Hf; [exact Hf |].
    assert (Hne : RideTracker.frontier s <> []) by (rewrite Hf; discriminate).
    apply IH; [apply searchBounded_step; assumption |].
    pose proof (searchStep_measure c0 s Hne Hb) as Hlt. rewrite Hf in Hlt.
    cbn [length] in *. lia.
Qed.

End SearchProofs.

Section SearchResults.
Variable getTile : Z -> Z -> option (list (option Element)).

Lemma last_cons {A : Type} (a d : A) (l : list A) : List.last (a :: l) d = List.last l a.
Proof.
  revert a d. induction l as [| b l IH]; intros a d; [reflexivity |].
  change (List.last (a :: b :: l) d) with (List.last (b :: l) d). rewrite !IH. reflexivity.
Qed.

Lemma footpathWalk_snoc (from c : Z * Z) (steps : list (Z * Z)) :
  footpathWalk getTile from (steps ++ [c]) =
  footpathWalk getTile from steps
  && footpathAt getTile (List.last steps from)
  && (manhattan (List.last steps from) c =? 1).
Proof.
  revert from. induction steps as [| c1 rest IH]; intros from.
  - cbn. rewrite andb_true_r. reflexivity.
  - cbn [app footpathWalk]. rewrite IH, last_cons, !andb_assoc. reflexivity.
Qed.

Lemma cellOf_itemAt (c : Z * Z) (d : nat) : cellOf (itemAt c d) = c.
Proof. destruct c. reflexivity. Qed.

Lemma pointCell_pathPointAt (c : Z * Z) : pointCell (pathPointAt c) = c.
Proof. destruct c. reflexivity. Qed.

Lemma searchSound_step (c0 : Z * Z) (paths : list RideTracker.PathPoint)
    (s : RideTracker.Search) :
  RideTracker.frontier s <> [] -> searchSound getTile c0 paths s ->
  searchSound getTile c0 paths (RideTracker.searchStep getTile s).
Proof.
  intros Hne (Hq & found & Hc & Hnd & Hall).
  destruct (RideTracker.frontier s) as [| current rest] eqn:Hf; [congruence |].
  assert (Hrest : forall i, In i rest ->
            exists steps, footpathWalk getTile c0 steps = true
              /\ length steps = RideTracker.si_depth i /\ List.last steps c0 = cellOf i)
    by (intros i Hi; apply Hq; right; exact Hi).
  destruct (Hq current (or_introl eq_refl)) as (steps & Hw & Hlen & Hlast).
  destruct (searchStep_cases getTile s current rest Hf)
    as [[_ ->] | [(Hnv & Hd & Hp & ->) | (Hnv & _ & _ & ->)]].
  - split; [exact Hrest |]. exists found.
    cbn [RideTracker.collected RideTracker.visitedKeys]. auto.
  - split.
    + cbn [RideTracker.frontier]. intros i Hi. apply in_app_or in Hi as [Hi | Hi];
        [apply Hrest, Hi |].
      apply neighbours_spec in Hi as [Hdi Hm].
      exists (steps ++ [cellOf i]). split; [| split].
      * rewrite footpathWalk_snoc, Hw, Hlast, Hp. cbn [andb]. apply Z.eqb_eq, Hm.
      * rewrite length_app, Hdi, Hlen. cbn [length]. lia.
      * apply last_last.
    + exists (found ++ [pathPointAt (cellOf current)]).
      cbn [RideTracker.collected RideTracker.visitedKeys].
      split; [rewrite Hc, app_assoc; reflexivity |]. split.
      * rewrite map_app. apply NoDup_app. split; [exact Hnd |]. split.
        -- intros c Hc1 Hc2. cbn in Hc2. apply list_elem_of_In in Hc1.
           apply in_map_iff in Hc1 as (p & Hpc & Hp1).
           apply list_elem_of_In in Hc2. destruct Hc2 as [Hc2 | []].
           destruct (Hall p Hp1) as (_ & _ & Hv & _). apply Hnv.
           rewrite Hpc in Hv. rewrite <- Hc2 in Hv. exact Hv.
        -- cbn. apply NoDup_singleton.
      * intros p Hp1. apply in_app_or in Hp1 as [Hp1 | [<- | []]].
        -- destruct (Hall p Hp1) as (H1 & H2 & H3 & H4). repeat split; auto.
           apply elem_of_union. right. exact H3.
        -- rewrite pointCell_pathPointAt. split; [reflexivity |]. split; [exact Hp |]. split.
           ++ apply elem_of_union. left. apply elem_of_singleton. reflexivity.
           ++ exists steps. repeat split; [exact Hw | lia | exact Hlast].
  - split; [exact Hrest |]. exists found. cbn [RideTracker.collected RideTracker.visitedKeys].
    split; [exact Hc |]. split; [exact Hnd |].
    intros p Hp1. destruct (Hall p Hp1) as (H1 & H2 & H3 & H4). repeat split; auto.
    apply elem_of_union. right. exact H3.
Qed.

Lemma searchLevels_step (c0 : Z * Z) (s : RideTracker.Search) :
  RideTracker.frontier s <> [] -> searchLevels getTile c0 s ->
  searchLevels getTile c0 (RideTracker.searchStep getTile s).
Proof.
  intros Hne (vd & d & A & B & Hf & HA & HB & Hvd & Hnb & Hc0 & Hcol).
  assert (Hnorm : exists dh current A' B',
            RideTracker.frontier s = current :: A' ++ B'
            /\ RideTracker.si_depth current = dh
            /\ Forall (fun i => RideTracker.si_depth i = dh) A'
            /\ Forall (fun i => RideTracker.si_depth i = S dh) B'
            /\ forall c, c ∈ RideTracker.visitedKeys s -> (vd c <= dh)%nat).
  { destruct A as [| a A'].
    - destruct B as [| b B']; [cbn in Hf; congruence |].
      exists (S d), b, B', []. inversion HB; subst. rewrite app_nil_r.
      repeat split; auto; intros c Hc; specialize (Hvd c Hc); lia.
    - exists d, a, A', B. inversion HA; subst. repeat split; auto. }
  clear d A B Hf HA HB Hvd.
  destruct Hnorm as (dh & current & A & B & Hf & Hdh & HA & HB & Hvd).
  rewrite Hf in Hnb, Hc0.
  destruct (searchStep_cases getTile s current (A ++ B) Hf)
    as [[Hskip ->] | [(Hnv & Hd & Hp & ->) | (Hnv & Hd & Hp & ->)]];
    cbn [RideTracker.collected RideTracker.visitedKeys RideTracker.frontier].
  - exists vd, dh, A, B. split; [reflexivity |]. split; [exact HA |]. split; [exact HB |].
    split; [exact Hvd |]. split; [| split; [| exact Hcol]].
    + intros c c' Hc Hfp Hlt Hadj.
      destruct (Hnb c c' Hc Hfp Hlt Hadj) as [Hl | [Heq | Hr]];
        [left; exact Hl | | right; exact Hr].
      left. subst current. rewrite cellOf_itemAt in Hskip. cbn in Hskip, Hdh.
      destruct Hskip as [Hv | Hdeep]; [| lia].
      split; [exact Hv |]. specialize (Hvd c' Hv). lia.
    + destruct Hc0 as [Hl | [Heq | Hr]]; [left; exact Hl | | right; exact Hr].
      left. subst current. rewrite cellOf_itemAt in Hskip. cbn in Hskip, Hdh.
      destruct Hskip as [Hv | Hdeep]; [| lia].
      split; [exact Hv |]. specialize (Hvd c0 Hv). lia.
  - set (k := cellOf current) in *.
    set (vd' := fun c : Z * Z => if decide (c = k) then dh else vd c).
    assert (Hk : vd' k = dh) by (unfold vd'; rewrite decide_True; reflexivity).
    assert (Hother : forall c, c ∈ RideTracker.visitedKeys s -> vd' c = vd c).
    { intros c Hc. unfold vd'. rewrite decide_False; [reflexivity |].
      intros ->. exact (Hnv Hc). }
    clearbody vd'.
    exists vd', dh, A, (B ++ RideTracker.neighbours current).
    split; [rewrite app_assoc; reflexivity |]. split; [exact HA |]. split.
    { apply Forall_app. split; [exact HB |]. apply Forall_forall. intros i Hi.
      apply list_elem_of_In, neighbours_spec in Hi as [Hi _]. rewrite Hi, Hdh. reflexivity. }
    split.
    { intros c Hc. apply elem_of_union in Hc as [Hc | Hc].
      - apply elem_of_singleton in Hc. subst c. rewrite Hk. lia.
      - rewrite (Hother c Hc). apply Hvd, Hc. }
    split; [| split].
    + intros c c' Hc Hfp Hlt Hadj. apply elem_of_union in Hc as [Hc | Hc].
      * apply elem_of_singleton in Hc. subst c. right. apply in_or_app. right.
        apply neighbours_spec. rewrite cellOf_itemAt, Hk, Hdh. split; [reflexivity | exact Hadj].
      * rewrite (Hother c Hc) in *.
        destruct (Hnb c c' Hc Hfp Hlt Hadj) as [[Hv Hle] | [Heq | Hr]].
        -- left. split; [apply elem_of_union; right; exact Hv |].
           rewrite (Hother c' Hv). exact Hle.
        -- left. assert (Hkc : k = c') by (unfold k; rewrite Heq; apply cellOf_itemAt).
           subst c'. split; [apply elem_of_union; left; apply elem_of_singleton; reflexivity |].
           rewrite Hk, <- Hdh, Heq. cbn. lia.
        -- right. apply in_or_app. left. exact Hr.
    + destruct Hc0 as [[Hv H0] | [Heq | Hr]].
      * left. split; [apply elem_of_union; right; exact Hv |]. rewrite (Hother c0 Hv). exact H0.
      * left. assert (Hkc : k = c0) by (unfold k; rewrite Heq; apply cellOf_itemAt).
        subst c0. split; [apply elem_of_union; left; apply elem_of_singleton; reflexivity |].
        rewrite Hk, <- Hdh, Heq. reflexivity.
      * right. apply in_or_app. left. exact Hr.
    + intros c Hc Hfp. apply in_or_app. apply elem_of_union in Hc as [Hc | Hc].
      * apply elem_of_singleton in Hc. subst c. right. left. reflexivity.
      * left. apply Hcol; assumption.
  - set (k := cellOf current) in *.
    set (vd' := fun c : Z * Z => if decide (c = k) then dh else vd c).
    assert (Hk : vd' k = dh) by (unfold vd'; rewrite decide_True; reflexivity).
    assert (Hother : forall c, c ∈ RideTracker.visitedKeys s -> vd' c = vd c).
    { intros c Hc. unfold vd'. rewrite decide_False; [reflexivity |].
      intros ->. exact (Hnv Hc). }
    clearbody vd'.
    exists vd', dh, A, B.
    split; [reflexivity |]. split; [exact HA |]. split; [exact HB |].
    split.
    { intros c Hc. apply elem_of_union in Hc as [Hc | Hc].
      - apply elem_of_singleton in Hc. subst c. rewrite Hk. lia.
      - rewrite (Hother c Hc). apply Hvd, Hc. }
    split; [| split].
    + intros c c' Hc Hfp Hlt Hadj. apply elem_of_union in Hc as [Hc | Hc].
      * apply elem_of_singleton in Hc. subst c. congruence.
      * rewrite (Hother c Hc) in *.
        destruct (Hnb c c' Hc Hfp Hlt Hadj) as [[Hv Hle] | [Heq | Hr]].
        -- left. split; [apply elem_of_union; right; exact Hv |].
           rewrite (Hother c' Hv). exact Hle.
        -- left. assert (Hkc : k = c') by (unfold k; rewrite Heq; apply cellOf_itemAt).
           subst c'. split; [apply elem_of_union; left; apply elem_of_singleton; reflexivity |].
           rewrite Hk, <- Hdh, Heq. cbn. lia.
        -- right. exact Hr.
    + destruct Hc0 as [[Hv H0] | [Heq | Hr]].
      * left. split; [apply elem_of_union; right; exact Hv |]. rewrite (Hother c0 Hv). exact H0.
      * left. assert (Hkc : k = c0) by (unfold k; rewrite Heq; apply cellOf_itemAt).
        subst c0. split; [apply elem_of_union; left; apply elem_of_singleton; reflexivity |].
        rewrite Hk, <- Hdh, Heq. reflexivity.
      * right. exact Hr.
    + intros c Hc Hfp. apply elem_of_union in Hc as [Hc | Hc].
      * apply elem_of_singleton in Hc. subst c. congruence.
      * apply Hcol; assumption.
Qed.

Lemma startSearch_bounded (x y : Z) (paths : list RideTracker.PathPoint) :
  searchBounded (x, y) (RideTracker.startSearch x y paths).
Proof.
  split; cbn.
  - intros k Hk. apply elem_of_empty in Hk. destruct Hk.
  - intros i [<- | []]. unfold manhattan, cellOf. cbn. lia.
Qed.

Lemma startSearch_sound (x y : Z) (paths : list RideTracker.PathPoint) :
  searchSound getTile (x, y) paths (RideTracker.startSearch x y paths).
Proof.
  split.
  - cbn. intros i [<- | []]. exists []. repeat split.
  - exists []. cbn. split; [rewrite app_nil_r; reflexivity |].
    split; [apply NoDup_nil_2 |]. intros p [].
Qed.

Lemma startSearch_levels (x y : Z) (paths : list RideTracker.PathPoint) :
  searchLevels getTile (x, y) (RideTracker.startSearch x y paths).
Proof.
  exists (fun _ => 0%nat), 0%nat, [itemAt (x, y) 0], []. cbn.
  split; [reflexivity |]. split; [repeat constructor |]. split; [constructor |].
  split; [intros c Hc; lia |]. split; [| split].
  - intros c c' Hc. apply elem_of_empty in Hc. destruct Hc.
  - right. left. reflexivity.
  - intros c Hc. apply elem_of_empty in Hc. destruct Hc.
Qed.

(** The state the search of [findConnectedPaths] ends in: the queue is
    empty and all three invariants hold. *)
Lemma search_result (x y : Z) (paths : list RideTracker.PathPoint) :
  let s := RideTracker.searchLoop getTile RideTracker.searchBudget
             (RideTracker.startSearch x y paths) in
  RideTracker.frontier s = []
  /\ searchBounded (x, y) s
  /\ searchSound getTile (x, y) paths s
  /\ searchLevels getTile (x, y) s.
Proof.
  cbn zeta. split; [| split; [| split]].
  - apply (searchLoop_exhausts getTile (x, y)); [apply startSearch_bounded |].
    cbn. rewrite size_empty. unfold RideTracker.searchBudget. lia.
  - apply (searchLoop_invariant getTile (searchBounded (x, y)));
      [apply searchBounded_step | apply startSearch_bounded].
  - apply (searchLoop_invariant getTile (searchSound getTile (x, y) paths));
      [apply searchSound_step | apply startSearch_sound].
  - apply (searchLoop_invariant getTile (searchLevels getTile (x, y)));
      [apply searchLevels_step | apply startSearch_levels].
Qed.

(** X23.  [findConnectedPaths] always finishes, within 885 turns of its
    loop, and only appends to the ride's paths.  What it appends are
    'path' points of footpath tiles, no tile twice and at most 221 of
    them, each linked to the start by a walk of at most 10 side-steps over
    footpath tiles (so at most 10 tiles away). *)
Theorem findConnectedPaths_sound (x y : Z) (paths : list RideTracker.PathPoint) :
  RideTracker.frontier
    (RideTracker.searchLoop getTile RideTracker.searchBudget
       (RideTracker.startSearch x y paths)) = []
  /\ exists found,
       RideTracker.findConnectedPaths getTile x y paths = paths ++ found
       /\ (length found <= 221)%nat
       /\ NoDup (map pointCell found)
       /\ forall p, In p found ->
            RideTracker.pp_type p = "path"%string
            /\ footpathAt getTile (pointCell p) = true
            /\ manhattan (pointCell p) (x, y) <= 10
            /\ exists steps,
                 footpathWalk getTile (x, y) steps = true
                 /\ (length steps <= 10)%nat
                 /\ List.last steps (x, y) = pointCell p.
Proof.
  destruct (search_result x y paths) as (Hend & [HV _] & (_ & found & Hc & Hnd & Hall) & _).
  split; [exact Hend |]. exists found. split; [exact Hc |]. split; [| split; [exact Hnd |]].
  - apply visited_size in HV.
    assert (Hsub : (list_to_set (map pointCell found) : gset (Z * Z))
                   ⊆ RideTracker.visitedKeys
                       (RideTracker.searchLoop getTile RideTracker.searchBudget
                          (RideTracker.startSearch x y paths))).
    { intros c Hin. apply elem_of_list_to_set, list_elem_of_In, in_map_iff in Hin
        as (p & <- & Hp). apply (Hall p Hp). }
    apply subseteq_size in Hsub. rewrite size_list_to_set in Hsub by exact Hnd.
    rewrite length_map in Hsub. lia.
  - intros p Hp. destruct (Hall p Hp) as (H1 & H2 & H3 & H4).
    repeat split; auto.
Qed.

Lemma searchLevels_reach (c0 : Z * Z) (s : RideTracker.Search) (steps : list (Z * Z)) :
  RideTracker.frontier s = [] -> searchLevels getTile c0 s ->
  footpathWalk getTile c0 steps = true ->
  (length steps <= 10)%nat ->
  footpathAt getTile (List.last steps c0) = true ->
  In (pathPointAt (List.last steps c0)) (RideTracker.collected s).
Proof.
  intros Hend (vd & d & A & B & _ & _ & _ & _ & Hnb & Hc0 & Hcol) Hw Hlen Hfp.
  rewrite Hend in Hnb, Hc0. apply Hcol; [| exact Hfp].
  assert (Hgoal : List.last steps c0 ∈ RideTracker.visitedKeys s
                  /\ (vd (List.last steps c0) <= length steps)%nat); [| apply Hgoal].
  clear Hfp. revert Hw Hlen. induction steps as [| c steps IH] using rev_ind; intros Hw Hlen.
  - cbn [List.last length]. destruct Hc0 as [[Hv H0] | []]. split; [exact Hv | lia].
  - rewrite footpathWalk_snoc in Hw. apply andb_prop in Hw as [Hw Hadj].
    apply andb_prop in Hw as [Hw Hfp]. apply Z.eqb_eq in Hadj.
    rewrite length_app in *. cbn [length] in *.
    destruct (IH Hw ltac:(lia)) as [Hv Hle].
    rewrite last_last.
    destruct (Hnb (List.last steps c0) c Hv Hfp ltac:(lia) Hadj) as [[Hv' Hle'] | []].
    split; [exact Hv' | lia].
Qed.

(** X24.  [findConnectedPaths] misses nothing in reach: a footpath tile
    that a walk of at most 10 side-steps over footpath tiles links to the
    start is among the ride's paths afterwards. *)
Theorem findConnectedPaths_complete (x y : Z) (paths : list RideTracker.PathPoint)
    (steps : list (Z * Z)) :
  footpathWalk getTile (x, y) steps = true ->
  (length steps <= 10)%nat ->
  footpathAt getTile (List.last steps (x, y)) = true ->
  In (pathPointAt (List.last steps (x, y))) (RideTracker.findConnectedPaths getTile x y paths).
Proof.
  intros Hw Hlen Hfp. unfold RideTracker.findConnectedPaths.
  destruct (search_result x y paths) as (Hend & _ & _ & Hlev).
  exact (searchLevels_reach (x, y) _ steps Hend Hlev Hw Hlen Hfp).
Qed.

End SearchResults.

(** ** Tracking rides and announcing them *)

Section Tracking.
Variable getTile : Z -> Z -> option (list (option Element)).

Lemma findRideEntrancesExits_frame (ride : RideTracker.RideInfo) (rt : RideTracker.t) :
  let rt' := RideTracker.findRideEntrancesExits getTile ride rt in
  RideTracker.knownRides rt' = RideTracker.knownRides rt
  /\ RideTracker.newRidesDetected rt' = RideTracker.newRidesDetected rt
  /\ RideTracker.lastRideCount rt' = RideTracker.lastRideCount rt
  /\ forall id, id <> RideTracker.info_id ride ->
       RideTracker.rideEntrances rt' !! id = RideTracker.rideEntrances rt !! id
       /\ RideTracker.rideExits rt' !! id = RideTracker.rideExits rt !! id
       /\ RideTracker.ridePaths rt' !! id = RideTracker.ridePaths rt !! id.
Proof.
  unfold RideTracker.findRideEntrancesExits.
  destruct (RideTracker.info_stations ride) as [stations |];
    [| cbn; repeat split; reflexivity].
  destruct (fold_left _ stations _) as [[entrances exits] paths]. cbn.
  repeat split; try reflexivity; apply lookup_insert_ne; congruence.
Qed.

Lemma trackRide_known (tick : Z) (ride : RideTracker.RideInfo) (rt : RideTracker.t) :
  is_Some (RideTracker.knownRides rt !! RideTracker.info_id ride) ->
  RideTracker.trackRide getTile tick ride rt = rt.
Proof. intros [kr Hkr]. unfold RideTracker.trackRide. rewrite Hkr. reflexivity. Qed.

Lemma trackRide_new (tick : Z) (ride : RideTracker.RideInfo) (rt : RideTracker.t) :
  RideTracker.knownRides rt !! RideTracker.info_id ride = None ->
  let rt' := RideTracker.trackRide getTile tick ride rt in
  RideTracker.newRidesDetected rt' = RideTracker.newRidesDetected rt ++ [RideTracker.info_id ride]
  /\ RideTracker.lastRideCount rt' = RideTracker.lastRideCount rt
  /\ is_Some (RideTracker.knownRides rt' !! RideTracker.info_id ride)
  /\ forall id, id <> RideTracker.info_id ride -> rideRecord rt' id = rideRecord rt id.
Proof.
  intros Hnew. unfold RideTracker.trackRide. rewrite Hnew. cbn zeta.
  match goal with
  | |- context [RideTracker.findRideEntrancesExits getTile ride ?r] =>
      pose proof (findRideEntrancesExits_frame ride r) as (Hk & Hn & Hl & Hframe);
      set (rt2 := RideTracker.findRideEntrancesExits getTile ride r) in *
  end.
  cbn [RideTracker.newRidesDetected RideTracker.lastRideCount RideTracker.knownRides
       RideTracker.rideEntrances RideTracker.rideExits RideTracker.ridePaths] in *.
  split; [rewrite Hn; reflexivity |]. split; [exact Hl |]. split.
  - rewrite Hk. rewrite lookup_insert_eq. eexists. reflexivity.
  - intros id Hid. destruct (Hframe id Hid) as (H1 & H2 & H3). unfold rideRecord.
    cbn [RideTracker.knownRides RideTracker.rideEntrances RideTracker.rideExits
         RideTracker.ridePaths].
    rewrite Hk, H1, H2, H3, lookup_insert_ne by congruence. reflexivity.
Qed.

(** One list entry: nothing happens, or an unknown ride becomes known and
    is queued for announcement. *)
Lemma trackIfRide_effect (tick : Z) (rt : RideTracker.t) (entry : option RideTracker.RideInfo) :
  let rt' := RideTracker.trackIfRide getTile tick rt entry in
  RideTracker.lastRideCount rt' = RideTracker.lastRideCount rt
  /\ (rt' = rt
      \/ exists ride,
           entry = Some ride /\ isTrackable entry = true
           /\ RideTracker.knownRides rt !! RideTracker.info_id ride = None
           /\ RideTracker.newRidesDetected rt'
              = RideTracker.newRidesDetected rt ++ [RideTracker.info_id ride]
           /\ is_Some (RideTracker.knownRides rt' !! RideTracker.info_id ride)
           /\ forall id, id <> RideTracker.info_id ride -> rideRecord rt' id = rideRecord rt id).
Proof.
  unfold RideTracker.trackIfRide. destruct entry as [ride |]; [| cbn; auto].
  destruct (String.eqb (RideTracker.info_classification ride) "ride") eqn:Hc; [| cbn; auto].
  destruct (RideTracker.knownRides rt !! RideTracker.info_id ride) as [kr |] eqn:Hk.
  - rewrite trackRide_known by (rewrite Hk; eexists; reflexivity). cbn. auto.
  - destruct (trackRide_new tick ride rt Hk) as (H1 & H2 & H3 & H4). cbn zeta.
    split; [exact H2 |]. right. exists ride. cbn [isTrackable]. auto 10.
Qed.

Lemma trackIfRide_reportedOnce (tick : Z) (rt : RideTracker.t) (reported : list Z)
    (entry : option RideTracker.RideInfo) :
  reportedOnce (rt, reported) ->
  reportedOnce (RideTracker.trackIfRide getTile tick rt entry, reported).
Proof.
  intros [Hnd Hiff].
  destruct (trackIfRide_effect tick rt entry) as (_ & [-> | (ride & _ & _ & Hk & Hn & Hs & Hf)]);
    [split; assumption |].
  unfold reportedOnce, announced in *. cbn [fst snd] in *. rewrite Hn, app_assoc.
  assert (Hfresh : ~ In (RideTracker.info_id ride) (reported ++ RideTracker.newRidesDetected rt)).
  { intros Hin. apply Hiff in Hin. rewrite Hk in Hin. destruct Hin as [? Hin]. discriminate. }
  split.
  - apply NoDup_app. split; [exact Hnd |]. split; [| apply NoDup_singleton].
    intros id Hin Hin'. apply list_elem_of_In in Hin, Hin'. destruct Hin' as [<- | []]. auto.
  - intros id. rewrite in_app_iff. cbn [In]. destruct (decide (id = RideTracker.info_id ride)) as [-> | Hne].
    + split; [intros _; exact Hs | intros _; right; left; reflexivity].
    + assert (Hrec := Hf id Hne). unfold rideRecord in Hrec.
      assert (Hkeq : RideTracker.knownRides (RideTracker.trackIfRide getTile tick rt entry) !! id
                     = RideTracker.knownRides rt !! id) by congruence.
      rewrite Hkeq, <- Hiff. split; [intros [H | [H | []]]; [exact H | congruence] | auto].
Qed.

Lemma trackAll_reportedOnce (tick : Z) (rs : list (option RideTracker.RideInfo))
    (rt : RideTracker.t) (reported : list Z) :
  reportedOnce (rt, reported) ->
  reportedOnce (fold_left (RideTracker.trackIfRide getTile tick) rs rt, reported).
Proof.
  revert rt. induction rs as [| r rs IH]; intros rt H; [exact H |].
  cbn [fold_left]. apply IH, trackIfRide_reportedOnce, H.
Qed.

Lemma trackAll_frame (tick : Z) (rs : list (option RideTracker.RideInfo))
    (rt : RideTracker.t) (id : Z) :
  is_Some (RideTracker.knownRides rt !! id) ->
  rideRecord (fold_left (RideTracker.trackIfRide getTile tick) rs rt) id = rideRecord rt id.
Proof.
  revert rt. induction rs as [| r rs IH]; intros rt Hk; [reflexivity |].
  cbn [fold_left].
  assert (Hstep : rideRecord (RideTracker.trackIfRide getTile tick rt r) id = rideRecord rt id).
  { destruct (trackIfRide_effect tick rt r) as (_ & [-> | (ride & _ & _ & Hn & _ & _ & Hf)]);
      [reflexivity |].
    apply Hf. intros ->. rewrite Hn in Hk. destruct Hk as [? Hk]. discriminate. }
  rewrite IH; [exact Hstep |].
  unfold rideRecord in Hstep. inversion Hstep as [[H1 H2 H3 H4]]. rewrite H1. exact Hk.
Qed.

Lemma trackAll_known (tick : Z) (rs : list (option RideTracker.RideInfo)) (rt : RideTracker.t)
    (id : Z) :
  is_Some (RideTracker.knownRides (fold_left (RideTracker.trackIfRide getTile tick) rs rt) !! id)
  <-> is_Some (RideTracker.knownRides rt !! id)
      \/ exists ride, In (Some ride) rs /\ isTrackable (Some ride) = true
                      /\ RideTracker.info_id ride = id.
Proof.
  revert rt. induction rs as [| r rs IH]; intros rt.
  - cbn. split; [auto | intros [H | (ride & [] & _)]; exact H].
  - cbn [fold_left]. rewrite IH. clear IH.
    destruct (trackIfRide_effect tick rt r)
      as (_ & [Heq | (ride0 & Hr & Ht0 & Hn & _ & Hs & Hf)]).
    + rewrite Heq. split.
      * intros [Hk | (ride & Hin & Ht & Hid)]; [left; exact Hk |].
        right. exists ride. split; [right; exact Hin | auto].
      * intros [Hk | (ride & [Hin | Hin] & Ht & Hid)];
          [left; exact Hk | | right; exists ride; auto].
        left. subst r id. unfold RideTracker.trackIfRide in Heq. cbn [isTrackable] in Ht.
        rewrite Ht in Heq.
        destruct (RideTracker.knownRides rt !! RideTracker.info_id ride) as [kr |] eqn:Hk;
          [eexists; reflexivity |].
        destruct (trackRide_new tick ride rt Hk) as (_ & _ & Hs & _). cbn zeta in Hs.
        rewrite Heq, Hk in Hs. exact Hs.
    + assert (Hkeep : forall id', id' <> RideTracker.info_id ride0 ->
                RideTracker.knownRides (RideTracker.trackIfRide getTile tick rt r) !! id'
                = RideTracker.knownRides rt !! id').
      { intros id' Hne. assert (Hrec := Hf id' Hne). unfold rideRecord in Hrec.
        inversion Hrec as [[H1 H2 H3 H4]]. reflexivity. }
      rewrite Hr in Ht0. split.
      * intros [Hk | (ride & Hin & Ht & Hid)].
        -- destruct (decide (id = RideTracker.info_id ride0)) as [-> | Hne].
           ++ right. exists ride0. split; [left; exact Hr | auto].
           ++ left. rewrite <- Hkeep by exact Hne. exact Hk.
        -- right. exists ride. split; [right; exact Hin | auto].
      * intros [Hk | (ride & [Hin | Hin] & Ht & Hid)].
        -- left. destruct (decide (id = RideTracker.info_id ride0)) as [-> | Hne];
             [exact Hs |].
           rewrite Hkeep by exact Hne. exact Hk.
        -- left. rewrite Hr in Hin. inversion Hin. subst. exact Hs.
        -- right. exists ride. auto.
Qed.

End Tracking.

Lemma trackerCall_reportedOnce (st : RideTracker.t * list Z) (c : TrackerCall) :
  reportedOnce st -> reportedOnce (trackerCall st c).
Proof.
  destruct st as [rt reported]. intros H.
  destruct c as [getTile tick [rs |] | getTile tick [rs |] |]; cbn [trackerCall fst snd];
    try exact H.
  - unfold RideTracker.scanAllRides.
    apply (trackAll_reportedOnce getTile tick rs) in H. exact H.
  - unfold RideTracker.checkForNewRides.
    destruct (negb _); [| exact H]. cbn [fst].
    apply (trackAll_reportedOnce getTile tick rs) in H. exact H.
  - unfold reportedOnce, announced in *. cbn [fst snd RideTracker.getNewRides
      RideTracker.newRidesDetected RideTracker.knownRides] in *.
    rewrite app_nil_r. exact H.
Qed.

Lemma trackerCall_frame (st : RideTracker.t * list Z) (c : TrackerCall) (id : Z) :
  is_Some (RideTracker.knownRides (fst st) !! id) ->
  rideRecord (fst (trackerCall st c)) id = rideRecord (fst st) id.
Proof.
  destruct st as [rt reported]. cbn [fst]. intros Hk.
  destruct c as [getTile tick [rs |] | getTile tick [rs |] |]; cbn [trackerCall fst snd];
    try reflexivity.
  - unfold RideTracker.scanAllRides. apply (trackAll_frame getTile tick rs rt id Hk).
  - unfold RideTracker.checkForNewRides.
    destruct (negb _); [| reflexivity]. cbn [fst].
    apply (trackAll_frame getTile tick rs rt id Hk).
Qed.

(** X25.  Over any sequence of [scanAllRides], [checkForNewRides] and
    [getNewRides] calls on a fresh tracker, whatever the map looks like at
    each call: the ride ids handed out by [getNewRides] so far, followed by
    those still waiting in [newRidesDetected], name every tracked ride
    exactly once, and nothing else. *)
Theorem new_rides_announced_once (calls : list TrackerCall) :
  let st := fold_left trackerCall calls (RideTracker.initial, []) in
  NoDup (snd st ++ RideTracker.newRidesDetected (fst st))
  /\ forall id,
       In id (snd st ++ RideTracker.newRidesDetected (fst st))
       <-> is_Some (RideTracker.knownRides (fst st) !! id).
Proof.
  cbn zeta.
  assert (H : forall st, reportedOnce st -> reportedOnce (fold_left trackerCall calls st)).
  { induction calls as [| c calls IH]; intros st Hst; [exact Hst |].
    cbn [fold_left]. apply IH, trackerCall_reportedOnce, Hst. }
  apply (H (RideTracker.initial, [])). split.
  - cbn. apply NoDup_nil_2.
  - intros id. cbn. rewrite lookup_empty. split; [intros [] | intros [? Hx]; discriminate].
Qed.

(** X26.  Once a ride is tracked, no later call changes what the tracker
    holds about it: its record, entrances, exits and paths stay as first
    found, and so does its coverage box, however the map changes. *)
Theorem tracked_ride_is_never_rescanned (calls : list TrackerCall) (rt : RideTracker.t)
    (reported : list Z) (id : Z) (known : RideTracker.KnownRide) :
  RideTracker.knownRides rt !! id = Some known ->
  let rt' := fst (fold_left trackerCall calls (rt, reported)) in
  RideTracker.knownRides rt' !! id = Some known
  /\ RideTracker.rideEntrances rt' !! id = RideTracker.rideEntrances rt !! id
  /\ RideTracker.rideExits rt' !! id = RideTracker.rideExits rt !! id
  /\ RideTracker.ridePaths rt' !! id = RideTracker.ridePaths rt !! id
  /\ RideTracker.getRideCoverage rt' id = RideTracker.getRideCoverage rt id.
Proof.
  intros Hk. cbn zeta.
  assert (H : forall st, is_Some (RideTracker.knownRides (fst st) !! id) ->
            rideRecord (fst (fold_left trackerCall calls st)) id = rideRecord (fst st) id).
  { induction calls as [| c calls IH]; intros st Hst; [reflexivity |].
    cbn [fold_left]. pose proof (trackerCall_frame st c id Hst) as Hc.
    rewrite IH; [exact Hc |]. unfold rideRecord in Hc. inversion Hc as [[H1 H2 H3 H4]].
    rewrite H1. exact Hst. }
  specialize (H (rt, reported)). cbn [fst] in H.
  assert (Hrec := H ltac:(rewrite Hk; eexists; reflexivity)).
  unfold rideRecord in Hrec. inversion Hrec as [[H1 H2 H3 H4]].
  repeat split; try congruence.
  unfold RideTracker.getRideCoverage, RideTracker.allPoints. rewrite H2, H3, H4. reflexivity.
Qed.

(** X27.  [scanAllRides] tracks exactly the list entries classified
    'ride' on top of what was known, and notes the length of the list.
    [checkForNewRides] compares that length only: called after the scan
    with any list of the same length it changes nothing and answers
    [false], whichever rides the list holds. *)
Theorem scanAllRides_tracks_rides (getTile : Z -> Z -> option (list (option Element)))
    (tick tick' : Z) (rs rs' : list (option RideTracker.RideInfo)) (rt : RideTracker.t) :
  let rt' := RideTracker.scanAllRides getTile tick (Some rs) rt in
  RideTracker.lastRideCount rt' = length rs
  /\ (forall id,
        is_Some (RideTracker.knownRides rt' !! id)
        <-> is_Some (RideTracker.knownRides rt !! id)
            \/ exists ride, In (Some ride) rs
                 /\ RideTracker.info_classification ride = "ride"%string
                 /\ RideTracker.info_id ride = id)
  /\ (length rs' = length rs ->
      RideTracker.checkForNewRides getTile tick' (Some rs') rt' = (rt', false)).
Proof.
  cbn zeta. unfold RideTracker.scanAllRides. split; [reflexivity |]. split.
  - intros id. cbn [RideTracker.with_lastRideCount RideTracker.knownRides].
    rewrite trackAll_known. split; (intros [H | (ride & Hin & Ht & Hid)]; [left; exact H |]);
      right; exists ride; cbn [isTrackable] in *.
    + apply String.eqb_eq in Ht. auto.
    + rewrite Ht. auto.
  - intros Hlen. unfold RideTracker.checkForNewRides.
    cbn [RideTracker.with_lastRideCount RideTracker.lastRideCount].
    rewrite Hlen, Nat.eqb_refl. reflexivity.
Qed.

(** ** What tracking a ride records about its stations *)

Section Stations.
Variable getTile : Z -> Z -> option (list (option Element)).

Lemma findConnectedPaths_appends (x y : Z) (paths : list RideTracker.PathPoint) :
  exists found,
    RideTracker.findConnectedPaths getTile x y paths = paths ++ found
    /\ (forall p, In p found ->
          RideTracker.pp_type p = "path"%string
          /\ footpathAt getTile (pointCell p) = true
          /\ manhattan (pointCell p) (x, y) <= 10)
    /\ (footpathAt getTile (x, y) = true -> In (pathPointAt (x, y)) (paths ++ found)).
Proof.
  destruct (search_result getTile x y paths)
    as (Hend & [HV _] & (_ & found & Hc & _ & Hall)
        & vd & d & A & B & _ & _ & _ & _ & _ & Hc0 & Hcol).
  exists found. split; [exact Hc |]. split.
  - intros p Hp. destruct (Hall p Hp) as (H1 & H2 & H3 & _). auto.
  - intros Hfp. unfold RideTracker.findConnectedPaths in Hc. rewrite <- Hc.
    apply Hcol; [| exact Hfp]. rewrite Hend in Hc0. destruct Hc0 as [[Hv _] | []]. exact Hv.
Qed.

Lemma pathsExplained_iff (D D' S S' : Z * Z -> Prop) (paths : list RideTracker.PathPoint) :
  (forall d, D d <-> D' d) -> (forall c, S c <-> S' c) ->
  pathsExplained getTile D S paths -> pathsExplained getTile D' S' paths.
Proof.
  intros HD HS (H1 & H2 & H3). split; [| split].
  - intros p Hp. destruct (H1 p Hp) as [[Ht Hs] | (Ht & Hfp & door & Hdoor & Hm)].
    + left. split; [exact Ht | apply HS, Hs].
    + right. repeat split; auto. exists door. split; [apply HD, Hdoor | exact Hm].
  - intros c Hc. apply H2, HS, Hc.
  - intros d Hd. apply H3, HD, Hd.
Qed.

Lemma pathsExplained_door (D S : Z * Z -> Prop) (x y : Z) (paths : list RideTracker.PathPoint) :
  pathsExplained getTile D S paths ->
  pathsExplained getTile (fun d => D d \/ d = (x, y)) S
    (RideTracker.findConnectedPaths getTile x y paths).
Proof.
  intros (H1 & H2 & H3).
  destruct (findConnectedPaths_appends x y paths) as (found & -> & Hf & Hd).
  split; [| split].
  - intros p Hp. apply in_app_or in Hp as [Hp | Hp].
    + destruct (H1 p Hp) as [Hs | (Ht & Hfp & door & Hdoor & Hm)]; [left; exact Hs |].
      right. repeat split; auto. exists door. auto.
    + right. destruct (Hf p Hp) as (Ht & Hfp & Hm). repeat split; auto. exists (x, y). auto.
  - intros c Hc. apply in_or_app. left. auto.
  - intros d [Hd' | ->] Hfp; [apply in_or_app; left; auto | auto].
Qed.

Lemma pathsExplained_start (D S : Z * Z -> Prop) (c0 : Z * Z)
    (paths : list RideTracker.PathPoint) :
  pathsExplained getTile D S paths ->
  pathsExplained getTile D (fun c => S c \/ c = c0) (paths ++ [stationPointAt c0]).
Proof.
  intros (H1 & H2 & H3). split; [| split].
  - intros p Hp. apply in_app_or in Hp as [Hp | [<- | []]].
    + destruct (H1 p Hp) as [[Ht Hs] | Hr]; [left; auto | right; exact Hr].
    + left. split; [reflexivity |]. right. destruct c0. reflexivity.
  - intros c [Hc | ->]; apply in_or_app; [left; auto | right; left; reflexivity].
  - intros d Hd Hfp. apply in_or_app. left. auto.
Qed.

Lemma perStation_cons {A : Type} (f : RideTracker.Station -> list A)
    (station : option RideTracker.Station) (stations : list (option RideTracker.Station)) :
  perStation f (station :: stations) = perStation f [station] ++ perStation f stations.
Proof. unfold perStation. cbn. rewrite app_nil_r. reflexivity. Qed.

Lemma perStation_app {A : Type} (f : RideTracker.Station -> list A)
    (l l' : list (option RideTracker.Station)) :
  perStation f (l ++ l') = perStation f l ++ perStation f l'.
Proof. unfold perStation. apply flat_map_app. Qed.

Lemma trackStation_step (D S : Z * Z -> Prop) (entrances exits : list (Z * Z * Z))
    (paths : list RideTracker.PathPoint) (station : option RideTracker.Station) :
  pathsExplained getTile D S paths ->
  exists paths',
    RideTracker.trackStation getTile (entrances, exits, paths) station
    = (entrances ++ perStation entranceOf [station],
       exits ++ perStation exitOf [station], paths')
    /\ pathsExplained getTile
         (fun d => D d \/ In d (perStation doorsOf [station]))
         (fun c => S c \/ In c (perStation startsOf [station])) paths'.
Proof.
  intros H. destruct station as [[entrance exit start] |].
  - unfold perStation, doorsOf, startsOf, entranceOf, exitOf, RideTracker.trackStation.
    cbn [flat_map RideTracker.st_entrance RideTracker.st_exit RideTracker.st_start].
    destruct entrance as [[[x y] z] |], exit as [[[x' y'] z'] |], start as [c |];
      try destruct c as [sx sy];
      cbn [app map fst snd]; rewrite ?app_nil_r; eexists; (split; [reflexivity |]).
    + apply (pathsExplained_door _ _ x y), (pathsExplained_door _ _ x' y'),
        (pathsExplained_start _ _ (sx, sy)) in H.
      revert H. apply pathsExplained_iff; intros; cbn [In]; intuition congruence.
    + apply (pathsExplained_door _ _ x y), (pathsExplained_door _ _ x' y') in H.
      revert H. apply pathsExplained_iff; intros; cbn [In]; intuition congruence.
    + apply (pathsExplained_door _ _ x y), (pathsExplained_start _ _ (sx, sy)) in H.
      revert H. apply pathsExplained_iff; intros; cbn [In]; intuition congruence.
    + apply (pathsExplained_door _ _ x y) in H.
      revert H. apply pathsExplained_iff; intros; cbn [In]; intuition congruence.
    + apply (pathsExplained_door _ _ x' y'), (pathsExplained_start _ _ (sx, sy)) in H.
      revert H. apply pathsExplained_iff; intros; cbn [In]; intuition congruence.
    + apply (pathsExplained_door _ _ x' y') in H.
      revert H. apply pathsExplained_iff; intros; cbn [In]; intuition congruence.
    + apply (pathsExplained_start _ _ (sx, sy)) in H.
      revert H. apply pathsExplained_iff; intros; cbn [In]; intuition congruence.
    + revert H. apply pathsExplained_iff; intros; cbn [In]; intuition congruence.
  - exists paths. cbn. rewrite !app_nil_r. split; [reflexivity |].
    revert H. apply pathsExplained_iff; intros; cbn [In]; intuition congruence.
Qed.

Lemma trackStations_fold (stations done : list (option RideTracker.Station))
    (entrances exits : list (Z * Z * Z)) (paths : list RideTracker.PathPoint) :
  pathsExplained getTile (fun d => In d (perStation doorsOf done))
    (fun c => In c (perStation startsOf done)) paths ->
  exists paths',
    fold_left (RideTracker.trackStation getTile) stations (entrances, exits, paths)
    = (entrances ++ perStation entranceOf stations,
       exits ++ perStation exitOf stations, paths')
    /\ pathsExplained getTile (fun d => In d (perStation doorsOf (done ++ stations)))
         (fun c => In c (perStation startsOf (done ++ stations))) paths'.
Proof.
  revert done entrances exits paths.
  induction stations as [| station stations IH]; intros done entrances exits paths H.
  - exists paths. cbn. rewrite !app_nil_r. auto.
  - cbn [fold_left].
    destruct (trackStation_step _ _ entrances exits paths station H) as (paths1 & -> & H1).
    destruct (IH (done ++ [station]) (entrances ++ perStation entranceOf [station])
                (exits ++ perStation exitOf [station]) paths1) as (paths' & -> & H').
    { revert H1. apply pathsExplained_iff; intros; rewrite perStation_app, in_app_iff;
        reflexivity. }
    exists paths'. rewrite <- !app_assoc, <- !perStation_cons. split; [reflexivity |].
    rewrite <- app_assoc in H'. exact H'.
Qed.

(** X28.  Tracking a ride not yet known, with stations: its entrances
    and exits are recorded in station order, a missing height as 0.  Its
    paths hold every station start as a 'station' point and every door
    (entrance or exit tile) that is a footpath tile as a 'path' point, and
    nothing but station starts and footpath tiles within 10 tiles of a
    door. *)
Theorem trackRide_records_stations (tick : Z) (ride : RideTracker.RideInfo)
    (rt : RideTracker.t) (stations : list (option RideTracker.Station)) :
  RideTracker.knownRides rt !! RideTracker.info_id ride = None ->
  RideTracker.info_stations ride = Some stations ->
  let rt' := RideTracker.trackRide getTile tick ride rt in
  RideTracker.rideEntrances rt' !! RideTracker.info_id ride
    = Some (perStation entranceOf stations)
  /\ RideTracker.rideExits rt' !! RideTracker.info_id ride = Some (perStation exitOf stations)
  /\ exists paths,
       RideTracker.ridePaths rt' !! RideTracker.info_id ride = Some paths
       /\ (forall p, In p paths ->
             (RideTracker.pp_type p = "station"%string
              /\ In (pointCell p) (perStation startsOf stations))
             \/ (RideTracker.pp_type p = "path"%string
                 /\ footpathAt getTile (pointCell p) = true
                 /\ exists door, In door (perStation doorsOf stations)
                                 /\ manhattan (pointCell p) door <= 10))
       /\ (forall c, In c (perStation startsOf stations) -> In (stationPointAt c) paths)
       /\ (forall d, In d (perStation doorsOf stations) -> footpathAt getTile d = true ->
             In (pathPointAt d) paths).
Proof.
  intros Hnew Hst. cbn zeta.
  unfold RideTracker.trackRide. rewrite Hnew.
  unfold RideTracker.findRideEntrancesExits. rewrite Hst.
  destruct (trackStations_fold stations [] [] [] []) as (paths & -> & H).
  { split; [intros p [] | split; intros c []]. }
  cbn [RideTracker.rideEntrances RideTracker.rideExits RideTracker.ridePaths app].
  rewrite !lookup_insert_eq. split; [reflexivity |]. split; [reflexivity |].
  exists paths. split; [reflexivity |]. exact H.
Qed.

End Stations.

(** ** Smart hiring *)

Section SmartHiring.
Variable Math_sin : Q -> Q.
Variable cfg : Config.
Variable h : Host.
Hypothesis Hauth : NetworkHelper.canModifyGameState h = true.

Lemma smartStep_refl (acc : StaffManager.t * ActionQueue.t) : smartStep acc acc [].
Proof.
  unfold smartStep. rewrite app_nil_r. repeat split; try reflexivity.
  intros ty _. cbn. lia.
Qed.

Lemma smartStep_trans (a b c : StaffManager.t * ActionQueue.t) (l1 l2 : list PendingAction) :
  smartStep a b l1 -> smartStep b c l2 -> smartStep a c (l1 ++ l2).
Proof.
  intros (Q1 & M1 & R1 & C1 & L1) (Q2 & M2 & R2 & C2 & L2). unfold smartStep.
  split; [rewrite Q2, Q1, app_assoc; reflexivity |].
  split; [congruence |]. split; [congruence |]. split.
  - intros ty Hty. rewrite (C2 ty Hty), (C1 ty Hty), hiresOf_app. lia.
  - rewrite length_app, !hiresOf_app. lia.
Qed.

Lemma smartStep_stats (acc : StaffManager.t * ActionQueue.t) (regen : bool)
    (crime disgust newRides : Z) :
  smartStep acc
    (StaffManager.with_statistics (fst acc) regen
       (StaffManager.with_smart (StaffManager.statistics (fst acc)) crime disgust newRides
          (StaffManager.smartHires (StaffManager.statistics (fst acc)))), snd acc) [].
Proof.
  unfold smartStep. cbn [fst snd]. rewrite app_nil_r. repeat split; try reflexivity.
  intros ty _. unfold smartCount, hiresOf. cbn. lia.
Qed.

Lemma smartStep_regen (acc : StaffManager.t * ActionQueue.t) (regen : bool) :
  smartStep acc
    (StaffManager.with_statistics (fst acc) regen (StaffManager.statistics (fst acc)),
     snd acc) [].
Proof.
  unfold smartStep. cbn [fst snd]. rewrite app_nil_r. repeat split; try reflexivity.
  intros ty _. unfold smartCount, hiresOf. cbn. lia.
Qed.

Lemma smartHireDue_rosterState (sm sm' : StaffManager.t) (needed : bool) (ty : string) :
  rosterState sm' = rosterState sm ->
  smartHireDue cfg sm' needed ty = smartHireDue cfg sm needed ty.
Proof.
  unfold rosterState, smartHireDue, StaffManager.roster. intros H.
  inversion H as [[H1 H2 H3 H4 H5 H6 H7]]. rewrite H2, H3, H4, H5. reflexivity.
Qed.

Lemma smartHire_step (acc : StaffManager.t * ActionQueue.t) (ty : string) :
  In ty roles ->
  exists added,
    smartStep acc (StaffManager.smartHire Math_sin cfg h acc ty) added
    /\ oneHireIf true ty added
    /\ sideStats (fst (StaffManager.smartHire Math_sin cfg h acc ty)) = sideStats (fst acc).
Proof.
  intros Hty.
  destruct (hireStaff_adds Math_sin cfg h (fst acc) (snd acc) ty Hauth)
    as (et & orders & Heq & _).
  eexists. split; [| split; [exists et, orders; reflexivity | reflexivity]].
  unfold smartStep, StaffManager.smartHire. cbn [fst snd]. rewrite Heq.
  split; [reflexivity |]. split; [reflexivity |]. split; [reflexivity |]. split.
  - intros ty' Hty'.
    destruct Hty as [<- | [<- | [<- | [<- | []]]]];
      destruct Hty' as [<- | [<- | [<- | [<- | []]]]]; cbn; lia.
  - destruct Hty as [<- | [<- | [<- | [<- | []]]]]; reflexivity.
Qed.

Lemma smartHireIf_step (needed : bool) (acc : StaffManager.t * ActionQueue.t) (ty : string) :
  In ty roles ->
  exists added,
    smartStep acc (StaffManager.smartHireIf Math_sin cfg h needed acc ty) added
    /\ oneHireIf (smartHireDue cfg (fst acc) needed ty) ty added
    /\ sideStats (fst (StaffManager.smartHireIf Math_sin cfg h needed acc ty))
       = sideStats (fst acc).
Proof.
  intros Hty. unfold StaffManager.smartHireIf, smartHireDue.
  destruct (StaffManager.roleAutoHire cfg ty && needed); cbn [andb].
  - destruct (Z.of_nat (length (StaffManager.roster (fst acc) ty))
              <? StaffManager.roleMax cfg ty).
    + apply smartHire_step, Hty.
    + exists []. split; [apply smartStep_refl | split; reflexivity].
  - exists []. split; [apply smartStep_refl | split; reflexivity].
Qed.

Lemma hireForNewRides_step (ids : list Z) (acc : StaffManager.t * ActionQueue.t) :
  let acc' := fold_left (StaffManager.hireForNewRide Math_sin cfg h) ids acc in
  exists added,
    smartStep acc acc' added
    /\ length added
       = (if smartHireDue cfg (fst acc) true "mechanic" then length ids else 0%nat)
    /\ hiresOf 1 added = length added
    /\ StaffManager.newRidesDetected (StaffManager.statistics (fst acc'))
       = StaffManager.newRidesDetected (StaffManager.statistics (fst acc))
         + Z.of_nat (length ids)
    /\ StaffManager.crimeDetected (StaffManager.statistics (fst acc'))
       = StaffManager.crimeDetected (StaffManager.statistics (fst acc))
    /\ StaffManager.disgustComplaints (StaffManager.statistics (fst acc'))
       = StaffManager.disgustComplaints (StaffManager.statistics (fst acc)).
Proof.
  cbn zeta. revert acc. induction ids as [| id ids IH]; intros acc.
  - exists []. cbn [fold_left length]. split; [apply smartStep_refl |].
    split; [destruct (smartHireDue _ _ _ _); reflexivity |].
    split; [reflexivity |]. split; [lia |]. split; reflexivity.
  - cbn [fold_left].
    set (counted :=
      StaffManager.with_statistics (fst acc) (StaffManager.zonesNeedRegeneration (fst acc))
        (StaffManager.with_smart (StaffManager.statistics (fst acc))
           (StaffManager.crimeDetected (StaffManager.statistics (fst acc)))
           (StaffManager.disgustComplaints (StaffManager.statistics (fst acc)))
           (StaffManager.newRidesDetected (StaffManager.statistics (fst acc)) + 1)
           (StaffManager.smartHires (StaffManager.statistics (fst acc))))).
    change (StaffManager.hireForNewRide Math_sin cfg h acc id)
      with (StaffManager.smartHireIf Math_sin cfg h true (counted, snd acc) "mechanic").
    assert (Hc : smartStep acc (counted, snd acc) []).
    { apply smartStep_stats. }
    destruct (smartHireIf_step true (counted, snd acc) "mechanic") as (a1 & S1 & O1 & T1);
      [cbn; tauto |].
    set (acc1 := StaffManager.smartHireIf Math_sin cfg h true (counted, snd acc) "mechanic") in *.
    destruct (IH acc1) as (a2 & S2 & L2 & H2 & N2 & C2 & D2).
    pose proof (smartStep_trans _ _ _ _ _ (smartStep_trans _ _ _ _ _ Hc S1) S2) as S.
    cbn [app] in S. exists (a1 ++ a2). split; [exact S |].
    assert (Hdue1 : smartHireDue cfg (fst acc1) true "mechanic"
                    = smartHireDue cfg (fst acc) true "mechanic").
    { apply smartHireDue_rosterState.
      destruct (smartStep_trans _ _ _ _ _ Hc S1) as (_ & _ & R & _). exact R. }
    assert (Hduec : smartHireDue cfg (fst (counted, snd acc)) true "mechanic"
                    = smartHireDue cfg (fst acc) true "mechanic").
    { apply smartHireDue_rosterState. destruct Hc as (_ & _ & R & _). exact R. }
    rewrite Hdue1 in L2. rewrite Hduec in O1.
    assert (H1 : hiresOf 1 a1 = length a1
                 /\ length a1 = if smartHireDue cfg (fst acc) true "mechanic"
                                then 1%nat else 0%nat).
    { unfold oneHireIf in O1. destruct (smartHireDue cfg (fst acc) true "mechanic").
      - destruct O1 as (et & orders & ->). split; reflexivity.
      - subst a1. split; reflexivity. }
    destruct H1 as [H1 L1].
    split; [rewrite length_app, L1, L2; cbn [length];
            destruct (smartHireDue cfg (fst acc) true "mechanic"); lia |].
    split; [rewrite hiresOf_app, length_app; lia |].
    unfold sideStats in T1. cbn [fst] in T1. inversion T1 as [[T11 T12 T13 T14]].
    fold acc1 in T11, T12, T13.
    split; [rewrite N2, T13; unfold counted; cbn [length]; cbn; lia |].
    split; [rewrite C2, T11; reflexivity | rewrite D2, T12; reflexivity].
Qed.


(** How one enabled call of [checkSmartHiring] decomposes. *)
Lemma checkSmartHiring_pieces (perRide : bool)
    (rides : option (list (option RideTracker.RideInfo))) (pa : ParkAnalyzer.t)
    (p : StaffManager.Plugin) :
  autoHireEnabled cfg = true ->
  let checked :=
    if perRide
    then RideTracker.checkForNewRides (RideTracker.hostTile h) (RideTracker.getGameTick h)
           rides (StaffManager.rideTracker p)
    else (StaffManager.rideTracker p, false) in
  let pending := if snd checked then RideTracker.newRidesDetected (fst checked) else [] in
  let p' := StaffManager.checkSmartHiring Math_sin true perRide cfg h rides pa p in
  exists m s hh e : list PendingAction,
    smartStep (StaffManager.manager p, StaffManager.actions p)
      (StaffManager.manager p', StaffManager.actions p') (m ++ s ++ hh ++ e)
    /\ length m
       = (if smartHireDue cfg (StaffManager.manager p) true "mechanic"
          then length pending else 0%nat)
    /\ hiresOf 1 m = length m
    /\ oneHireIf (smartHireDue cfg (StaffManager.manager p)
                    (CrimeDetector.needsMoreSecurity cfg (StaffManager.crimeDetector p'))
                    "security") "security" s
    /\ oneHireIf (smartHireDue cfg (StaffManager.manager p)
                    (GuestFeedbackAnalyzer.needsMoreHandymen cfg pa (StaffManager.feedback p'))
                    "handyman") "handyman" hh
    /\ oneHireIf (smartHireDue cfg (StaffManager.manager p)
                    (GuestFeedbackAnalyzer.needsMoreEntertainers cfg (StaffManager.feedback p'))
                    "entertainer") "entertainer" e
    /\ RideTracker.newRidesDetected (StaffManager.rideTracker p')
       = (if snd checked then [] else RideTracker.newRidesDetected (fst checked))
    /\ StaffManager.newRidesDetected (StaffManager.statistics (StaffManager.manager p'))
       = StaffManager.newRidesDetected (StaffManager.statistics (StaffManager.manager p))
         + Z.of_nat (length pending)
    /\ (snd checked = true ->
        StaffManager.zonesNeedRegeneration (StaffManager.manager p') = true)
    /\ StaffManager.crimeDetected (StaffManager.statistics (StaffManager.manager p'))
       = CrimeDetector.getCrimeLevel (StaffManager.crimeDetector p')
    /\ StaffManager.disgustComplaints (StaffManager.statistics (StaffManager.manager p'))
       = GuestFeedbackAnalyzer.disgustCount (StaffManager.feedback p').
Proof.
  intros Hen. cbv zeta. unfold StaffManager.checkSmartHiring. rewrite Hen, Hauth.
  cbn [negb orb]. cbv zeta.
  set (checked := if perRide then _ else _).
  set (acc1 := if snd checked then _
               else (StaffManager.manager p, StaffManager.actions p)).
  set (cd2 := CrimeDetector.update h pa (StaffManager.crimeDetector p)).
  set (gfa3 := GuestFeedbackAnalyzer.update h (StaffManager.feedback p)).
  set (sm2 := StaffManager.with_statistics (fst acc1) _ _).
  set (acc2 := StaffManager.smartHireIf Math_sin cfg h _ (sm2, snd acc1) "security").
  set (sm3 := StaffManager.with_statistics (fst acc2) _ _).
  set (acc3 := StaffManager.smartHireIf Math_sin cfg h _ (sm3, snd acc2) "handyman").
  set (acc4 := StaffManager.smartHireIf Math_sin cfg h _ acc3 "entertainer").
  cbn [StaffManager.manager StaffManager.actions StaffManager.rideTracker
       StaffManager.crimeDetector StaffManager.feedback].
  (* 1 *)
  assert (F1 : exists m,
    smartStep (StaffManager.manager p, StaffManager.actions p) acc1 m
    /\ length m = (if smartHireDue cfg (StaffManager.manager p) true "mechanic"
                   then length (if snd checked
                                then RideTracker.newRidesDetected (fst checked) else [])
                   else 0%nat)
    /\ hiresOf 1 m = length m
    /\ StaffManager.newRidesDetected (StaffManager.statistics (fst acc1))
       = StaffManager.newRidesDetected (StaffManager.statistics (StaffManager.manager p))
         + Z.of_nat (length (if snd checked
                             then RideTracker.newRidesDetected (fst checked) else []))
    /\ (snd checked = true -> StaffManager.zonesNeedRegeneration (fst acc1) = true)).
  { unfold acc1. destruct (snd checked).
    - destruct (hireForNewRides_step (snd (RideTracker.getNewRides (fst checked)))
                  (StaffManager.manager p, StaffManager.actions p))
        as (m & S & L & H1 & N & _ & _).
      exists m. split.
      + pose proof (smartStep_trans _ _ _ _ _ S (smartStep_regen _ true)) as S'.
        rewrite app_nil_r in S'. exact S'.
      + split; [exact L |]. split; [exact H1 |]. split; [exact N |]. reflexivity.
    - exists []. split; [apply smartStep_refl |].
      split; [destruct (smartHireDue _ _ _ _); reflexivity |].
      split; [reflexivity |]. split; [cbn; lia | discriminate]. }
  destruct F1 as (m & S1 & Lm & Hm & N1 & Z1).
  (* 2 *)
  pose proof (smartStep_stats acc1 (StaffManager.zonesNeedRegeneration (fst acc1))
                (CrimeDetector.getCrimeLevel cd2)
                (StaffManager.disgustComplaints (StaffManager.statistics (fst acc1)))
                (StaffManager.newRidesDetected (StaffManager.statistics (fst acc1)))) as S2.
  fold sm2 in S2.
  destruct (smartHireIf_step (CrimeDetector.needsMoreSecurity cfg cd2) (sm2, snd acc1) "security")
    as (s & S3 & O3 & T3); [cbn; tauto |].
  fold acc2 in S3, T3.
  (* 3 *)
  pose proof (smartStep_stats acc2 (StaffManager.zonesNeedRegeneration (fst acc2))
                (StaffManager.crimeDetected (StaffManager.statistics (fst acc2)))
                (GuestFeedbackAnalyzer.disgustCount gfa3)
                (StaffManager.newRidesDetected (StaffManager.statistics (fst acc2)))) as S4.
  fold sm3 in S4.
  destruct (smartHireIf_step (GuestFeedbackAnalyzer.needsMoreHandymen cfg pa gfa3)
              (sm3, snd acc2) "handyman") as (hh & S5 & O5 & T5); [cbn; tauto |].
  fold acc3 in S5, T5.
  (* 4 *)
  destruct (smartHireIf_step (GuestFeedbackAnalyzer.needsMoreEntertainers cfg gfa3)
              acc3 "entertainer") as (e & S6 & O6 & T6); [cbn; tauto |].
  fold acc4 in S6, T6.
  pose proof (smartStep_trans _ _ _ _ _ S1 S2) as A2. rewrite app_nil_r in A2.
  pose proof (smartStep_trans _ _ _ _ _ A2 S3) as A3.
  pose proof (smartStep_trans _ _ _ _ _ A3 S4) as A4. rewrite app_nil_r in A4.
  pose proof (smartStep_trans _ _ _ _ _ A4 S5) as A5.
  pose proof (smartStep_trans _ _ _ _ _ A5 S6) as A6.
  rewrite <- !app_assoc in A6.
  rewrite (smartHireDue_rosterState (StaffManager.manager p) (fst (sm2, snd acc1)))
    in O3 by (destruct A2 as (_ & _ & R & _); exact R).
  rewrite (smartHireDue_rosterState (StaffManager.manager p) (fst (sm3, snd acc2)))
    in O5 by (destruct A4 as (_ & _ & R & _); exact R).
  rewrite (smartHireDue_rosterState (StaffManager.manager p) (fst acc3))
    in O6 by (destruct A5 as (_ & _ & R & _); exact R).
  exists m, s, hh, e.
  split; [exact A6 |]. split; [exact Lm |]. split; [exact Hm |].
  split; [exact O3 |]. split; [exact O5 |]. split; [exact O6 |].
  unfold sideStats in T3, T5, T6. cbn [fst] in T3, T5, T6.
  inversion T3 as [[T31 T32 T33 T34]]. inversion T5 as [[T51 T52 T53 T54]].
  inversion T6 as [[T61 T62 T63 T64]].
  split; [destruct (snd checked); reflexivity |].
  split; [rewrite T63, T53; unfold sm3; cbn [StaffManager.statistics
            StaffManager.with_statistics StaffManager.with_smart StaffManager.newRidesDetected];
          rewrite T33; exact N1 |].
  split; [intros Hc; rewrite T64, T54; unfold sm3; cbn [StaffManager.with_statistics
            StaffManager.zonesNeedRegeneration]; rewrite T34; apply Z1, Hc |].
  split; [rewrite T61, T51; unfold sm3; cbn [StaffManager.statistics
            StaffManager.with_statistics StaffManager.with_smart StaffManager.crimeDetected];
          rewrite T31; reflexivity |].
  rewrite T62, T52. reflexivity.
Qed.

End SmartHiring.

Lemma oneHireIf_counts (cond : bool) (ty : string) (items : list PendingAction) :
  oneHireIf cond ty items -> In ty roles ->
  length items = (if cond then 1%nat else 0%nat)
  /\ hiresOf 0 items = (if String.eqb ty "handyman" && cond then 1%nat else 0%nat)
  /\ hiresOf 1 items = (if String.eqb ty "mechanic" && cond then 1%nat else 0%nat)
  /\ hiresOf 2 items = (if String.eqb ty "security" && cond then 1%nat else 0%nat)
  /\ hiresOf 3 items = (if String.eqb ty "entertainer" && cond then 1%nat else 0%nat).
Proof.
  intros H Hty. split.
  - unfold oneHireIf in H. destruct cond; [destruct H as (et & orders & ->) | subst items];
      reflexivity.
  - pose proof (hiresOf_oneHireIf cond ty "handyman" items H Hty) as H0.
    pose proof (hiresOf_oneHireIf cond ty "mechanic" items H Hty) as H1.
    pose proof (hiresOf_oneHireIf cond ty "security" items H Hty) as H2.
    pose proof (hiresOf_oneHireIf cond ty "entertainer" items H Hty) as H3.
    rewrite andb_comm in H0, H1, H2, H3.
    repeat split; [apply H0 | apply H1 | apply H2 | apply H3]; cbn; tauto.
Qed.

Lemma smartHireDue_blocked (cfg : Config) (sm : StaffManager.t) (needed : bool) (ty : string) :
  StaffManager.roleAutoHire cfg ty = false
  \/ StaffManager.roleMax cfg ty <= Z.of_nat (length (StaffManager.roster sm ty)) ->
  smartHireDue cfg sm needed ty = false.
Proof.
  unfold smartHireDue. intros [-> | H]; [reflexivity |].
  apply andb_false_iff. right. apply Z.ltb_ge. exact H.
Qed.

(** X29.  One call of [checkSmartHiring()] does nothing at all unless
    smart hiring and auto-hire are enabled and the instance is
    authoritative.  Otherwise it only appends hire requests: at most one
    each for security, handymen and entertainers, one exactly when the
    role's auto-hire flag is set, the freshly updated detector asks for
    more, and the role's list is below its maximum; none for a role whose
    auto-hire flag is off or whose list has reached its maximum.  Each
    request is counted in the smart-hire counter of its role, the staff
    lists are not touched, and the crime and disgust statistics are
    those of the updated detectors. *)
Theorem checkSmartHiring_requests (Math_sin : Q -> Q) (smart perRide : bool) (cfg : Config)
    (h : Host) (rides : option (list (option RideTracker.RideInfo))) (pa : ParkAnalyzer.t)
    (p : StaffManager.Plugin) :
  let p' := StaffManager.checkSmartHiring Math_sin smart perRide cfg h rides pa p in
  let enabled := smart && autoHireEnabled cfg && NetworkHelper.canModifyGameState h in
  (enabled = false -> p' = p)
  /\ exists added : list PendingAction,
       ActionQueue.queue (StaffManager.actions p')
         = ActionQueue.queue (StaffManager.actions p) ++ added
       /\ ActionQueue.maxPerTick (StaffManager.actions p')
         = ActionQueue.maxPerTick (StaffManager.actions p)
       /\ length added
          = (hiresOf 0 added + hiresOf 1 added + hiresOf 2 added + hiresOf 3 added)%nat
       /\ (hiresOf 0 added <= 1)%nat
       /\ (hiresOf 2 added <= 1)%nat
       /\ (hiresOf 3 added <= 1)%nat
       /\ (forall ty, In ty roles ->
             StaffManager.roleAutoHire cfg ty = false
             \/ StaffManager.roleMax cfg ty
                <= Z.of_nat (length (StaffManager.roster (StaffManager.manager p) ty)) ->
             hiresOf (staffTypeNumber ty) added = 0%nat)
       /\ (forall ty, In ty roles ->
             smartCount (StaffManager.manager p') ty
             = smartCount (StaffManager.manager p) ty
               + Z.of_nat (hiresOf (staffTypeNumber ty) added))
       /\ rosterState (StaffManager.manager p') = rosterState (StaffManager.manager p)
       /\ (enabled = true ->
             hiresOf 2 added
             = (if smartHireDue cfg (StaffManager.manager p)
                     (CrimeDetector.needsMoreSecurity cfg (StaffManager.crimeDetector p'))
                     "security" then 1%nat else 0%nat)
             /\ hiresOf 0 added
                = (if smartHireDue cfg (StaffManager.manager p)
                        (GuestFeedbackAnalyzer.needsMoreHandymen cfg pa (StaffManager.feedback p'))
                        "handyman" then 1%nat else 0%nat)
             /\ hiresOf 3 added
                = (if smartHireDue cfg (StaffManager.manager p)
                        (GuestFeedbackAnalyzer.needsMoreEntertainers cfg
                           (StaffManager.feedback p'))
                        "entertainer" then 1%nat else 0%nat)
             /\ StaffManager.crimeDetected (StaffManager.statistics (StaffManager.manager p'))
                = CrimeDetector.getCrimeLevel (StaffManager.crimeDetector p')
             /\ StaffManager.disgustComplaints
                  (StaffManager.statistics (StaffManager.manager p'))
                = GuestFeedbackAnalyzer.disgustCount (StaffManager.feedback p')).
Proof.
  cbv zeta.
  destruct (smart && autoHireEnabled cfg && NetworkHelper.canModifyGameState h) eqn:Hen.
  - apply andb_prop in Hen as [Hen Hauth]. apply andb_prop in Hen as [-> Hcfg].
    split; [discriminate |].
    destruct (checkSmartHiring_pieces Math_sin cfg h Hauth perRide rides pa p Hcfg)
      as (m & s & hh & e & (Q & M & R & C & L) & Lm & Hm & Os & Oh & Oe & _ & _ & _ & Hc & Hd).
    cbn [fst snd] in Q, M, R, C, L.
    destruct (oneHireIf_counts _ _ _ Os ltac:(cbn; tauto)) as (Ls & s0 & s1 & s2 & s3).
    destruct (oneHireIf_counts _ _ _ Oh ltac:(cbn; tauto)) as (Lh & h0 & h1 & h2 & h3).
    destruct (oneHireIf_counts _ _ _ Oe ltac:(cbn; tauto)) as (Le & e0 & e1 & e2 & e3).
    cbn [String.eqb Ascii.eqb Bool.eqb andb] in s0, s1, s2, s3, h0, h1, h2, h3, e0, e1, e2, e3.
    assert (Hm0 : hiresOf 0 m = 0%nat /\ hiresOf 2 m = 0%nat /\ hiresOf 3 m = 0%nat).
    { rewrite !length_app, !hiresOf_app in L.
      rewrite s0, s1, s2, s3, h0, h1, h2, h3, e0, e1, e2, e3, Ls, Lh, Le in L.
      destruct (smartHireDue cfg _ _ "security"), (smartHireDue cfg _ _ "handyman"),
        (smartHireDue cfg _ _ "entertainer"); lia. }
    destruct Hm0 as (m0 & m2 & m3).
    assert (T0 : hiresOf 0 (m ++ s ++ hh ++ e) = hiresOf 0 hh)
      by (rewrite !hiresOf_app, m0, s0, e0; lia).
    assert (T1 : hiresOf 1 (m ++ s ++ hh ++ e) = length m)
      by (rewrite !hiresOf_app, Hm, s1, h1, e1; lia).
    assert (T2 : hiresOf 2 (m ++ s ++ hh ++ e) = hiresOf 2 s)
      by (rewrite !hiresOf_app, m2, h2, e2; lia).
    assert (T3 : hiresOf 3 (m ++ s ++ hh ++ e) = hiresOf 3 e)
      by (rewrite !hiresOf_app, m3, s3, h3; lia).
    exists (m ++ s ++ hh ++ e).
    split; [exact Q |]. split; [exact M |]. split; [exact L |].
    split; [rewrite T0, h0; match goal with |- context [if ?b then _ else _] => destruct b end;
            lia |].
    split; [rewrite T2, s2; match goal with |- context [if ?b then _ else _] => destruct b end;
            lia |].
    split; [rewrite T3, e3; match goal with |- context [if ?b then _ else _] => destruct b end;
            lia |].
    split.
    { intros ty Hty Hblocked.
      destruct Hty as [<- | [<- | [<- | [<- | []]]]].
      - change (staffTypeNumber "handyman") with 0. rewrite T0, h0.
        rewrite smartHireDue_blocked by exact Hblocked. reflexivity.
      - change (staffTypeNumber "mechanic") with 1. rewrite T1, Lm.
        rewrite smartHireDue_blocked by exact Hblocked. reflexivity.
      - change (staffTypeNumber "security") with 2. rewrite T2, s2.
        rewrite smartHireDue_blocked by exact Hblocked. reflexivity.
      - change (staffTypeNumber "entertainer") with 3. rewrite T3, e3.
        rewrite smartHireDue_blocked by exact Hblocked. reflexivity. }
    split; [exact C |]. split; [exact R |]. intros _.
    split; [rewrite T2; exact s2 |]. split; [rewrite T0; exact h0 |].
    split; [rewrite T3; exact e3 |]. split; [exact Hc | exact Hd].
  - assert (Hp : StaffManager.checkSmartHiring Math_sin smart perRide cfg h rides pa p = p).
    { unfold StaffManager.checkSmartHiring.
      destruct smart, (autoHireEnabled cfg), (NetworkHelper.canModifyGameState h);
        try reflexivity; discriminate. }
    rewrite Hp. split; [reflexivity |]. exists [].
    rewrite app_nil_r. repeat split; try reflexivity; try (cbn; lia); try discriminate.
Qed.

(** X30.  When [checkSmartHiring()] finds new rides, it hands out every
    id waiting in the tracker, counts each in the statistics, marks the
    zones for regeneration, and asks for one mechanic per id if mechanic
    auto-hire is on and the mechanics list is below the maximum.  The list
    is compared once as it stands, so a batch of ids yields as many
    requests whatever room is left below the maximum. *)
Theorem checkSmartHiring_mechanic_per_new_ride (Math_sin : Q -> Q) (cfg : Config) (h : Host)
    (rides : option (list (option RideTracker.RideInfo))) (pa : ParkAnalyzer.t)
    (p : StaffManager.Plugin) :
  autoHireEnabled cfg = true ->
  NetworkHelper.canModifyGameState h = true ->
  let checked :=
    RideTracker.checkForNewRides (RideTracker.hostTile h) (RideTracker.getGameTick h)
      rides (StaffManager.rideTracker p) in
  snd checked = true ->
  let p' := StaffManager.checkSmartHiring Math_sin true true cfg h rides pa p in
  RideTracker.newRidesDetected (StaffManager.rideTracker p') = []
  /\ StaffManager.zonesNeedRegeneration (StaffManager.manager p') = true
  /\ StaffManager.newRidesDetected (StaffManager.statistics (StaffManager.manager p'))
     = StaffManager.newRidesDetected (StaffManager.statistics (StaffManager.manager p))
       + Z.of_nat (length (RideTracker.newRidesDetected (fst checked)))
  /\ exists added : list PendingAction,
       ActionQueue.queue (StaffManager.actions p')
         = ActionQueue.queue (StaffManager.actions p) ++ added
       /\ hiresOf 1 added
          = (if mechanicAutoHire cfg
                && (Z.of_nat (length (StaffManager.mechanics (StaffManager.manager p)))
                    <? mechanicMaxCount cfg)
             then length (RideTracker.newRidesDetected (fst checked)) else 0%nat).
Proof.
  intros Hcfg Hauth checked Hfound. cbv zeta.
  destruct (checkSmartHiring_pieces Math_sin cfg h Hauth true rides pa p Hcfg)
    as (m & s & hh & e & (Q & _) & Lm & Hm & Os & Oh & Oe & Hrt & Hn & Hz & _).
  fold checked in Lm, Hrt, Hn, Hz. rewrite Hfound in Lm, Hrt, Hn.
  split; [exact Hrt |]. split; [apply Hz, Hfound |]. split; [exact Hn |].
  exists (m ++ s ++ hh ++ e). split; [exact Q |].
  destruct (oneHireIf_counts _ _ _ Os ltac:(cbn; tauto)) as (_ & _ & s1 & _).
  destruct (oneHireIf_counts _ _ _ Oh ltac:(cbn; tauto)) as (_ & _ & h1 & _).
  destruct (oneHireIf_counts _ _ _ Oe ltac:(cbn; tauto)) as (_ & _ & e1 & _).
  cbn [String.eqb Ascii.eqb Bool.eqb andb] in s1, h1, e1.
  rewrite !hiresOf_app, Hm, Lm, s1, h1, e1.
  unfold smartHireDue. cbn [StaffManager.roleAutoHire StaffManager.roster StaffManager.roleMax
    String.eqb Ascii.eqb Bool.eqb]. rewrite andb_true_r.
  destruct (mechanicAutoHire cfg && _); lia.
Qed.

(** ** Concrete runs of the further properties *)

(** Three frames of 3, 5 and 4 ms average between 3 and 5. *)
Lemma three_frames_average :
  (inject_Z 3 <= PerformanceMonitor.getAverageFrameTime threeFrames)%Q
  /\ (PerformanceMonitor.getAverageFrameTime threeFrames <= inject_Z 5)%Q.
Proof.
  apply (PerformanceMonitor_average_bounded threeFrames 3 5).
  - repeat constructor; lia.
  - discriminate.
Defined.

(** The small park changes between the two calls of its scan; all six
    cells are handled by the first call. *)
Lemma smallPark_scan_records_real_tiles :
  let worlds := [smallPark None; smallParkLater] in
  let pa := ParkAnalyzer.runStepsOn worlds
              (ParkAnalyzer.startAnalysis (smallPark None) ParkAnalyzer.initial) in
  (In (1%nat, 0%nat) (ParkAnalyzer.pathTiles pa) ->
     (1 < 3)%nat /\ (0 < 2)%nat /\ heldWhenScanned worlds 3 isFootpath 1 0 = true)
  /\ (In (1%nat, 0%nat) (ParkAnalyzer.queueLocations pa) ->
     (1 < 3)%nat /\ (0 < 2)%nat /\ heldWhenScanned worlds 3 isQueuePath 1 0 = true)
  /\ (In (1%nat, 0%nat) (ParkAnalyzer.entranceLocations pa) ->
     (1 < 3)%nat /\ (0 < 2)%nat /\ heldWhenScanned worlds 3 isEntrance 1 0 = true)
  /\ (forall r, In (1%nat, 0%nat, r) (ParkAnalyzer.rideLocations pa) ->
     (1 < 3)%nat /\ (0 < 2)%nat /\ heldWhenScanned worlds 3 (isTrackOf r) 1 0 = true).
Proof.
  apply (scan_records_only_real_tiles (smallPark None) [smallPark None; smallParkLater]
           3 2 ParkAnalyzer.initial 1 0).
  - reflexivity.
  - repeat constructor.
Defined.

(** The finished scan of the changing small park holds tile (1, 0) as it
    was at the first call. *)
Lemma smallPark_scan_misses_nothing :
  let worlds := [smallPark None; smallParkLater] in
  let pa := ParkAnalyzer.runStepsOn worlds
              (ParkAnalyzer.startAnalysis (smallPark None) ParkAnalyzer.initial) in
  (In (1%nat, 0%nat) (ParkAnalyzer.pathTiles pa)
   <-> heldWhenScanned worlds 3 isFootpath 1 0 = true)
  /\ (In (1%nat, 0%nat) (ParkAnalyzer.queueLocations pa)
      <-> heldWhenScanned worlds 3 isQueuePath 1 0 = true)
  /\ (In (1%nat, 0%nat) (ParkAnalyzer.entranceLocations pa)
      <-> heldWhenScanned worlds 3 isEntrance 1 0 = true)
  /\ (forall r, In (1%nat, 0%nat, r) (ParkAnalyzer.rideLocations pa)
                <-> heldWhenScanned worlds 3 (isTrackOf r) 1 0 = true)
  /\ (forall h test, Forall (eq h) worlds ->
        heldWhenScanned worlds 3 test 1 0 = tileHas h test 1 0).
Proof.
  apply (completed_scan_misses_nothing (smallPark None) [smallPark None; smallParkLater]
           3 2 ParkAnalyzer.initial 1 0).
  - reflexivity.
  - repeat constructor.
  - vm_compute. reflexivity.
  - lia.
  - lia.
Defined.

(** Two queued hires leave in one tick, in the order they were added. *)
Lemma two_hires_dispatched_in_order :
  let '(aq', _, dispatched) := processTicks countingGateway (smallPark None) 1 twoHires 0%nat in
  map fst dispatched
    = firstn (1 * ActionQueue.maxPerTick twoHires) (ActionQueue.queue twoHires)
  /\ ActionQueue.queue aq'
     = skipn (1 * ActionQueue.maxPerTick twoHires) (ActionQueue.queue twoHires)
  /\ ((length (ActionQueue.queue twoHires) <= 1 * ActionQueue.maxPerTick twoHires)%nat ->
      ActionQueue.queue aq' = [] /\ map fst dispatched = ActionQueue.queue twoHires).
Proof.
  apply (ActionQueue_first_in_first_out nat countingGateway (smallPark None) 1 twoHires 0%nat).
  reflexivity.
Defined.

(** The crew of the small park, counted. *)
Lemma crewedPark_staff_counts :
  let sm' := StaffManager.updateStaffLists crewedPark freshManager in
  let s' := StaffManager.statistics sm' in
  StaffManager.allStaff sm' = StaffManager.present parkCrew
  /\ StaffManager.totalStaff s' = Z.of_nat (length (StaffManager.allStaff sm'))
  /\ (forall ty m, In ty roles ->
        (In m (StaffManager.roster sm' ty)
         <-> In m (StaffManager.allStaff sm') /\ staff_type m = ty))
  /\ StaffManager.handymenCount s' + StaffManager.mechanicsCount s'
     + StaffManager.securityCount s' + StaffManager.entertainersCount s'
     <= StaffManager.totalStaff s'
  /\ (StaffManager.handymenCount s' + StaffManager.mechanicsCount s'
      + StaffManager.securityCount s' + StaffManager.entertainersCount s'
      = StaffManager.totalStaff s'
      <-> forallb knownRole (StaffManager.allStaff sm') = true).
Proof.
  apply (updateStaffLists_counts crewedPark freshManager parkCrew).
  reflexivity.
Defined.

(** With no handyman yet and a minimum of two, one handyman is asked for. *)
Lemma fresh_manager_hires_a_handyman :
  hiresOf (staffTypeNumber "handyman")
    (ActionQueue.queue
       (StaffManager.checkAutoHire sinStandIn CONFIG crewedPark ParkAnalyzer.initial
          freshManager ActionQueue.initial))
  = S (hiresOf (staffTypeNumber "handyman") (ActionQueue.queue ActionQueue.initial)).
Proof.
  apply (checkAutoHire_tops_up_to_minimum sinStandIn CONFIG crewedPark ParkAnalyzer.initial
           freshManager ActionQueue.initial "handyman").
  - left. reflexivity.
  - reflexivity.
  - reflexivity.
  - reflexivity.
  - discriminate.
  - reflexivity.
Defined.

(** The 3 by 2 park is one grid cell: tile (2, 1) lies in the zone of the
    first handyman. *)
Lemma crewedPark_zone_covers_far_corner :
  exists (m : StaffMember) (id x1 y1 x2 y2 : Z),
    nth_error (StaffManager.handymen crewedManager)
      (Z.to_nat (Z.of_nat 1 / patrolZoneSize CONFIG
                 * StaffManager.ceilDiv (Z.of_nat (fst (mapDims crewedPark)))
                     (patrolZoneSize CONFIG)
                 + Z.of_nat 2 / patrolZoneSize CONFIG)) = Some m
    /\ staff_id m = Some id
    /\ In {| action := "staffsetpatrolarea";
             args := PatrolAreaArgs id (x1 * 32) (y1 * 32) (x2 * 32) (y2 * 32) 0;
             callback := Some OnPatrolAreaSet |}
          (ActionQueue.queue
             (StaffManager.generateHandymanPatrolZones CONFIG crewedPark crewedManager
                ActionQueue.initial))
    /\ x1 <= Z.of_nat 2 <= x2 /\ y1 <= Z.of_nat 1 <= y2.
Proof.
  apply (handyman_zones_cover_the_world CONFIG crewedPark crewedManager ActionQueue.initial 2 1).
  - reflexivity.
  - vm_compute. discriminate.
  - vm_compute. discriminate.
  - reflexivity.
  - vm_compute. discriminate.
  - vm_compute. lia.
  - vm_compute. lia.
Defined.


(** From the footpath at (1, 0) the search reaches the footpath at (2, 0). *)
Lemma smallPark_search_reaches_next_tile :
  In (pathPointAt (2, 0))
    (RideTracker.findConnectedPaths (RideTracker.hostTile (smallPark None)) 1 0 []).
Proof.
  apply (findConnectedPaths_complete (RideTracker.hostTile (smallPark None)) 1 0 [] [(2, 0)]).
  - reflexivity.
  - cbn. lia.
  - reflexivity.
Defined.

(** The carousel, once tracked, is kept as found when the map is scanned
    again without its footpaths. *)
Lemma carousel_is_never_rescanned :
  let rt := RideTracker.scanAllRides (RideTracker.hostTile (smallPark None)) 4200 parkRides
              RideTracker.initial in
  let rt' := fst (fold_left trackerCall
                    [CallScan (fun _ _ => None) 4300 parkRides; CallGetNew] (rt, [])) in
  RideTracker.knownRides rt' !! 7
    = Some {| RideTracker.kr_id := 7; RideTracker.kr_name := "Carousel";
              RideTracker.kr_type := 3; RideTracker.kr_trackedAt := 4200 |}
  /\ RideTracker.rideEntrances rt' !! 7 = RideTracker.rideEntrances rt !! 7
  /\ RideTracker.rideExits rt' !! 7 = RideTracker.rideExits rt !! 7
  /\ RideTracker.ridePaths rt' !! 7 = RideTracker.ridePaths rt !! 7
  /\ RideTracker.getRideCoverage rt' 7 = RideTracker.getRideCoverage rt 7.
Proof.
  apply (tracked_ride_is_never_rescanned
           [CallScan (fun _ _ => None) 4300 parkRides; CallGetNew]
           (RideTracker.scanAllRides (RideTracker.hostTile (smallPark None)) 4200 parkRides
              RideTracker.initial) [] 7).
  vm_compute. reflexivity.
Defined.

(** Tracking the carousel in the small park. *)
Lemma carousel_stations_recorded :
  let rt' := RideTracker.trackRide (RideTracker.hostTile (smallPark None)) 4200 carousel
               RideTracker.initial in
  let stations := [Some {| RideTracker.st_entrance := Some (1, 0, None);
                           RideTracker.st_exit := None;
                           RideTracker.st_start := Some (0, 1) |}] in
  RideTracker.rideEntrances rt' !! RideTracker.info_id carousel
    = Some (perStation entranceOf stations)
  /\ RideTracker.rideExits rt' !! RideTracker.info_id carousel
     = Some (perStation exitOf stations)
  /\ exists paths,
       RideTracker.ridePaths rt' !! RideTracker.info_id carousel = Some paths
       /\ (forall p, In p paths ->
             (RideTracker.pp_type p = "station"%string
              /\ In (pointCell p) (perStation startsOf stations))
             \/ (RideTracker.pp_type p = "path"%string
                 /\ footpathAt (RideTracker.hostTile (smallPark None)) (pointCell p) = true
                 /\ exists door, In door (perStation doorsOf stations)
                                 /\ manhattan (pointCell p) door <= 10))
       /\ (forall c, In c (perStation startsOf stations) -> In (stationPointAt c) paths)
       /\ (forall d, In d (perStation doorsOf stations) ->
             footpathAt (RideTracker.hostTile (smallPark None)) d = true ->
             In (pathPointAt d) paths).
Proof.
  apply (trackRide_records_stations (RideTracker.hostTile (smallPark None)) 4200 carousel
           RideTracker.initial).
  - reflexivity.
  - reflexivity.
Defined.

(** The first smart-hiring check of a fresh plugin in the small park
    finds the carousel and asks for one mechanic. *)
Lemma fresh_plugin_hires_mechanic_for_carousel :
  let checked :=
    RideTracker.checkForNewRides (RideTracker.hostTile (smallPark None))
      (RideTracker.getGameTick (smallPark None)) parkRides
      (StaffManager.rideTracker freshPlugin) in
  let p' := StaffManager.checkSmartHiring sinStandIn true true CONFIG (smallPark None)
              parkRides ParkAnalyzer.initial freshPlugin in
  RideTracker.newRidesDetected (StaffManager.rideTracker p') = []
  /\ StaffManager.zonesNeedRegeneration (StaffManager.manager p') = true
  /\ StaffManager.newRidesDetected (StaffManager.statistics (StaffManager.manager p'))
     = StaffManager.newRidesDetected (StaffManager.statistics (StaffManager.manager freshPlugin))
       + Z.of_nat (length (RideTracker.newRidesDetected (fst checked)))
  /\ exists added : list PendingAction,
       ActionQueue.queue (StaffManager.actions p')
         = ActionQueue.queue (StaffManager.actions freshPlugin) ++ added
       /\ hiresOf 1 added
          = (if mechanicAutoHire CONFIG
                && (Z.of_nat (length (StaffManager.mechanics (StaffManager.manager freshPlugin)))
                    <? mechanicMaxCount CONFIG)
             then length (RideTracker.newRidesDetected (fst checked)) else 0%nat).
Proof.
  apply (checkSmartHiring_mechanic_per_new_ride sinStandIn CONFIG (smallPark None) parkRides
           ParkAnalyzer.initial freshPlugin).
  - reflexivity.
  - reflexivity.
  - vm_compute. reflexivity.
Defined.
